(** * codex-config: the two synchronisation scripts

    A shallow embedding of [scripts/sync_remote_skills.py] and
    [scripts/sync_to_codex.py], and the properties of their version logic,
    path validation, file collection, file copying and command running.

    Contents.
    - [PyStr], [PyRe], [PyPath], [Fs], [PySubprocess]: the parts of the
      Python library that the scripts call, as far as they call them.
    - [SyncToCodex]: [run_command], [validate_relative_file],
      [collect_tracked_directory_files], [collect_sync_files], [sync_files],
      [execute_workflow] and [main] of the local script.
    - [SyncRemoteSkills]: [extract_semver], [parse_semver],
      [should_upgrade_agent_browser], [find_executable], [run_command],
      [replace_with_directory], the two version readers,
      [maintain_agent_browser] and [print_skills_git_status] of the remote
      script.  The cloning of remote targets is not embedded.
    - The vocabulary of the properties, then the properties, C1 to C10, and
      the further properties, X1 to X23.

    Conventions of the embedding.
    - A Python [str] is a [string]: a sequence of code points below 256,
      each [ascii] standing for the code point with that number.  The
      character classes of the interpreter ([str.isspace], [str.isdigit],
      the class [\d] of [re], [str.isprintable]) are written out for that
      range.
    - A Python [int] is a [Z].
    - A path is a pure POSIX path; the file system is a finite map from
      paths to nodes, and two different paths are two different entries
      (no symbolic links; the working directory is not resolved).  File
      metadata is left out.
    - A raised exception is the [Raise] case of [result]; the exception
      classes that the code can meet are the constructors of [exn].
    - External processes and [shutil.which] are oracles handed to the
      functions.
    - Console output of the local workflow and wall-clock timing are left
      out. *)

From Stdlib Require Import Ascii String ZArith List Lia Bool.
From Stdlib Require Import Numbers.DecimalString.
From stdpp Require Import gmap strings sorting.

Local Open Scope Z_scope.

(** ** Exceptions and results *)

(** The subclasses of [OSError] that file operations raise. *)
Inductive os_error : Type :=
  | FileExistsError
  | FileNotFoundError
  | NotADirectoryError
  | IsADirectoryError
  | SameFileError.

Inductive exn : Type :=
  | SyncExecutionError (message : string)
  | ValueError (message : string)
  | IndexError (message : string)
  | OSError (kind : os_error).

Inductive result (A : Type) : Type :=
  | Ok (value : A)
  | Raise (e : exn).

Arguments Ok {A} value.
Arguments Raise {A} e.

#[global] Instance result_ret : MRet result := fun A a => Ok a.

#[global] Instance result_bind : MBind result := fun A B k r =>
  match r with
  | Ok a => k a
  | Raise e => Raise e
  end.

Definition is_sync_error {A : Type} (r : result A) : Prop :=
  exists message, r = Raise (SyncExecutionError message).

(** ** The [str] methods the scripts use *)

Module PyStr.

Definition ord (c : ascii) : N := N_of_ascii c.

Definition newline : ascii := "010"%char.
Definition dquote : ascii := "034"%char.
Definition squote : ascii := "039"%char.
Definition backslash : ascii := "092"%char.

Definition between (lo hi : N) (c : ascii) : bool :=
  ((lo <=? ord c) && (ord c <=? hi))%N.

(** [\d] of [re] on [str] patterns, and what [int] accepts as a digit:
    the decimal digits (category Nd). *)
Definition is_decimal (c : ascii) : bool := between 48 57 c.

(** [str.isdigit] on one character: the decimal digits and the
    superscripts two, three and one. *)
Definition isdigit_char (c : ascii) : bool :=
  is_decimal c || (ord c =? 178)%N || (ord c =? 179)%N || (ord c =? 185)%N.

Definition isspace (c : ascii) : bool :=
  between 9 13 c || between 28 32 c || (ord c =? 133)%N || (ord c =? 160)%N.

Definition isprintable (c : ascii) : bool :=
  negb ((ord c <? 32)%N || between 127 160 c || (ord c =? 173)%N).

Fixpoint all_chars (p : ascii -> bool) (s : string) : bool :=
  match s with
  | EmptyString => true
  | String c rest => p c && all_chars p rest
  end.

Fixpoint contains_char (c : ascii) (s : string) : bool :=
  match s with
  | EmptyString => false
  | String d rest => Ascii.eqb d c || contains_char c rest
  end.

Definition is_empty (s : string) : bool :=
  match s with
  | EmptyString => true
  | String _ _ => false
  end.

(** [s.isdigit()]: at least one character, all of them digits. *)
Definition isdigit (s : string) : bool :=
  negb (is_empty s) && all_chars isdigit_char s.

Fixpoint lstrip (s : string) : string :=
  match s with
  | EmptyString => EmptyString
  | String c rest => if isspace c then lstrip rest else s
  end.

Fixpoint rstrip (s : string) : string :=
  match s with
  | EmptyString => EmptyString
  | String c rest =>
      match rstrip rest with
      | EmptyString => if isspace c then EmptyString else String c EmptyString
      | kept => String c kept
      end
  end.

Definition strip (s : string) : string := rstrip (lstrip s).

(** [s.split(sep)] for a separator of one character. *)
Fixpoint split (sep : ascii) (s : string) : list string :=
  match s with
  | EmptyString => [EmptyString]
  | String c rest =>
      if Ascii.eqb c sep then EmptyString :: split sep rest
      else match split sep rest with
           | first :: others => String c first :: others
           | [] => [String c EmptyString]
           end
  end.

Fixpoint join (sep : string) (parts : list string) : string :=
  match parts with
  | [] => EmptyString
  | [p] => p
  | p :: rest => p +:+ sep +:+ join sep rest
  end.

(** ** [repr] of a string *)

Definition hex_digit (n : N) : ascii :=
  if (n <? 10)%N then ascii_of_N (48 + n) else ascii_of_N (87 + n).

Definition hex_escape (c : ascii) : string :=
  String backslash
    (String "x" (String (hex_digit (ord c / 16)) (String (hex_digit (ord c mod 16)) EmptyString))).

Definition repr_char (quote c : ascii) : string :=
  if Ascii.eqb c quote || Ascii.eqb c backslash then String backslash (String c EmptyString)
  else if (ord c =? 9)%N then String backslash "t"
  else if (ord c =? 10)%N then String backslash "n"
  else if (ord c =? 13)%N then String backslash "r"
  else if (ord c <? 32)%N || (ord c =? 127)%N then hex_escape c
  else if (ord c <? 127)%N then String c EmptyString
  else if isprintable c then String c EmptyString
  else hex_escape c.

Fixpoint repr_body (quote : ascii) (s : string) : string :=
  match s with
  | EmptyString => EmptyString
  | String c rest => repr_char quote c +:+ repr_body quote rest
  end.

Definition repr (s : string) : string :=
  let quote :=
    if contains_char squote s && negb (contains_char dquote s) then dquote else squote in
  String quote (repr_body quote s +:+ String quote EmptyString).

(** ** [int] of a string, base ten *)

Definition digit_value (c : ascii) : Z := Z.of_N (ord c) - 48.

(** Digits with single underscores between them. *)
Fixpoint int_digits (acc : Z) (after_digit : bool) (s : string) : option Z :=
  match s with
  | EmptyString => if after_digit then Some acc else None
  | String c rest =>
      if is_decimal c then int_digits (10 * acc + digit_value c) true rest
      else if Ascii.eqb c "_" then
        if after_digit then int_digits acc false rest else None
      else None
  end.

Definition int (s : string) : result Z :=
  let text := strip s in
  let '(negative, body) :=
    match text with
    | String "-" rest => (true, rest)
    | String "+" rest => (false, rest)
    | _ => (false, text)
    end in
  match int_digits 0 false body with
  | Some n => Ok (if negative then - n else n)
  | None => Raise (ValueError ("invalid literal for int() with base 10: " +:+ repr s))
  end.

(** [str(n)] of an integer. *)
Definition str_of_int (n : Z) : string := NilZero.string_of_int (Z.to_int n).

(** The line boundaries of [str.splitlines]. *)
Definition is_linebreak (c : ascii) : bool :=
  between 10 13 c || between 28 30 c || (ord c =? 133)%N.

(** [s.splitlines()]: a carriage return followed by a line feed is one
    boundary; no empty line after the last boundary. *)
Fixpoint splitlines (s : string) : list string :=
  match s with
  | EmptyString => []
  | String c rest =>
      if is_linebreak c then
        match rest with
        | String d rest2 =>
            if (ord c =? 13)%N && (ord d =? 10)%N
            then EmptyString :: splitlines rest2
            else EmptyString :: splitlines rest
        | EmptyString => [EmptyString]
        end
      else
        match splitlines rest with
        | [] => [String c EmptyString]
        | line :: lines => String c line :: lines
        end
  end.

Definition or_placeholder (s placeholder : string) : string :=
  if is_empty s then placeholder else s.

End PyStr.

(** ** [re]: the fragment of regular expressions that [SEMVER_PATTERN] uses *)

Module PyRe.

(** A pattern is a sequence of items: [\d+] (greedy) or an escaped
    literal character. *)
Inductive item : Type :=
  | DigitsPlus
  | Literal (c : ascii).

(** [match_here pattern s]: the text matched by [pattern] at the start of
    [s], as the backtracking matcher finds it: [\d+] first takes as many
    digits as it can and gives them back one at a time while the rest of
    the pattern fails. *)
Fixpoint match_here (pattern : list item) : string -> option string :=
  match pattern with
  | [] => fun _ => Some EmptyString
  | Literal c :: rest =>
      fun s =>
        match s with
        | String d tail =>
            if Ascii.eqb d c then String d <$> match_here rest tail else None
        | EmptyString => None
        end
  | DigitsPlus :: rest =>
      fix digits (s : string) : option string :=
        match s with
        | String d tail =>
            if PyStr.is_decimal d then
              match digits tail with
              | Some matched => Some (String d matched)
              | None => String d <$> match_here rest tail
              end
            else None
        | EmptyString => None
        end
  end.

(** [pattern.search(s)]: the match at the leftmost position that has one. *)
Fixpoint search (pattern : list item) (s : string) : option string :=
  match match_here pattern s with
  | Some matched => Some matched
  | None =>
      match s with
      | String _ tail => search pattern tail
      | EmptyString => None
      end
  end.

End PyRe.




(** ** [pathlib]: pure paths of the POSIX flavour *)

Module PyPath.

(** A parsed path: the root ([""], ["/"] or ["//"]) and the components
    after it. *)
Record Path : Type := mkPath { root : string; tail : list string }.

#[global] Instance Path_eq_dec : EqDecision Path.
Proof. solve_decision. Defined.

#[global] Instance Path_countable : Countable Path :=
  inj_countable' (fun p => (root p, tail p)) (fun t => mkPath t.1 t.2)
    (fun p => match p with mkPath _ _ => eq_refl end).

(** [posixpath.splitroot]: no leading slash, no root; exactly two leading
    slashes, the root ["//"]; one, or three and more, the root ["/"]. *)
Definition splitroot (text : string) : string * string :=
  match text with
  | String "/" rest =>
      match rest with
      | String "/" rest2 =>
          match rest2 with
          | String "/" _ => ("/", rest)
          | _ => ("//", rest2)
          end
      | _ => ("/", rest)
      end
  | _ => ("", text)
  end.

Definition is_component (x : string) : bool :=
  negb (PyStr.is_empty x) && negb (String.eqb x ".").

(** [Path(text)] *)
Definition parse (text : string) : Path :=
  let '(r, rel) := splitroot text in
  mkPath r (filter (fun x => is_component x = true) (PyStr.split "/" rel)).

(** [str(path)] and [path.as_posix()] *)
Definition as_posix (p : Path) : string :=
  let text := root p +:+ PyStr.join "/" (tail p) in
  if PyStr.is_empty text then "." else text.

Definition is_absolute (p : Path) : bool := negb (PyStr.is_empty (root p)).

(** [path.parts] *)
Definition parts (p : Path) : list string :=
  if PyStr.is_empty (root p) then tail p else root p :: tail p.

(** [a / b] *)
Definition join (a b : Path) : Path :=
  if is_absolute b then b else mkPath (root a) (tail a ++ tail b).

(** [path.parent] *)
Definition parent (p : Path) : Path := mkPath (root p) (removelast (tail p)).

(** [path.name] *)
Definition name (p : Path) : string := List.last (tail p) EmptyString.

(** The position of the last dot of a name, if it has one. *)
Fixpoint rfind_dot (s : string) : option nat :=
  match s with
  | EmptyString => None
  | String c rest =>
      match rfind_dot rest with
      | Some i => Some (S i)
      | None => if Ascii.eqb c "." then Some O else None
      end
  end.

(** [path.suffix]: the last dot of the name and what follows it, unless
    that dot is the first or the last character. *)
Definition suffix (p : Path) : string :=
  match rfind_dot (name p) with
  | Some i =>
      if ((0 <? i) && (i <? String.length (name p) - 1))%nat
      then String.substring i (String.length (name p) - i) (name p)
      else EmptyString
  | None => EmptyString
  end.

End PyPath.

(** ** The file system *)

Module Fs.
Import PyPath.

Inductive node : Type :=
  | File (content : string)
  | Directory.

#[global] Instance node_eq_dec : EqDecision node.
Proof. solve_decision. Defined.

(** The entry at a path.  A path without components is the root of the
    file system or the working directory: an existing directory. *)
Definition stat (fs : gmap Path node) (p : Path) : option node :=
  match tail p with
  | [] => Some Directory
  | _ :: _ => fs !! p
  end.

Definition exists_ (fs : gmap Path node) (p : Path) : bool :=
  match stat fs p with Some _ => true | None => false end.

Definition is_file (fs : gmap Path node) (p : Path) : bool :=
  match stat fs p with Some (File _) => true | _ => false end.

Definition is_dir (fs : gmap Path node) (p : Path) : bool :=
  match stat fs p with Some Directory => true | _ => false end.

(** [os.mkdir(p)] *)
Definition os_mkdir (fs : gmap Path node) (p : Path) : gmap Path node + os_error :=
  match stat fs p with
  | Some _ => inr FileExistsError
  | None =>
      match stat fs (parent p) with
      | None => inr FileNotFoundError
      | Some (File _) => inr NotADirectoryError
      | Some Directory => inl (<[p := Directory]> fs)
      end
  end.

(** [p.mkdir(parents=False, exist_ok=True)] *)
Definition mkdir_exist_ok (fs : gmap Path node) (p : Path) : gmap Path node + os_error :=
  match os_mkdir fs p with
  | inl fs' => inl fs'
  | inr FileNotFoundError => inr FileNotFoundError
  | inr e => if is_dir fs p then inl fs else inr e
  end.

(** [p.mkdir(parents=True, exist_ok=True)] for [p] with root [r] and the
    components [rev rev_tail]: try [os.mkdir]; when the parent is
    missing, make the parent the same way and try once more. *)
Fixpoint mkdir_parents (fs : gmap Path node) (r : string) (rev_tail : list string)
    : gmap Path node + os_error :=
  let self := mkPath r (rev rev_tail) in
  match os_mkdir fs self with
  | inl fs' => inl fs'
  | inr FileNotFoundError =>
      match rev_tail with
      | [] => inr FileNotFoundError
      | _ :: rev_parent =>
          match mkdir_parents fs r rev_parent with
          | inl fs' => mkdir_exist_ok fs' self
          | inr e => inr e
          end
      end
  | inr e => if is_dir fs self then inl fs else inr e
  end.

Definition mkdir (fs : gmap Path node) (p : Path) : gmap Path node + os_error :=
  mkdir_parents fs (root p) (rev (tail p)).

(** [shutil.copyfile(src, dst)]: the two paths must differ; the source is
    opened for reading, then the destination for writing. *)
Definition copyfile (fs : gmap Path node) (src dst : Path) : gmap Path node + os_error :=
  if bool_decide (src = dst) && exists_ fs src then inr SameFileError
  else
    match stat fs src with
    | None => inr FileNotFoundError
    | Some Directory => inr IsADirectoryError
    | Some (File content) =>
        match stat fs dst with
        | Some Directory => inr IsADirectoryError
        | Some (File _) => inl (<[dst := File content]> fs)
        | None =>
            match stat fs (parent dst) with
            | None => inr FileNotFoundError
            | Some (File _) => inr NotADirectoryError
            | Some Directory => inl (<[dst := File content]> fs)
            end
        end
    end.

(** [shutil.copy2(src, dst)]: a destination that is a directory stands
    for the entry named like the source inside it. *)
Definition copy2 (fs : gmap Path node) (src dst : Path) : gmap Path node + os_error :=
  let target :=
    if is_dir fs dst then mkPath (root dst) (tail dst ++ [name src]) else dst in
  copyfile fs src target.

(** *** Whole directories

    [shutil.rmtree] and [shutil.copytree] work on the entries under a path.
    They are embedded for a file system in which every entry lies in a
    directory, for a path with components, and for a destination that does
    not lie inside the source. *)

(** [q] is [p] or lies under it. *)
Definition within (p q : Path) : bool :=
  bool_decide (root q = root p)
  && bool_decide (take (length (tail p)) (tail q) = tail p).

(** [p.unlink()] *)
Definition unlink (fs : gmap Path node) (p : Path) : gmap Path node + os_error :=
  match stat fs p with
  | None => inr FileNotFoundError
  | Some Directory => inr IsADirectoryError
  | Some (File _) => inl (delete p fs)
  end.

(** [shutil.rmtree(p)] for a path with components: the directory goes, and
    every entry under it. *)
Definition rmtree (fs : gmap Path node) (p : Path) : gmap Path node + os_error :=
  match stat fs p with
  | None => inr FileNotFoundError
  | Some (File _) => inr NotADirectoryError
  | Some Directory => inl (filter (fun entry => within p entry.1 = false) fs)
  end.

(** [os.makedirs(p)] for [p] with root [r] and the components
    [rev rev_tail]: when the parent is missing, make it the same way
    first; then [os.mkdir]. *)
Fixpoint makedirs (fs : gmap Path node) (r : string) (rev_tail : list string)
    : gmap Path node + os_error :=
  let self := mkPath r (rev rev_tail) in
  match rev_tail with
  | [] => os_mkdir fs self
  | _ :: rev_parent =>
      if exists_ fs (mkPath r (rev rev_parent)) then os_mkdir fs self
      else
        match makedirs fs r rev_parent with
        | inl fs' => os_mkdir fs' self
        | inr FileExistsError => os_mkdir fs self
        | inr e => inr e
        end
  end.

(** The place under [dst] of an entry [q] under [src]. *)
Definition rebase (src dst q : Path) : Path :=
  mkPath (root dst) (tail dst ++ drop (length (tail src)) (tail q)).

(** The entries of [fs] under [src], moved under [dst]. *)
Definition moved (fs : gmap Path node) (src dst : Path) : list (Path * node) :=
  prod_map (rebase src dst) id
    <$> filter (fun entry => within src entry.1 = true /\ entry.1 <> src) (map_to_list fs).

(** [shutil.copytree(src, dst)] for a destination outside the source: the
    source is listed, the destination is made with [os.makedirs], and every
    entry under the source is copied to its place under the destination. *)
Definition copytree (fs : gmap Path node) (src dst : Path) : gmap Path node + os_error :=
  match stat fs src with
  | None => inr FileNotFoundError
  | Some (File _) => inr NotADirectoryError
  | Some Directory =>
      match makedirs fs (root dst) (rev (tail dst)) with
      | inr e => inr e
      | inl fs' => inl (list_to_map (moved fs src dst) ∪ fs')
      end
  end.

End Fs.

(** ** [subprocess] *)

Module PySubprocess.

Record CompletedProcess : Type :=
  mkCompleted { returncode : Z; stdout : string; stderr : string }.

(** What [subprocess.run] does with a command: the process runs to its
    end, or launching it raises an [OSError] whose text is [exc]. *)
Inductive outcome : Type :=
  | Completed (c : CompletedProcess)
  | LaunchFailed (exc : string).

Fixpoint backslashes (n : nat) : string :=
  match n with
  | O => EmptyString
  | S m => String PyStr.backslash (backslashes m)
  end.

(** The loop over the characters of one argument of [list2cmdline];
    [bs_buf] counts the backslashes held back. *)
Fixpoint cmdline_chars (arg : string) (bs_buf : nat) (result : string) : string * nat :=
  match arg with
  | EmptyString => (result, bs_buf)
  | String c rest =>
      if Ascii.eqb c PyStr.backslash then cmdline_chars rest (S bs_buf) result
      else if Ascii.eqb c PyStr.dquote then
        cmdline_chars rest O
          (result +:+ backslashes (bs_buf * 2)
           +:+ String PyStr.backslash (String PyStr.dquote EmptyString))
      else
        cmdline_chars rest O (result +:+ backslashes bs_buf +:+ String c EmptyString)
  end.

Definition cmdline_arg (result arg : string) : string :=
  let result := if PyStr.is_empty result then result else result +:+ " " in
  let needquote :=
    PyStr.contains_char " " arg || PyStr.contains_char "009" arg || PyStr.is_empty arg in
  let result := if needquote then result +:+ String PyStr.dquote EmptyString else result in
  let '(result, bs_buf) := cmdline_chars arg O result in
  let result := result +:+ backslashes bs_buf in
  if needquote
  then result +:+ backslashes bs_buf +:+ String PyStr.dquote EmptyString
  else result.

(** [subprocess.list2cmdline(seq)] *)
Definition list2cmdline (seq : list string) : string :=
  fold_left cmdline_arg seq EmptyString.

End PySubprocess.

(** ** scripts/sync_to_codex.py *)

Module SyncToCodex.
Import PyPath Fs PySubprocess.

Definition SYNC_FILE_TARGETS : list Path :=
  [parse "config.toml"; parse "AGENTS.md"; parse "notify.ps1"].

Definition SYNC_DIR_TARGETS : list Path :=
  [parse "agents"; parse "skills"].

(** [sorted(set(paths), key=lambda path: path.as_posix())]: the set is a
    [gset], enumerated in whatever order [elements] gives; the sort is
    stable and compares the keys as strings. *)
Definition key_le (p q : Path) : Prop := String.le (as_posix p) (as_posix q).

#[global] Instance key_le_dec : RelDecision key_le.
Proof. intros p q. unfold key_le. apply _. Defined.

Definition sorted_set (paths : list Path) : list Path :=
  merge_sort key_le (elements (list_to_set paths : gset Path)).

Section WithProcesses.

(** [subprocess.run]: the outcome of a command in a working directory. *)
Variable spawn : list string -> option string -> outcome.

Definition run_command (args : list string) (operation : string) (cwd : option Path)
    : result string :=
  match spawn args (as_posix <$> cwd) with
  | LaunchFailed exc =>
      Raise (SyncExecutionError
        (operation +:+ " failed while launching command: "
         +:+ hd "<missing-command>" args +:+ ". "
         +:+ "System error: " +:+ exc
         +:+ ". Suggested fix: ensure command exists and PATH is configured correctly."))
  | Completed completed =>
      if returncode completed =? 0 then Ok (PyStr.strip (stdout completed))
      else
        let command_text := list2cmdline args in
        let stderr := PyStr.or_placeholder (PyStr.strip (stderr completed)) "<empty>" in
        let stdout := PyStr.or_placeholder (PyStr.strip (stdout completed)) "<empty>" in
        Raise (SyncExecutionError
          (operation +:+ " failed." +:+ String PyStr.newline EmptyString
           +:+ "Command: " +:+ command_text +:+ String PyStr.newline EmptyString
           +:+ "Exit code: " +:+ PyStr.str_of_int (returncode completed)
           +:+ String PyStr.newline EmptyString
           +:+ "stderr: " +:+ stderr +:+ String PyStr.newline EmptyString
           +:+ "stdout: " +:+ stdout +:+ String PyStr.newline EmptyString
           +:+ "Suggested fix: verify repository state, command availability, "
           +:+ "and file permissions."))
  end.

Definition validate_relative_file
    (fs : gmap Path node) (repo_root relative_path : Path) (operation : string)
    : result unit :=
  if is_absolute relative_path || bool_decide (".." ∈ parts relative_path) then
    Raise (SyncExecutionError
      (operation +:+ " failed. Invalid relative path: " +:+ as_posix relative_path +:+ ". "
       +:+ "Suggested fix: ensure paths are repository-relative and do not escape the root."))
  else
    let source := join repo_root relative_path in
    if negb (exists_ fs source) then
      Raise (SyncExecutionError
        (operation +:+ " failed. Source file is missing: " +:+ as_posix source +:+ ". "
         +:+ "Suggested fix: create the file or update the sync allowlist."))
    else if negb (is_file fs source) then
      Raise (SyncExecutionError
        (operation +:+ " failed. Source path is not a file: " +:+ as_posix source +:+ ". "
         +:+ "Suggested fix: ensure allowlist contains file paths only."))
    else Ok tt.

(** The loop over the lines that git printed. *)
Fixpoint tracked_loop
    (fs : gmap Path node) (repo_root : Path) (lines : list string) (tracked_paths : list Path)
    : result (list Path) :=
  match lines with
  | [] => Ok tracked_paths
  | line :: rest =>
      let text := PyStr.strip line in
      if PyStr.is_empty text then tracked_loop fs repo_root rest tracked_paths
      else
        let relative_path := parse text in
        _ ← validate_relative_file fs repo_root relative_path
              "Validate git-tracked file entry";
        tracked_loop fs repo_root rest (tracked_paths ++ [relative_path])
  end.

Definition collect_tracked_directory_files
    (fs : gmap Path node) (repo_root : Path) (directories : list Path) : result (list Path) :=
  output ← run_command
             (["git"; "-C"; as_posix repo_root; "ls-files"; "--"] ++ (as_posix <$> directories))
             "Collect git-tracked files for sync directories" None;
  tracked_paths ← tracked_loop fs repo_root (PyStr.splitlines output) [];
  Ok (sorted_set tracked_paths).

(** The loop over the allowlisted files. *)
Fixpoint allowlist_loop
    (fs : gmap Path node) (repo_root : Path) (targets : list Path) (selected_paths : list Path)
    : result (list Path) :=
  match targets with
  | [] => Ok selected_paths
  | relative_file :: rest =>
      _ ← validate_relative_file fs repo_root relative_file "Validate allowlisted file";
      allowlist_loop fs repo_root rest (selected_paths ++ [relative_file])
  end.

Definition collect_sync_files (fs : gmap Path node) (repo_root : Path) : result (list Path) :=
  selected_paths ← allowlist_loop fs repo_root SYNC_FILE_TARGETS [];
  tracked ← collect_tracked_directory_files fs repo_root SYNC_DIR_TARGETS;
  Ok (sorted_set (selected_paths ++ tracked)).

(** The loop of [sync_files]; the file system is threaded through, and
    an exception leaves it as the files copied so far made it. *)
Fixpoint sync_files_loop
    (fs : gmap Path node) (repo_root destination_root : Path)
    (relative_files : list Path) (copied_files : Z) : result Z * gmap Path node :=
  match relative_files with
  | [] => (Ok copied_files, fs)
  | relative_path :: rest =>
      match validate_relative_file fs repo_root relative_path
              "Validate source file before copy" with
      | Raise e => (Raise e, fs)
      | Ok _ =>
          let source_path := join repo_root relative_path in
          let destination_path := join destination_root relative_path in
          match mkdir fs (parent destination_path) with
          | inr e => (Raise (OSError e), fs)
          | inl fs1 =>
              match copy2 fs1 source_path destination_path with
              | inr e => (Raise (OSError e), fs1)
              | inl fs2 =>
                  sync_files_loop fs2 repo_root destination_root rest (copied_files + 1)
              end
          end
      end
  end.

Definition sync_files
    (fs : gmap Path node) (repo_root destination_root : Path) (relative_files : list Path)
    : result Z * gmap Path node :=
  sync_files_loop fs repo_root destination_root relative_files 0.

Definition execute_workflow
    (fs : gmap Path node) (repo_root destination_root : Path) : result Z * gmap Path node :=
  match collect_sync_files fs repo_root with
  | Raise e => (Raise e, fs)
  | Ok files_to_sync =>
      match sync_files fs repo_root destination_root files_to_sync with
      | (Raise e, fs') => (Raise e, fs')
      | (Ok copied_count, fs') => (Ok 0, fs')
      end
  end.

(** [path.parents[1]]: the parent of the parent; an index error when the
    path has fewer than two components. *)
Definition second_parent (p : Path) : result Path :=
  match rev (tail p) with
  | _ :: _ :: above => Ok (mkPath (root p) (rev above))
  | _ => Raise (IndexError "1")
  end.

(** [DEFAULT_DESTINATION], for the home directory [home]. *)
Definition DEFAULT_DESTINATION (home : Path) : Path := join home (parse ".codex").

(** [main()], where [script_file] is the resolved path of the script and
    [home] the home directory of the user: the structured error becomes
    exit code 1, any other exception goes on. *)
Definition main (fs : gmap Path node) (script_file home : Path) : result Z * gmap Path node :=
  match second_parent script_file with
  | Raise e => (Raise e, fs)
  | Ok repo_root =>
      match execute_workflow fs repo_root (DEFAULT_DESTINATION home) with
      | (Raise (SyncExecutionError message), fs') => (Ok 1, fs')
      | (outcome, fs') => (outcome, fs')
      end
  end.

End WithProcesses.

End SyncToCodex.

(** ** scripts/sync_remote_skills.py *)

Module SyncRemoteSkills.
Import PySubprocess.

Definition SEMVER_PATTERN : list PyRe.item :=
  [PyRe.DigitsPlus; PyRe.Literal "."; PyRe.DigitsPlus; PyRe.Literal "."; PyRe.DigitsPlus].

Definition extract_semver (raw_text source : string) : result string :=
  match PyRe.search SEMVER_PATTERN raw_text with
  | Some matched => Ok matched
  | None =>
      Raise (SyncExecutionError
        ("Unable to parse semantic version from " +:+ source +:+ ": "
         +:+ PyStr.repr raw_text +:+ ". "
         +:+ "Suggested fix: inspect command output format."))
  end.

Definition parse_semver (version_text : string) : result (Z * Z * Z) :=
  let parts := PyStr.split "." version_text in
  if negb (length parts =? 3)%nat || negb (forallb PyStr.isdigit parts) then
    Raise (SyncExecutionError
      ("Invalid semantic version: " +:+ PyStr.repr version_text +:+ ". "
       +:+ "Suggested fix: provide a value like 1.2.3."))
  else
    match parts with
    | [p0; p1; p2] =>
        major ← PyStr.int p0;
        minor ← PyStr.int p1;
        patch ← PyStr.int p2;
        Ok (major, minor, patch)
    | _ => Raise (IndexError "list index out of range")
    end.

(** [a < b] on tuples of three integers: the first differing component
    decides. *)
Definition tuple_lt (a b : Z * Z * Z) : bool :=
  let '(a0, a1, a2) := a in
  let '(b0, b1, b2) := b in
  if negb (a0 =? b0) then a0 <? b0
  else if negb (a1 =? b1) then a1 <? b1
  else a2 <? b2.

Definition should_upgrade_agent_browser
    (installed_version : option string) (latest_version : string) : result bool :=
  match installed_version with
  | None => Ok true
  | Some installed =>
      installed_tuple ← parse_semver installed;
      latest_tuple ← parse_semver latest_version;
      Ok (tuple_lt installed_tuple latest_tuple)
  end.

(** *** Replacing a skill directory *)

Definition replace_with_directory (fs : gmap PyPath.Path Fs.node) (source target : PyPath.Path)
    : result unit * gmap PyPath.Path Fs.node :=
  let removed :=
    if Fs.exists_ fs target then
      if Fs.is_dir fs target then Fs.rmtree fs target else Fs.unlink fs target
    else inl fs in
  match removed with
  | inr e => (Raise (OSError e), fs)
  | inl fs1 =>
      match Fs.mkdir fs1 (PyPath.parent target) with
      | inr e => (Raise (OSError e), fs1)
      | inl fs2 =>
          match Fs.copytree fs2 source target with
          | inr e => (Raise (OSError e), fs2)
          | inl fs3 => (Ok tt, fs3)
          end
      end
  end.

(** *** Commands and the companion tool

    The state of a run: the commands handed to [subprocess.run] so far,
    each under the name [run_command] was asked for and with what became
    of it, and the lines printed.  What [shutil.which] finds and what a
    process does may depend on the commands that ran before (an install
    changes both).  Command names are parsed as POSIX paths, also where
    [platform_is_win] holds. *)

Record event : Type := mkEvent { asked : list string; ended : outcome }.

Record World : Type := mkWorld { trace : list event; console : list string }.

Record Host : Type := mkHost {
  which : list event -> string -> option string;
  spawn : list event -> list string -> option string -> outcome;
  platform_is_win : bool
}.

Definition prog (A : Type) : Type := World -> result A * World.

#[global] Instance prog_ret : MRet prog := fun A a w => (Ok a, w).

#[global] Instance prog_bind : MBind prog := fun A B k m w =>
  match m w with
  | (Ok a, w') => k a w'
  | (Raise e, w') => (Raise e, w')
  end.

Definition raise {A : Type} (e : exn) : prog A := fun w => (Raise e, w).

Definition lift {A : Type} (r : result A) : prog A := fun w => (r, w).

Definition print (line : string) : prog unit :=
  fun w => (Ok tt, mkWorld (trace w) (console w ++ [line])).

Section WithHost.

Variable host : Host.

(** [shutil.which(name)]; an empty answer counts as none. *)
Definition which_now (name : string) : prog (option string) :=
  fun w =>
    (Ok match which host (trace w) name with
        | Some resolved => if PyStr.is_empty resolved then None else Some resolved
        | None => None
        end, w).

Fixpoint first_resolved (candidates : list string) : prog (option string) :=
  match candidates with
  | [] => mret None
  | candidate :: rest =>
      resolved ← which_now candidate;
      match resolved with
      | Some r => mret (Some r)
      | None => first_resolved rest
      end
  end.

Definition find_executable (command_name : string) : prog (option string) :=
  if negb (PyStr.is_empty (PyPath.suffix (PyPath.parse command_name))) then
    fun w => (Ok (which host (trace w) command_name), w)
  else
    let candidates :=
      if platform_is_win host
      then [command_name +:+ ".cmd"; command_name +:+ ".exe"; command_name]
      else [command_name] in
    first_resolved candidates.

(** [subprocess.run(command, cwd=...)] *)
Definition subprocess_run (args command : list string) (cwd : option string) : prog outcome :=
  fun w =>
    let ran := spawn host (trace w) command cwd in
    (Ok ran, mkWorld (trace w ++ [mkEvent args ran]) (console w)).

Definition run_command (args : list string) (operation : string) (cwd : option PyPath.Path)
    : prog string :=
  let command_name := hd "<missing-command>" args in
  resolved_command ← find_executable command_name;
  match resolved_command with
  | None =>
      raise (SyncExecutionError
        (operation +:+ " failed. Command not found: " +:+ command_name +:+ ". "
         +:+ "Suggested fix: install the command and ensure it is on PATH."))
  | Some resolved =>
      match args with
      | [] => raise (IndexError "list assignment index out of range")
      | _ :: arguments =>
          let command := resolved :: arguments in
          ran ← subprocess_run args command (PyPath.as_posix <$> cwd);
          match ran with
          | LaunchFailed exc =>
              raise (SyncExecutionError
                (operation +:+ " failed while launching command: " +:+ command_name +:+ ". "
                 +:+ "System error: " +:+ exc
                 +:+ ". Suggested fix: verify command permissions and executable format."))
          | Completed completed =>
              if returncode completed =? 0 then mret (PyStr.strip (stdout completed))
              else
                let command_text := list2cmdline command in
                let stderr :=
                  PyStr.or_placeholder (PyStr.strip (stderr completed)) "<empty>" in
                let stdout :=
                  PyStr.or_placeholder (PyStr.strip (stdout completed)) "<empty>" in
                raise (SyncExecutionError
                  (operation +:+ " failed." +:+ String PyStr.newline EmptyString
                   +:+ "Command: " +:+ command_text +:+ String PyStr.newline EmptyString
                   +:+ "Exit code: " +:+ PyStr.str_of_int (returncode completed)
                   +:+ String PyStr.newline EmptyString
                   +:+ "stderr: " +:+ stderr +:+ String PyStr.newline EmptyString
                   +:+ "stdout: " +:+ stdout +:+ String PyStr.newline EmptyString
                   +:+ "Suggested fix: verify network access, repository permissions, "
                   +:+ "and PATH configuration."))
          end
      end
  end.

Definition read_installed_agent_browser_version : prog (option string) :=
  found ← find_executable "agent-browser";
  match found with
  | None => mret None
  | Some _ =>
      output ← run_command ["agent-browser"; "--version"]
                 "Read installed agent-browser version" None;
      version ← lift (extract_semver output "agent-browser --version");
      mret (Some version)
  end.

Definition read_latest_agent_browser_version : prog string :=
  output ← run_command ["npm"; "view"; "agent-browser"; "version"]
             "Read latest agent-browser version from npm" None;
  lift (extract_semver output "npm view agent-browser version").

Definition truthy (s : option string) : bool :=
  match s with
  | Some text => negb (PyStr.is_empty text)
  | None => false
  end.

Definition maintain_agent_browser : prog unit :=
  installed_version ← read_installed_agent_browser_version;
  latest_version ← read_latest_agent_browser_version;
  let current := if truthy installed_version then default "" installed_version else "missing" in
  _ ← print ("[agent-browser] installed=" +:+ current +:+ " latest=" +:+ latest_version);
  needed ← lift (should_upgrade_agent_browser installed_version latest_version);
  upgraded ←
    (if needed : bool then
       _ ← print "[agent-browser] upgrading CLI with npm install -g agent-browser";
       _ ← run_command ["npm"; "install"; "-g"; "agent-browser"]
             "Install or upgrade agent-browser globally" None;
       installed_version ← read_installed_agent_browser_version;
       match installed_version with
       | None =>
           raise (SyncExecutionError
             ("agent-browser remains unavailable after npm global install. "
              +:+ "Suggested fix: ensure npm global bin directory is on PATH."))
       | Some _ => mret true
       end
     else
       _ ← print "[agent-browser] CLI is already up to date; skipping npm global install";
       mret false);
  let needs_browser_install : bool := upgraded in
  if negb needs_browser_install then
    print "[agent-browser] skipping agent-browser install (no CLI upgrade performed)"
  else
    _ ← print "[agent-browser] running agent-browser install (CLI upgraded)";
    _ ← run_command ["agent-browser"; "install"] "Install Chromium via agent-browser" None;
    print "[agent-browser] install completed".

Definition print_skills_git_status (repo_root : PyPath.Path) : prog string :=
  status ← run_command ["git"; "status"; "--short"; "skills"]
             "Collect git status for skills directory" (Some repo_root);
  _ ← (if negb (PyStr.is_empty status) then
         _ ← print "[git] skills changes detected:";
         print status
       else
         print "[git] skills directory has no pending changes");
  mret status.

End WithHost.

End SyncRemoteSkills.

(** * Vocabulary of the properties *)

Section MatchingVocabulary.
Import PyRe.

(** A non-empty run of decimal digits. *)
Definition is_run (d : string) : bool :=
  negb (PyStr.is_empty d) && PyStr.all_chars PyStr.is_decimal d.

(** The texts a pattern describes. *)
Inductive matches : list item -> string -> Prop :=
  | matches_nil : matches [] ""
  | matches_literal c rest m :
      matches rest m -> matches (Literal c :: rest) (String c m)
  | matches_digits d rest m :
      is_run d = true -> matches rest m -> matches (DigitsPlus :: rest) (d +:+ m).

(** A version text: three runs of decimal digits with dots between. *)
Definition semver_text (m : string) : Prop :=
  exists d1 d2 d3,
    is_run d1 = true /\ is_run d2 = true /\ is_run d3 = true /\
    m = d1 +:+ "." +:+ d2 +:+ "." +:+ d3.

(** A text with a version text somewhere in it. *)
Definition has_semver (text : string) : Prop :=
  exists pre m post, semver_text m /\ text = pre +:+ m +:+ post.

(** [version_text] splits at its dots into exactly three components that
    pass [str.isdigit]. *)
Definition three_digit_components (version_text : string) : bool :=
  match PyStr.split "." version_text with
  | [p0; p1; p2] => PyStr.isdigit p0 && PyStr.isdigit p1 && PyStr.isdigit p2
  | _ => false
  end.

(** The order of version triples: the first component that differs
    decides. *)
Definition triple_lt (a b : Z * Z * Z) : Prop :=
  a.1.1 < b.1.1 \/
  (a.1.1 = b.1.1 /\ (a.1.2 < b.1.2 \/ (a.1.2 = b.1.2 /\ a.2 < b.2))).

End MatchingVocabulary.

Section LocalSyncVocabulary.
Import PyPath Fs SyncToCodex.



(** What [validate_relative_file] asks of a relative path: not absolute,
    no parent-traversal component, and a regular file under the
    repository root. *)
Definition valid_source (fs : gmap Path node) (repo_root p : Path) : bool :=
  negb (is_absolute p) && negb (bool_decide (".." ∈ parts p))
  && is_file fs (join repo_root p).

(** The command that lists the tracked files. *)
Definition ls_files_command (repo_root : Path) : list string :=
  ["git"; "-C"; as_posix repo_root; "ls-files"; "--"; "agents"; "skills"].

(** The paths that the output of git names: one for each line that is not
    blank. *)
Definition tracked_entries (git_stdout : string) : list Path :=
  parse <$> filter (fun text => PyStr.is_empty text = false)
              (PyStr.strip <$> PyStr.splitlines (PyStr.strip git_stdout)).


End LocalSyncVocabulary.

Section CommandVocabulary.
Import PySubprocess.

(** [part] occurs in [whole]. *)
Definition embeds (part whole : string) : Prop :=
  exists pre post, whole = pre +:+ part +:+ post.

(** A captured stream as a failure message shows it: trimmed, and the
    placeholder when nothing is left. *)
Definition shown_stream (captured : string) : string :=
  match PyStr.strip captured with
  | EmptyString => "<empty>"
  | text => text
  end.

(** A failure message carries the operation label, the command line, the
    exit code, both captured streams and a remediation hint. *)
Definition reports_failure
    (message operation command_text : string) (completed : CompletedProcess) : Prop :=
  embeds operation message /\
  embeds ("Command: " +:+ command_text) message /\
  embeds ("Exit code: " +:+ PyStr.str_of_int (returncode completed)) message /\
  embeds ("stderr: " +:+ shown_stream (stderr completed)) message /\
  embeds ("stdout: " +:+ shown_stream (stdout completed)) message /\
  embeds "Suggested fix: " message.

End CommandVocabulary.

Section MaintenanceVocabulary.
Import PySubprocess SyncRemoteSkills.

Definition version_command : list string := ["agent-browser"; "--version"].
Definition view_command : list string := ["npm"; "view"; "agent-browser"; "version"].
Definition npm_install_command : list string := ["npm"; "install"; "-g"; "agent-browser"].
Definition asset_install_command : list string := ["agent-browser"; "install"].

(** [command] was launched among the events [evs]. *)
Definition ran (command : list string) (evs : list event) : bool :=
  existsb (fun e => bool_decide (asked e = command)) evs.

Definition ended_zero (result : outcome) : bool :=
  match result with
  | Completed completed => returncode completed =? 0
  | LaunchFailed _ => false
  end.

(** [command] was launched among [evs] and ended with exit code zero. *)
Definition ran_ok (command : list string) (evs : list event) : bool :=
  existsb (fun e => bool_decide (asked e = command) && ended_zero (ended e)) evs.

(** A host on which the tool is never found, although npm installs it
    without complaint. *)
Definition host_without_bin_on_path : Host :=
  mkHost
    (fun _ name => if String.eqb name "npm" then Some "/usr/bin/npm" else None)
    (fun _ command _ =>
       match command with
       | [_; "view"; _; _] => Completed (mkCompleted 0 "0.14.0" "")
       | _ => Completed (mkCompleted 0 "added 1 package" "")
       end)
    false.

(** A host on which the tool appears once npm has installed it. *)
Definition host_that_upgrades : Host :=
  mkHost
    (fun history name =>
       if String.eqb name "npm" then Some "/usr/bin/npm"
       else if String.eqb name "agent-browser" then
         if ran npm_install_command history then Some "/usr/bin/agent-browser" else None
       else None)
    (fun _ command _ =>
       match command with
       | [_; "view"; _; _] => Completed (mkCompleted 0 "0.14.0" "")
       | [_; "--version"] => Completed (mkCompleted 0 "agent-browser 0.14.0" "")
       | _ => Completed (mkCompleted 0 "" "")
       end)
    false.

(** A host on which the installed tool is the latest one. *)
Definition host_up_to_date : Host :=
  mkHost
    (fun _ name => Some ("/usr/bin/" +:+ name))
    (fun _ command _ =>
       match command with
       | [_; "view"; _; _] => Completed (mkCompleted 0 "0.14.0" "")
       | [_; "--version"] => Completed (mkCompleted 0 "agent-browser 0.14.0" "")
       | _ => Completed (mkCompleted 1 "" "unexpected")
       end)
    false.


Definition fresh_world : World := mkWorld [] [].

(** What a step adds to the trace. *)
Definition extends {A : Type} (m : prog A) (w : World) (evs : list event) : Prop :=
  trace (m w).2 = trace w ++ evs.

End MaintenanceVocabulary.

Section CopyVocabulary.
Import PyPath Fs SyncToCodex.

Fixpoint proper_prefixes {A : Type} (l : list A) : list (list A) :=
  match l with
  | [] => []
  | x :: rest => [] :: (cons x <$> proper_prefixes rest)
  end.

(** The directories above a path, from the anchor down to its parent. *)
Definition ancestors (p : Path) : list Path :=
  mkPath (root p) <$> proper_prefixes (tail p).

(** A place where a file can be written: it is not a directory, and no
    regular file stands where one of its parent directories must be. *)
Definition target_free (fs : gmap Path node) (target : Path) : bool :=
  negb (is_dir fs target) && forallb (fun a => negb (is_file fs a)) (ancestors target).

(** The copies do not get in each other's way: no target is a source, and
    no target lies above another target. *)
Definition targets_apart (repo_root destination_root : Path) (files : list Path) : bool :=
  forallb (fun rp =>
    forallb (fun rp' =>
      negb (bool_decide (join repo_root rp = join destination_root rp'))
      && negb (bool_decide (join destination_root rp ∈ ancestors (join destination_root rp'))))
      files) files.

(** What [mkdir] changes: nothing that exists, and only directories on the
    way down to the path it was asked for. *)
Definition only_adds_directories (fs fs' : gmap Path node) (p : Path) : Prop :=
  forall q, fs' !! q = fs !! q \/
            (fs !! q = None /\ fs' !! q = Some Directory /\ (q = p \/ q ∈ ancestors p)).

Definition targets (destination_root : Path) (files : list Path) : list Path :=
  join destination_root <$> files.

(** The state of the destination after the files in [done] were copied,
    against the state [fs0] before the first copy. *)
Definition copied_from (fs0 : gmap Path node) (repo_root destination_root : Path)
    (cur : gmap Path node) (done : list Path) : Prop :=
  (forall rp, rp ∈ done -> cur !! join destination_root rp = fs0 !! join repo_root rp) /\
  (forall q, q ∉ targets destination_root done ->
     cur !! q = fs0 !! q \/
     (fs0 !! q = None /\ cur !! q = Some Directory /\
      exists rp, rp ∈ done /\ q ∈ ancestors (join destination_root rp))).


(** The file systems of the test of [sync_files]. *)
Definition fs_of_the_test : gmap Path node :=
  <[parse "/repo" := Directory]>
    (<[parse "/repo/config.toml" := File "new config"]>
       (<[parse "/repo/agents" := Directory]>
          (<[parse "/repo/agents/explorer.toml" := File "new explorer"]>
             (<[parse "/home" := Directory]>
                (<[parse "/home/.codex" := Directory]>
                   (<[parse "/home/.codex/config.toml" := File "old config"]>
                      (<[parse "/home/.codex/unrelated.txt" := File "keep me"]> ∅))))))).

End CopyVocabulary.

(** * Vocabulary of the further properties *)

Section VersionValueVocabulary.

(** The number that a run of decimal digits writes. *)
Fixpoint decimal_value (d : string) : Z :=
  match d with
  | EmptyString => 0
  | String c rest =>
      PyStr.digit_value c * 10 ^ Z.of_nat (String.length rest) + decimal_value rest
  end.

End VersionValueVocabulary.

Section LookupVocabulary.
Import PySubprocess SyncRemoteSkills.

(** An answer of [shutil.which] that counts: a text that is not empty. *)
Definition found (answer : option string) : option string :=
  match answer with
  | Some resolved => if PyStr.is_empty resolved then None else Some resolved
  | None => None
  end.

(** The first answer that counts. *)
Definition or_else (first second : option string) : option string :=
  match first with
  | Some resolved => Some resolved
  | None => second
  end.

(** A Windows host with the shims that npm installs: every command name
    with the extension [.cmd] or [.exe] is found where it lies. *)
Definition windows_host : Host :=
  mkHost
    (fun _ name =>
       if String.eqb name "npm.cmd" then Some "C:/nodejs/npm.cmd"
       else if String.eqb name "npm" then Some "C:/nodejs/npm"
       else if String.eqb name "git.exe" then Some "C:/git/git.exe"
       else None)
    (fun _ _ _ => LaunchFailed "[WinError 193] %1 is not a valid Win32 application")
    true.

End LookupVocabulary.

Section OrderVocabulary.
Import PySubprocess SyncRemoteSkills.

(** Nothing was launched, or [command] once. *)
Definition at_most_once (command : list string) (evs : list event) : Prop :=
  evs = [] \/ exists ran_as, evs = [mkEvent command ran_as].

(** The commands of the maintenance of the companion tool, in their order. *)
Definition maintenance_order : list (list string) :=
  [version_command; view_command; npm_install_command; version_command;
   asset_install_command].

(** What the versions read at the start of a run make of the question
    whether to upgrade. *)
Definition decides (host : Host) (w : World) (needed : bool) : Prop :=
  exists installed latest w1 w2,
    read_installed_agent_browser_version host w = (Ok installed, w1) /\
    read_latest_agent_browser_version host w1 = (Ok latest, w2) /\
    should_upgrade_agent_browser installed latest = Ok needed.

(** What a step adds to the console. *)
Definition prints {A : Type} (m : prog A) (w : World) (lines : list string) : Prop :=
  console (m w).2 = console w ++ lines.

(** The two lines with which a run of the maintenance can end. *)
Definition install_completed_line : string := "[agent-browser] install completed".
Definition install_skipped_line : string :=
  "[agent-browser] skipping agent-browser install (no CLI upgrade performed)".

Definition git_status_command : list string := ["git"; "status"; "--short"; "skills"].

(** Nothing but white space. *)
Definition blank (text : string) : bool := PyStr.all_chars PyStr.isspace text.

End OrderVocabulary.

Section TreeVocabulary.
Import PyPath Fs SyncRemoteSkills.

(** The path [p] extended by the components [s]. *)
Definition extend (p : Path) (s : list string) : Path := mkPath (root p) (tail p ++ s).

(** Every entry lies in a directory. *)
Definition consistent (fs : gmap Path node) : bool :=
  forallb (fun entry => is_dir fs (parent entry.1)) (map_to_list fs).

(** What the removal at the start of [replace_with_directory] leaves. *)
Definition removed (fs : gmap Path node) (target : Path) : gmap Path node + os_error :=
  if exists_ fs target then
    if is_dir fs target then rmtree fs target else unlink fs target
  else inl fs.

(** A consistent file system: a fresh checkout of a skill under [/tmp], and
    an older copy of it in the repository, with a file that the checkout
    no longer has. *)
Definition fs_with_stale_skill : gmap Path node :=
  <[parse "/tmp" := Directory]>
    (<[parse "/tmp/clone" := Directory]>
       (<[parse "/tmp/clone/demo" := Directory]>
          (<[parse "/tmp/clone/demo/SKILL.md" := File "new"]>
             (<[parse "/tmp/clone/demo/refs" := Directory]>
                (<[parse "/tmp/clone/demo/refs/a.md" := File "a"]>
                   (<[parse "/repo" := Directory]>
                      (<[parse "/repo/skills" := Directory]>
                         (<[parse "/repo/skills/demo" := Directory]>
                            (<[parse "/repo/skills/demo/SKILL.md" := File "old"]>
                               (<[parse "/repo/skills/demo/stale.md" := File "stale"]>
                                  ∅)))))))))).

End TreeVocabulary.

(** * Properties *)

(** ** Strings *)

Section StringFacts.

Lemma str_app_nil_l (s : string) : "" +:+ s = s.
Proof. reflexivity. Qed.

Lemma str_app_cons (c : ascii) (s t : string) : String c s +:+ t = String c (s +:+ t).
Proof. reflexivity. Qed.

Lemma str_app_nil_r (s : string) : s +:+ "" = s.
Proof. induction s as [|c s IH]; [reflexivity|]. rewrite str_app_cons, IH. reflexivity. Qed.

Lemma str_app_assoc (s t u : string) : (s +:+ t) +:+ u = s +:+ t +:+ u.
Proof. induction s as [|c s IH]; [reflexivity|]. rewrite !str_app_cons, IH. reflexivity. Qed.

Lemma is_empty_true (s : string) : PyStr.is_empty s = true <-> s = "".
Proof. destruct s; simpl; split; congruence. Qed.

Lemma bind_ok {A B : Type} (r : result A) (k : A -> result B) (b : B) :
  r ≫= k = Ok b -> exists a, r = Ok a /\ k a = Ok b.
Proof. destruct r as [a|e]; [eauto|discriminate]. Qed.

End StringFacts.

(** ** Matching [SEMVER_PATTERN] *)

Section Matching.
Import PyRe.

Lemma is_run_cons (c : ascii) (d : string) :
  is_run (String c d) = PyStr.is_decimal c && PyStr.all_chars PyStr.is_decimal d.
Proof. reflexivity. Qed.

Lemma is_run_extend (c : ascii) (d : string) :
  PyStr.is_decimal c = true -> is_run d = true -> is_run (String c d) = true.
Proof.
  intros Hc Hd. rewrite is_run_cons, Hc. unfold is_run in Hd.
  apply andb_true_iff in Hd as [_ Hd]. exact Hd.
Qed.

Lemma match_here_digits (rest : list item) (c : ascii) (s : string) :
  match_here (DigitsPlus :: rest) (String c s) =
    if PyStr.is_decimal c then
      match match_here (DigitsPlus :: rest) s with
      | Some matched => Some (String c matched)
      | None => String c <$> match_here rest s
      end
    else None.
Proof. reflexivity. Qed.

Lemma match_here_digits_empty (rest : list item) :
  match_here (DigitsPlus :: rest) "" = None.
Proof. reflexivity. Qed.

Lemma matches_digits_cons (rest : list item) (c : ascii) (m : string) :
  PyStr.is_decimal c = true ->
  matches (DigitsPlus :: rest) m -> matches (DigitsPlus :: rest) (String c m).
Proof.
  intros Hc Hm. inversion Hm as [| |d rest' m' Hd Hm']; subst.
  rewrite <- str_app_cons. constructor; [|exact Hm'].
  apply is_run_extend; assumption.
Qed.

(** What the matcher returns is a text of the pattern and a prefix of the
    input. *)
Lemma match_here_sound (pattern : list item) :
  forall s m, match_here pattern s = Some m ->
    matches pattern m /\ exists post, s = m +:+ post.
Proof.
  induction pattern as [|[|c] rest IH]; intros s m H.
  - simpl in H. inversion H; subst. split; [constructor|]. exists s. reflexivity.
  - revert m H. induction s as [|d s IHs]; intros m H.
    + rewrite match_here_digits_empty in H. discriminate.
    + rewrite match_here_digits in H.
      destruct (PyStr.is_decimal d) eqn:Hd; [|discriminate].
      destruct (match_here (DigitsPlus :: rest) s) as [m0|] eqn:Hgreedy.
      * inversion H; subst. destruct (IHs m0 eq_refl) as [Hm [post ->]].
        split; [apply matches_digits_cons; assumption|].
        exists post. reflexivity.
      * destruct (match_here rest s) as [m1|] eqn:Hrest; [|discriminate].
        simpl in H. inversion H; subst.
        destruct (IH s m1 Hrest) as [Hm [post ->]].
        split.
        -- change (String d m1) with (String d "" +:+ m1).
           constructor; [|exact Hm]. rewrite is_run_cons, Hd. reflexivity.
        -- exists post. reflexivity.
  - destruct s as [|d s]; [discriminate|]. simpl in H.
    destruct (Ascii.eqb d c) eqn:Hdc; [|discriminate].
    apply Ascii.eqb_eq in Hdc. subst d.
    destruct (match_here rest s) as [m1|] eqn:Hrest; [|discriminate].
    simpl in H. inversion H; subst.
    destruct (IH s m1 Hrest) as [Hm [post ->]].
    split; [constructor; exact Hm|]. exists post. reflexivity.
Qed.

(** Backtracking loses nothing: where some text of the pattern starts the
    input, the matcher finds a match. *)
Lemma match_here_complete (pattern : list item) :
  forall m, matches pattern m ->
    forall post, exists m', match_here pattern (m +:+ post) = Some m'.
Proof.
  intros m Hm. induction Hm as [|c rest m Hm IH|d rest m Hd Hm IH]; intros post.
  - exists "". reflexivity.
  - destruct (IH post) as [m' Hm']. exists (String c m').
    rewrite str_app_cons. simpl. rewrite Ascii.eqb_refl, Hm'. reflexivity.
  - revert Hd. induction d as [|c d IHd]; intros Hd; [discriminate|].
    rewrite is_run_cons in Hd. apply andb_true_iff in Hd as [Hc Hall].
    rewrite str_app_assoc, str_app_cons, match_here_digits, Hc.
    destruct (match_here (DigitsPlus :: rest) (d +:+ m +:+ post)) as [m0|] eqn:Hgreedy.
    + eexists. reflexivity.
    + destruct d as [|c' d].
      * rewrite str_app_nil_l. destruct (IH post) as [m' ->]. eexists. reflexivity.
      * exfalso. destruct IHd as [m' Hm'].
        -- unfold is_run. simpl. exact Hall.
        -- rewrite str_app_assoc in Hm'. congruence.
Qed.

(** The search returns the match at the first position that has one. *)
Lemma search_sound (pattern : list item) :
  forall s m, search pattern s = Some m ->
    matches pattern m /\
    exists pre post, s = pre +:+ m +:+ post /\
      forall pre' m' post', matches pattern m' -> s = pre' +:+ m' +:+ post' ->
        (String.length pre <= String.length pre')%nat.
Proof.
  induction s as [|c s IH]; intros m H.
  - simpl in H. destruct (match_here pattern "") as [m0|] eqn:Hm0; [|discriminate].
    inversion H; subst. destruct (match_here_sound _ _ _ Hm0) as [Hm [post Hpost]].
    split; [exact Hm|]. exists "", post. split; [exact Hpost|]. intros. simpl. lia.
  - simpl in H. destruct (match_here pattern (String c s)) as [m0|] eqn:Hm0.
    + inversion H; subst. destruct (match_here_sound _ _ _ Hm0) as [Hm [post Hpost]].
      split; [exact Hm|]. exists "", post. split; [exact Hpost|]. intros. simpl. lia.
    + destruct (IH m H) as [Hm [pre [post [Heq Hfirst]]]].
      split; [exact Hm|]. exists (String c pre), post. split.
      * rewrite str_app_cons, <- Heq. reflexivity.
      * intros pre' m' post' Hm' Heq'. destruct pre' as [|c' pre'].
        -- exfalso. rewrite str_app_nil_l in Heq'.
           destruct (match_here_complete _ _ Hm' post') as [m1 Hm1].
           rewrite <- Heq' in Hm1. congruence.
        -- rewrite str_app_cons in Heq'. inversion Heq'; subst c'.
           simpl. apply le_n_S. eapply Hfirst; eassumption.
Qed.

Lemma search_complete (pattern : list item) :
  forall pre m post, matches pattern m ->
    exists m', search pattern (pre +:+ m +:+ post) = Some m'.
Proof.
  induction pre as [|c pre IH]; intros m post Hm.
  - rewrite str_app_nil_l. destruct (match_here_complete _ _ Hm post) as [m' Hm'].
    exists m'. destruct (m +:+ post); simpl; rewrite Hm'; reflexivity.
  - rewrite str_app_cons. simpl.
    destruct (match_here pattern (String c (pre +:+ m +:+ post))) as [m0|].
    + eexists. reflexivity.
    + apply IH. exact Hm.
Qed.

End Matching.

(** ** Version texts *)

Section VersionFacts.
Import PyRe SyncRemoteSkills.

Lemma matches_semver (m : string) : matches SEMVER_PATTERN m <-> semver_text m.
Proof.
  split.
  - intros H. unfold SEMVER_PATTERN in H.
    inversion H as [| |d1 r1 m1 Hd1 H1]; subst.
    inversion H1 as [|c2 r2 m2 H2|]; subst.
    inversion H2 as [| |d2 r3 m3 Hd2 H3]; subst.
    inversion H3 as [|c4 r4 m4 H4|]; subst.
    inversion H4 as [| |d3 r5 m5 Hd3 H5]; subst.
    inversion H5; subst.
    exists d1, d2, d3. rewrite str_app_nil_r. repeat split; assumption.
  - intros (d1 & d2 & d3 & Hd1 & Hd2 & Hd3 & ->).
    unfold SEMVER_PATTERN.
    constructor; [assumption|]. rewrite str_app_cons, str_app_nil_l. constructor.
    constructor; [assumption|]. rewrite str_app_cons, str_app_nil_l. constructor.
    rewrite <- (str_app_nil_r d3). constructor; [assumption|constructor].
Qed.

Lemma extract_semver_ok (raw_text source v : string) :
  extract_semver raw_text source = Ok v <-> PyRe.search SEMVER_PATTERN raw_text = Some v.
Proof.
  unfold extract_semver. destruct (search SEMVER_PATTERN raw_text); split; congruence.
Qed.


Lemma isdigit_char_cases (c : ascii) :
  PyStr.isdigit_char c = true ->
  PyStr.isspace c = false /\ c <> "_"%char /\ c <> "-"%char /\ c <> "+"%char.
Proof.
  destruct c as [[] [] [] [] [] [] [] []]; vm_compute; intros H;
    repeat split; congruence.
Qed.

Lemma rstrip_no_space (s : string) :
  PyStr.all_chars (fun c => negb (PyStr.isspace c)) s = true -> PyStr.rstrip s = s.
Proof.
  induction s as [|c s IH]; [reflexivity|]. simpl. intros H.
  apply andb_true_iff in H as [Hc Hs]. rewrite (IH Hs).
  destruct s; [|reflexivity]. apply negb_true_iff in Hc. rewrite Hc. reflexivity.
Qed.

Lemma all_chars_impl (p q : ascii -> bool) (s : string) :
  (forall c, p c = true -> q c = true) ->
  PyStr.all_chars p s = true -> PyStr.all_chars q s = true.
Proof.
  intros Hpq. induction s as [|c s IH]; [reflexivity|]. simpl. intros H.
  apply andb_true_iff in H as [Hc Hs]. rewrite (Hpq c Hc), (IH Hs). reflexivity.
Qed.

Lemma strip_digits (s : string) :
  PyStr.all_chars PyStr.isdigit_char s = true -> PyStr.strip s = s.
Proof.
  intros H. unfold PyStr.strip.
  assert (PyStr.lstrip s = s) as ->.
  { destruct s as [|c s]; [reflexivity|]. simpl in *.
    apply andb_true_iff in H as [Hc _].
    destruct (isdigit_char_cases c Hc) as [-> _]. reflexivity. }
  apply rstrip_no_space. revert H. apply all_chars_impl.
  intros c Hc. destruct (isdigit_char_cases c Hc) as [-> _]. reflexivity.
Qed.



Lemma parse_semver_rejects (s : string) :
  three_digit_components s = false -> is_sync_error (parse_semver s).
Proof.
  unfold three_digit_components, parse_semver, is_sync_error. intros H.
  destruct (PyStr.split "." s) as [|p0 [|p1 [|p2 [|p3 ps]]]] eqn:Hs;
    simpl; try (eexists; reflexivity).
  simpl in H.
  destruct (PyStr.isdigit p0), (PyStr.isdigit p1), (PyStr.isdigit p2);
    simpl in *; try discriminate; eexists; reflexivity.
Qed.


End VersionFacts.

(** ** The version claims *)

Section VersionClaims.
Import PyRe SyncRemoteSkills.

Lemma tuple_lt_spec (a b : Z * Z * Z) : tuple_lt a b = true <-> triple_lt a b.
Proof.
  destruct a as [[a0 a1] a2], b as [[b0 b1] b2]. unfold tuple_lt, triple_lt. simpl.
  destruct (Z.eqb_spec a0 b0), (Z.eqb_spec a1 b1); simpl;
    rewrite Z.ltb_lt; lia.
Qed.

Lemma has_semver_search (text : string) :
  has_semver text <-> exists m, search SEMVER_PATTERN text = Some m.
Proof.
  split.
  - intros (pre & m & post & Hm & ->).
    apply search_complete, matches_semver, Hm.
  - intros [m Hm]. apply search_sound in Hm as (Hm & pre & post & -> & _).
    exists pre, m, post. split; [apply matches_semver, Hm|reflexivity].
Qed.

(** C1. [should_upgrade_agent_browser] answers true exactly when no version
    is installed or when both texts parse and the installed triple is
    below the latest one in the order of triples (first differing
    component decides); when both parse and the installed triple is not
    below, it answers false.  Installed 0.13.9 against latest 0.14.0
    upgrades; installed 0.15.0 against latest 0.14.0 does not. *)
Theorem should_upgrade_iff_missing_or_older :
  (forall (installed_version : option string) (latest_version : string),
      should_upgrade_agent_browser installed_version latest_version = Ok true <->
      (installed_version = None \/
       exists installed a b,
         installed_version = Some installed /\
         parse_semver installed = Ok a /\
         parse_semver latest_version = Ok b /\
         triple_lt a b)) /\
  (forall installed latest_version a b,
      parse_semver installed = Ok a ->
      parse_semver latest_version = Ok b ->
      ~ triple_lt a b ->
      should_upgrade_agent_browser (Some installed) latest_version = Ok false) /\
  should_upgrade_agent_browser (Some "0.13.9") "0.14.0" = Ok true /\
  should_upgrade_agent_browser (Some "0.15.0") "0.14.0" = Ok false.
Proof.
  split; [|split; [|split; reflexivity]].
  - intros [installed|] latest_version; simpl.
    + split.
      * intros H. right.
        apply bind_ok in H as (a & Ha & H).
        apply bind_ok in H as (b & Hb & H).
        exists installed, a, b. repeat split; try assumption.
        apply tuple_lt_spec. congruence.
      * intros [H|(i & a & b & Hi & Ha & Hb & Hlt)]; [discriminate|].
        inversion Hi; subst i. rewrite Ha. simpl. rewrite Hb. simpl.
        apply tuple_lt_spec in Hlt. rewrite Hlt. reflexivity.
    + split; [auto|reflexivity].
  - intros installed latest_version a b Ha Hb Hlt. simpl.
    rewrite Ha. simpl. rewrite Hb. simpl.
    destruct (tuple_lt a b) eqn:E; [|reflexivity].
    apply tuple_lt_spec in E. contradiction.
Qed.

Lemma should_upgrade_iff_missing_or_older_witness :
  parse_semver "0.14.0" = Ok (0, 14, 0) /\
  parse_semver "0.14.0" = Ok (0, 14, 0) /\
  ~ triple_lt (0, 14, 0) (0, 14, 0) /\
  should_upgrade_agent_browser (Some "0.14.0") "0.14.0" = Ok false.
Proof.
  assert (Hnot : ~ triple_lt (0, 14, 0) (0, 14, 0)) by (unfold triple_lt; simpl; lia).
  split; [reflexivity|]. split; [reflexivity|]. split; [exact Hnot|].
  exact (proj1 (proj2 should_upgrade_iff_missing_or_older)
           "0.14.0" "0.14.0" (0, 14, 0) (0, 14, 0) eq_refl eq_refl Hnot).
Defined.

(** C10. With no installed version the answer is true for every latest
    text, which is not parsed: a latest text that [parse_semver] rejects
    makes no difference. *)
Theorem should_upgrade_missing_ignores_latest :
  (forall latest_version : string,
      should_upgrade_agent_browser None latest_version = Ok true) /\
  is_sync_error (parse_semver "not-a-version") /\
  should_upgrade_agent_browser None "not-a-version" = Ok true.
Proof.
  split; [reflexivity|]. split; [|reflexivity].
  apply parse_semver_rejects. reflexivity.
Qed.

(** C9. [extract_semver] succeeds on every text that has a version text
    somewhere in it, and returns the one that starts first: surrounding
    text and further components do not make it fail.  From "v1.2.3-beta"
    and from "1.2.3.4" it returns "1.2.3". *)
Theorem extract_semver_first_match :
  (forall raw_text source : string,
      has_semver raw_text ->
      exists v pre post,
        extract_semver raw_text source = Ok v /\
        semver_text v /\
        raw_text = pre +:+ v +:+ post /\
        forall pre' m' post',
          semver_text m' -> raw_text = pre' +:+ m' +:+ post' ->
          (String.length pre <= String.length pre')%nat) /\
  (forall source, extract_semver "v1.2.3-beta" source = Ok "1.2.3") /\
  (forall source, extract_semver "1.2.3.4" source = Ok "1.2.3").
Proof.
  split; [|split; reflexivity].
  intros raw_text source H. apply has_semver_search in H as [v Hv].
  destruct (search_sound _ _ _ Hv) as (Hm & pre & post & Heq & Hfirst).
  exists v, pre, post. split; [apply extract_semver_ok, Hv|].
  split; [apply matches_semver, Hm|]. split; [exact Heq|].
  intros pre' m' post' Hm' Heq'. eapply Hfirst; [|exact Heq'].
  apply matches_semver, Hm'.
Qed.

Lemma semver_in_command_output : has_semver "agent-browser 0.14.0".
Proof. apply has_semver_search. eexists. reflexivity. Qed.

Lemma extract_semver_first_match_witness :
  has_semver "agent-browser 0.14.0" /\
  exists v pre post,
    extract_semver "agent-browser 0.14.0" "agent-browser --version" = Ok v /\
    semver_text v /\
    "agent-browser 0.14.0" = pre +:+ v +:+ post /\
    forall pre' m' post',
      semver_text m' -> "agent-browser 0.14.0" = pre' +:+ m' +:+ post' ->
      (String.length pre <= String.length pre')%nat.
Proof.
  split; [exact semver_in_command_output|].
  exact (proj1 extract_semver_first_match "agent-browser 0.14.0"
           "agent-browser --version" semver_in_command_output).
Defined.

(** Where the two digit classes part: a superscript passes [str.isdigit]
    and is refused by [int], so this text gets past the check of
    [parse_semver] and fails in the conversion. *)
Lemma parse_semver_superscript :
  let text := "1.2." +:+ String "178" "" in
  three_digit_components text = true /\
  exists message, parse_semver text = Raise (ValueError message).
Proof. split; [reflexivity|]. eexists. reflexivity. Qed.

End VersionClaims.

(** ** Paths *)

Section PathFacts.
Import PyPath.

Lemma split_no_sep (sep : ascii) (s : string) :
  PyStr.contains_char sep s = false -> PyStr.split sep s = [s].
Proof.
  induction s as [|c s IH]; [reflexivity|]. simpl. intros H.
  apply orb_false_iff in H as [Hc Hs]. rewrite Hc, (IH Hs). reflexivity.
Qed.

Lemma split_app_sep (sep : ascii) (s rest : string) :
  PyStr.contains_char sep s = false ->
  PyStr.split sep (s +:+ String sep rest) = s :: PyStr.split sep rest.
Proof.
  induction s as [|c s IH]; intros H.
  - rewrite str_app_nil_l. simpl. rewrite Ascii.eqb_refl. reflexivity.
  - simpl in H. apply orb_false_iff in H as [Hc Hs].
    rewrite str_app_cons. simpl. rewrite Hc, (IH Hs). reflexivity.
Qed.










End PathFacts.

(** ** Validation and collection *)

Section CollectFacts.
Import PyPath Fs PySubprocess SyncToCodex.

Lemma validate_ok_iff (fs : gmap Path node) (repo_root p : Path) (operation : string) :
  validate_relative_file fs repo_root p operation = Ok tt <-> valid_source fs repo_root p = true.
Proof.
  unfold validate_relative_file, valid_source, is_file, exists_.
  destruct (is_absolute p); simpl; [split; discriminate|].
  destruct (bool_decide (".." ∈ parts p)); simpl; [split; discriminate|].
  destruct (stat fs (join repo_root p)) as [[content|]|]; simpl; split;
    congruence.
Qed.

Lemma validate_fails (fs : gmap Path node) (repo_root p : Path) (operation : string) :
  valid_source fs repo_root p = false ->
  is_sync_error (validate_relative_file fs repo_root p operation).
Proof.
  unfold validate_relative_file, valid_source, is_file, exists_, is_sync_error.
  destruct (is_absolute p); simpl; [eauto|].
  destruct (bool_decide (".." ∈ parts p)); simpl; [eauto|].
  destruct (stat fs (join repo_root p)) as [[content|]|]; simpl; eauto.
  discriminate.
Qed.

Lemma allowlist_loop_ok (fs : gmap Path node) (repo_root : Path) (targets : list Path) :
  forall selected,
    forallb (valid_source fs repo_root) targets = true ->
    allowlist_loop fs repo_root targets selected = Ok (selected ++ targets).
Proof.
  induction targets as [|p targets IH]; intros selected H; simpl.
  - rewrite app_nil_r. reflexivity.
  - simpl in H. apply andb_true_iff in H as [Hp Hrest].
    apply (validate_ok_iff fs repo_root p "Validate allowlisted file") in Hp.
    rewrite Hp. simpl. rewrite (IH _ Hrest), <- app_assoc. reflexivity.
Qed.

Lemma allowlist_loop_fails (fs : gmap Path node) (repo_root : Path) (targets : list Path) :
  forall selected,
    forallb (valid_source fs repo_root) targets = false ->
    is_sync_error (allowlist_loop fs repo_root targets selected).
Proof.
  induction targets as [|p targets IH]; intros selected H; simpl in *; [discriminate|].
  destruct (valid_source fs repo_root p) eqn:Hp.
  - apply (validate_ok_iff fs repo_root p "Validate allowlisted file") in Hp.
    rewrite Hp. simpl. apply IH. exact H.
  - destruct (validate_fails fs repo_root p "Validate allowlisted file" Hp) as [m ->].
    exists m. reflexivity.
Qed.

Lemma tracked_loop_ok (fs : gmap Path node) (repo_root : Path) (lines : list string) :
  forall tracked,
    let entries :=
      parse <$> filter (fun text => PyStr.is_empty text = false) (PyStr.strip <$> lines) in
    forallb (valid_source fs repo_root) entries = true ->
    tracked_loop fs repo_root lines tracked = Ok (tracked ++ entries).
Proof.
  induction lines as [|line lines IH]; intros tracked entries H; simpl.
  - subst entries. simpl. rewrite app_nil_r. reflexivity.
  - subst entries. rewrite fmap_cons in H |- *.
    destruct (PyStr.is_empty (PyStr.strip line)) eqn:E.
    + rewrite filter_cons_False in H |- * by congruence. apply IH. exact H.
    + rewrite filter_cons_True in H |- * by assumption.
      rewrite fmap_cons in H |- *. simpl in H.
      apply andb_true_iff in H as [Hp Hrest].
      apply (validate_ok_iff fs repo_root _ "Validate git-tracked file entry") in Hp.
      rewrite Hp. simpl. rewrite (IH _ Hrest), <- app_assoc. reflexivity.
Qed.

#[local] Instance key_le_trans : Transitive key_le.
Proof. intros p q r. unfold key_le. apply transitivity. Qed.

#[local] Instance key_le_total : Total key_le.
Proof. intros p q. unfold key_le. apply total, _. Qed.

Lemma sorted_set_elem (paths : list Path) (p : Path) : p ∈ sorted_set paths <-> p ∈ paths.
Proof.
  unfold sorted_set. rewrite merge_sort_Permutation, elem_of_elements, elem_of_list_to_set.
  reflexivity.
Qed.








End CollectFacts.

(** ** The claims on validation and collection *)

Section CollectClaims.
Import PyPath Fs PySubprocess SyncToCodex.

(** C4. A relative path that is absolute or has a parent-traversal
    component is refused with the structured error, whatever the
    repository root and whatever the file system holds; so a path that
    validation accepts is relative and has no such component. *)
Theorem validate_rejects_unsafe_paths
    (fs : gmap Path node) (repo_root relative_path : Path) (operation : string) :
  (is_absolute relative_path = true \/ ".." ∈ parts relative_path ->
   is_sync_error (validate_relative_file fs repo_root relative_path operation)) /\
  (validate_relative_file fs repo_root relative_path operation = Ok tt ->
   is_absolute relative_path = false /\ ".." ∉ parts relative_path).
Proof.
  split.
  - intros H. apply validate_fails. unfold valid_source.
    destruct H as [-> | H]; [reflexivity|].
    rewrite (bool_decide_eq_true_2 _ H). apply andb_false_iff. left.
    apply andb_false_r.
  - intros H. apply validate_ok_iff in H. unfold valid_source in H.
    apply andb_true_iff in H as [H _]. apply andb_true_iff in H as [Habs Hdots].
    apply negb_true_iff in Habs, Hdots. split; [exact Habs|].
    apply bool_decide_eq_false_1 in Hdots. exact Hdots.
Qed.

Lemma validate_rejects_unsafe_paths_witness :
  let fs : gmap Path node := {[ mkPath "/" ["repo"; ".."; "secret"] := File "x" ]} in
  exists_ fs (join (parse "/repo") (parse "../secret")) = true /\
  ".." ∈ parts (parse "../secret") /\
  is_sync_error
    (validate_relative_file fs (parse "/repo") (parse "../secret") "Validate allowlisted file") /\
  is_sync_error
    (validate_relative_file fs (parse "/repo") (parse "/etc/passwd") "Validate allowlisted file").
Proof.
  intros fs. split; [reflexivity|].
  assert (Hdots : ".." ∈ parts (parse "../secret")) by (vm_compute; left).
  split; [exact Hdots|]. split.
  - exact (proj1 (validate_rejects_unsafe_paths fs (parse "/repo") (parse "../secret")
                    "Validate allowlisted file") (or_intror Hdots)).
  - exact (proj1 (validate_rejects_unsafe_paths fs (parse "/repo") (parse "/etc/passwd")
                    "Validate allowlisted file") (or_introl eq_refl)).
Defined.

Lemma collect_fails_on_allowlist
    (spawn : list string -> option string -> outcome)
    (fs : gmap Path node) (repo_root : Path) :
  forallb (valid_source fs repo_root) SYNC_FILE_TARGETS = false ->
  is_sync_error (collect_sync_files spawn fs repo_root).
Proof.
  intros H. unfold collect_sync_files.
  destruct (allowlist_loop_fails fs repo_root SYNC_FILE_TARGETS [] H) as [m ->].
  exists m. reflexivity.
Qed.

(** C3. When an allowlisted file is missing, is not a regular file, or has
    an unsafe path, collection raises the structured error, the workflow
    raises the same error, and the file system is as it was: nothing was
    copied into the destination. *)
Theorem missing_allowlisted_file_aborts_before_copy
    (spawn : list string -> option string -> outcome)
    (fs : gmap Path node) (repo_root destination_root relative_file : Path) :
  relative_file ∈ SYNC_FILE_TARGETS ->
  (exists_ fs (join repo_root relative_file) = false \/
   is_file fs (join repo_root relative_file) = false \/
   is_absolute relative_file = true \/
   ".." ∈ parts relative_file) ->
  exists message,
    collect_sync_files spawn fs repo_root = Raise (SyncExecutionError message) /\
    execute_workflow spawn fs repo_root destination_root
      = (Raise (SyncExecutionError message), fs).
Proof.
  intros Hin Hbad.
  assert (Hinvalid : valid_source fs repo_root relative_file = false).
  { unfold valid_source.
    destruct Hbad as [H|[H|[H|H]]].
    - unfold is_file. unfold exists_ in H.
      destruct (stat fs (join repo_root relative_file)); [discriminate|].
      apply andb_false_r.
    - rewrite H. apply andb_false_r.
    - rewrite H. reflexivity.
    - rewrite (bool_decide_eq_true_2 _ H). apply andb_false_iff. left.
      apply andb_false_r. }
  assert (Hall : forallb (valid_source fs repo_root) SYNC_FILE_TARGETS = false).
  { destruct (forallb (valid_source fs repo_root) SYNC_FILE_TARGETS) eqn:E; [|reflexivity].
    rewrite forallb_forall in E. rewrite <- Hinvalid. symmetry. apply E.
    apply list_elem_of_In. exact Hin. }
  destruct (collect_fails_on_allowlist spawn fs repo_root Hall) as [message Hm].
  exists message. split; [exact Hm|].
  unfold execute_workflow. rewrite Hm. reflexivity.
Qed.

Lemma missing_allowlisted_file_aborts_before_copy_witness :
  let spawn : list string -> option string -> outcome :=
    fun _ _ => Completed (mkCompleted 0 "agents/explorer.toml" "") in
  let fs : gmap Path node :=
    <[parse "/repo/config.toml" := File "model"]>
      (<[parse "/repo/AGENTS.md" := File "agents"]>
         (<[parse "/home/.codex/unrelated.txt" := File "keep me"]> ∅)) in
  parse "notify.ps1" ∈ SYNC_FILE_TARGETS /\
  exists_ fs (join (parse "/repo") (parse "notify.ps1")) = false /\
  exists message,
    collect_sync_files spawn fs (parse "/repo") = Raise (SyncExecutionError message) /\
    execute_workflow spawn fs (parse "/repo") (parse "/home/.codex")
      = (Raise (SyncExecutionError message), fs).
Proof.
  intros spawn fs.
  assert (Hin : parse "notify.ps1" ∈ SYNC_FILE_TARGETS)
    by (unfold SYNC_FILE_TARGETS; do 2 right; left).
  split; [exact Hin|]. split; [reflexivity|].
  exact (missing_allowlisted_file_aborts_before_copy spawn fs (parse "/repo")
           (parse "/home/.codex") (parse "notify.ps1") Hin (or_introl eq_refl)).
Defined.

Lemma local_run_command_ok
    (spawn : list string -> option string -> outcome)
    (args : list string) (operation : string) (completed : CompletedProcess) :
  spawn args None = Completed completed ->
  returncode completed = 0 ->
  SyncToCodex.run_command spawn args operation None = Ok (PyStr.strip (stdout completed)).
Proof.
  intros Hrun Hzero. unfold SyncToCodex.run_command. simpl. rewrite Hrun, Hzero.
  reflexivity.
Qed.



End CollectClaims.

(** ** Running commands *)

Section CommandFacts.
Import PySubprocess.

Lemma shown_stream_placeholder (captured : string) :
  PyStr.or_placeholder (PyStr.strip captured) "<empty>" = shown_stream captured.
Proof. unfold PyStr.or_placeholder, shown_stream. destruct (PyStr.strip captured); reflexivity. Qed.

Lemma shown_stream_empty (captured : string) :
  PyStr.strip captured = "" -> shown_stream captured = "<empty>".
Proof. unfold shown_stream. intros ->. reflexivity. Qed.

(** The text that both copies of [run_command] build on a non-zero exit. *)
Lemma failure_text_reports
    (operation command_text hint : string) (completed : CompletedProcess) :
  reports_failure
    (operation +:+ " failed." +:+ String PyStr.newline EmptyString
     +:+ "Command: " +:+ command_text +:+ String PyStr.newline EmptyString
     +:+ "Exit code: " +:+ PyStr.str_of_int (returncode completed)
     +:+ String PyStr.newline EmptyString
     +:+ "stderr: " +:+ PyStr.or_placeholder (PyStr.strip (stderr completed)) "<empty>"
     +:+ String PyStr.newline EmptyString
     +:+ "stdout: " +:+ PyStr.or_placeholder (PyStr.strip (stdout completed)) "<empty>"
     +:+ String PyStr.newline EmptyString
     +:+ "Suggested fix: " +:+ hint)
    operation command_text completed.
Proof.
  rewrite !shown_stream_placeholder.
  set (nl := String PyStr.newline EmptyString).
  repeat split.
  - exists "". eexists. rewrite str_app_nil_l. reflexivity.
  - exists (operation +:+ " failed." +:+ nl). eexists.
    rewrite !str_app_assoc. reflexivity.
  - exists (operation +:+ " failed." +:+ nl +:+ "Command: " +:+ command_text +:+ nl). eexists.
    rewrite !str_app_assoc. reflexivity.
  - exists (operation +:+ " failed." +:+ nl +:+ "Command: " +:+ command_text +:+ nl
            +:+ "Exit code: " +:+ PyStr.str_of_int (returncode completed) +:+ nl). eexists.
    rewrite !str_app_assoc. reflexivity.
  - exists (operation +:+ " failed." +:+ nl +:+ "Command: " +:+ command_text +:+ nl
            +:+ "Exit code: " +:+ PyStr.str_of_int (returncode completed) +:+ nl
            +:+ "stderr: " +:+ shown_stream (stderr completed) +:+ nl). eexists.
    rewrite !str_app_assoc. reflexivity.
  - exists (operation +:+ " failed." +:+ nl +:+ "Command: " +:+ command_text +:+ nl
            +:+ "Exit code: " +:+ PyStr.str_of_int (returncode completed) +:+ nl
            +:+ "stderr: " +:+ shown_stream (stderr completed) +:+ nl
            +:+ "stdout: " +:+ shown_stream (stdout completed) +:+ nl), hint.
    rewrite !str_app_assoc. reflexivity.
Qed.

Lemma first_resolved_pure (host : SyncRemoteSkills.Host) (candidates : list string)
    (w : SyncRemoteSkills.World) :
  exists r, SyncRemoteSkills.first_resolved host candidates w = (Ok r, w).
Proof.
  induction candidates as [|c candidates [r IH]]; [exists None; reflexivity|].
  simpl. unfold mbind, SyncRemoteSkills.prog_bind, SyncRemoteSkills.which_now.
  destruct (SyncRemoteSkills.which host (SyncRemoteSkills.trace w) c) as [resolved|].
  - destruct (PyStr.is_empty resolved); [exists r; exact IH|eexists; reflexivity].
  - exists r. exact IH.
Qed.

(** Looking a command up changes nothing and raises nothing. *)
Lemma find_executable_pure (host : SyncRemoteSkills.Host) (name : string)
    (w : SyncRemoteSkills.World) :
  exists r, SyncRemoteSkills.find_executable host name w = (Ok r, w).
Proof.
  unfold SyncRemoteSkills.find_executable.
  destruct (negb (PyStr.is_empty (PyPath.suffix (PyPath.parse name)))).
  - eexists. reflexivity.
  - apply first_resolved_pure.
Qed.

End CommandFacts.

Section CommandClaims.
Import PyPath PySubprocess.

(** C6. A command that ends with a non-zero exit code makes [run_command]
    raise one structured error whose message carries the operation label,
    the command line, the exit code, the captured standard error and
    standard output (the placeholder in place of an empty stream) and a
    remediation hint; a command that ends with exit code zero makes it
    return the trimmed standard output.  This holds for the copy of
    [run_command] in each script; the one of the remote script launches the
    command under the name that the lookup resolved. *)
Theorem run_command_exit_code_contract :
  (forall (spawn : list string -> option string -> outcome)
          (args : list string) (operation : string) (cwd : option Path)
          (completed : CompletedProcess),
      spawn args (as_posix <$> cwd) = Completed completed ->
      (returncode completed <> 0 ->
       exists message,
         SyncToCodex.run_command spawn args operation cwd
           = Raise (SyncExecutionError message) /\
         reports_failure message operation (list2cmdline args) completed) /\
      (returncode completed = 0 ->
       SyncToCodex.run_command spawn args operation cwd
         = Ok (PyStr.strip (stdout completed)))) /\
  (forall (host : SyncRemoteSkills.Host) (w : SyncRemoteSkills.World)
          (name resolved : string) (arguments : list string)
          (operation : string) (cwd : option Path) (completed : CompletedProcess),
      SyncRemoteSkills.find_executable host name w = (Ok (Some resolved), w) ->
      SyncRemoteSkills.spawn host (SyncRemoteSkills.trace w) (resolved :: arguments)
        (as_posix <$> cwd) = Completed completed ->
      let w' :=
        SyncRemoteSkills.mkWorld
          (SyncRemoteSkills.trace w
           ++ [SyncRemoteSkills.mkEvent (name :: arguments) (Completed completed)])
          (SyncRemoteSkills.console w) in
      (returncode completed <> 0 ->
       exists message,
         SyncRemoteSkills.run_command host (name :: arguments) operation cwd w
           = (Raise (SyncExecutionError message), w') /\
         reports_failure message operation (list2cmdline (resolved :: arguments)) completed) /\
      (returncode completed = 0 ->
       SyncRemoteSkills.run_command host (name :: arguments) operation cwd w
         = (Ok (PyStr.strip (stdout completed)), w'))) /\
  (forall captured, PyStr.strip captured = "" -> shown_stream captured = "<empty>").
Proof.
  split; [|split; [|exact shown_stream_empty]].
  - intros spawn args operation cwd completed Hrun. split.
    + intros Hcode. unfold SyncToCodex.run_command. rewrite Hrun.
      apply Z.eqb_neq in Hcode. rewrite Hcode.
      eexists. split; [reflexivity|].
      apply (failure_text_reports operation (list2cmdline args)
               "verify repository state, command availability, and file permissions."
               completed).
    + intros Hcode. unfold SyncToCodex.run_command. rewrite Hrun, Hcode. reflexivity.
  - intros host w name resolved arguments operation cwd completed Hfind Hrun w'.
    split.
    + intros Hcode. apply Z.eqb_neq in Hcode.
      eexists. split.
      * unfold SyncRemoteSkills.run_command, mbind, SyncRemoteSkills.prog_bind.
        simpl hd. rewrite Hfind.
        unfold SyncRemoteSkills.subprocess_run. rewrite Hrun, Hcode. reflexivity.
      * apply (failure_text_reports operation (list2cmdline (resolved :: arguments))
                 "verify network access, repository permissions, and PATH configuration."
                 completed).
    + intros Hcode.
      unfold SyncRemoteSkills.run_command, mbind, SyncRemoteSkills.prog_bind.
      simpl hd. rewrite Hfind.
      unfold SyncRemoteSkills.subprocess_run. rewrite Hrun, Hcode. reflexivity.
Qed.

End CommandClaims.

Section CommandWitness.
Import PyPath PySubprocess.

Lemma run_command_exit_code_contract_witness :
  let completed := mkCompleted 128 "" "fatal: not a git repository" in
  let spawn : list string -> option string -> outcome := fun _ _ => Completed completed in
  let w := SyncRemoteSkills.mkWorld [] [] in
  let host := SyncRemoteSkills.mkHost (fun _ name => Some ("/usr/bin/" +:+ name))
                (fun _ _ _ => Completed completed) false in
  returncode completed <> 0 /\
  (exists message,
      SyncToCodex.run_command spawn ["git"; "ls-files"] "Collect" None
        = Raise (SyncExecutionError message) /\
      reports_failure message "Collect" "git ls-files" completed) /\
  SyncRemoteSkills.find_executable host "git" w = (Ok (Some "/usr/bin/git"), w) /\
  (exists message,
      SyncRemoteSkills.run_command host ["git"; "status"] "Status" None w
        = (Raise (SyncExecutionError message),
           SyncRemoteSkills.mkWorld
             [SyncRemoteSkills.mkEvent ["git"; "status"] (Completed completed)] []) /\
      reports_failure message "Status" "/usr/bin/git status" completed).
Proof.
  intros completed spawn w host.
  assert (Hcode : returncode completed <> 0) by discriminate.
  split; [exact Hcode|]. split; [|split; [reflexivity|]].
  - exact (proj1 (proj1 run_command_exit_code_contract spawn ["git"; "ls-files"]
                    "Collect" None completed eq_refl) Hcode).
  - exact (proj1 (proj1 (proj2 run_command_exit_code_contract) host w "git"
                    "/usr/bin/git" ["status"] "Status" None completed eq_refl eq_refl) Hcode).
Defined.

End CommandWitness.

(** ** Maintaining the companion tool *)

Section MaintenanceFacts.
Import PySubprocess SyncRemoteSkills.

Lemma ran_app (command : list string) (a b : list event) :
  ran command (a ++ b) = ran command a || ran command b.
Proof. apply existsb_app. Qed.

Lemma ran_ok_app (command : list string) (a b : list event) :
  ran_ok command (a ++ b) = ran_ok command a || ran_ok command b.
Proof. apply existsb_app. Qed.

(** [run_command] either raises before launching anything, or launches
    exactly the command it was asked for; it returns only after an exit
    code of zero. *)
Lemma run_command_trace (host : Host) (args : list string) (operation : string)
    (cwd : option PyPath.Path) (w : World) :
  (exists e, run_command host args operation cwd w = (Raise e, w)) \/
  (exists ran_as r,
      run_command host args operation cwd w
        = (r, mkWorld (trace w ++ [mkEvent args ran_as]) (console w)) /\
      (forall s, r = Ok s -> ended_zero ran_as = true)).
Proof.
  unfold run_command, mbind, prog_bind.
  destruct (find_executable_pure host (hd "<missing-command>" args) w) as [found ->].
  destruct found as [resolved|]; [|left; eexists; reflexivity].
  destruct args as [|name arguments]; [left; eexists; reflexivity|].
  right. unfold subprocess_run.
  destruct (spawn host (trace w) (resolved :: arguments) (PyPath.as_posix <$> cwd))
    as [completed|exc] eqn:Hrun.
  - destruct (returncode completed =? 0) eqn:Hcode.
    + eexists _, _. split; [reflexivity|]. intros s _. simpl. exact Hcode.
    + eexists _, _. split; [reflexivity|]. intros s Hs. discriminate.
  - eexists _, _. split; [reflexivity|]. intros s Hs. discriminate.
Qed.

Lemma run_command_extends (host : Host) (args : list string) (operation : string)
    (cwd : option PyPath.Path) (w : World) :
  exists evs,
    extends (run_command host args operation cwd) w evs /\
    (evs = [] \/ exists ran_as, evs = [mkEvent args ran_as]) /\
    (forall s, (run_command host args operation cwd w).1 = Ok s ->
               exists ran_as, evs = [mkEvent args ran_as] /\ ended_zero ran_as = true).
Proof.
  unfold extends.
  destruct (run_command_trace host args operation cwd w) as [[e ->]|(ran_as & r & -> & Hok)].
  - exists []. simpl. rewrite app_nil_r. split; [reflexivity|]. split; [auto|]. discriminate.
  - exists [mkEvent args ran_as]. simpl. split; [reflexivity|]. split; [eauto|].
    intros s Hs. eauto.
Qed.

Lemma read_installed_extends (host : Host) (w : World) :
  exists evs,
    extends (read_installed_agent_browser_version host) w evs /\
    (evs = [] \/ exists ran_as, evs = [mkEvent version_command ran_as]).
Proof.
  unfold extends, read_installed_agent_browser_version, mbind, prog_bind.
  destruct (find_executable_pure host "agent-browser" w) as [found ->].
  destruct found as [resolved|].
  - destruct (run_command_extends host version_command
                "Read installed agent-browser version" None w) as (evs & Hext & Hshape & _).
    unfold extends, version_command in *. exists evs. split; [|exact Hshape].
    destruct (run_command host ["agent-browser"; "--version"]
                "Read installed agent-browser version" None w) as [[output|e] w1];
      simpl in *; [|exact Hext].
    unfold lift. destruct (extract_semver output "agent-browser --version"); exact Hext.
  - exists []. simpl. rewrite app_nil_r. auto.
Qed.

Lemma read_latest_extends (host : Host) (w : World) :
  exists evs,
    extends (read_latest_agent_browser_version host) w evs /\
    (evs = [] \/ exists ran_as, evs = [mkEvent view_command ran_as]).
Proof.
  unfold extends, read_latest_agent_browser_version, mbind, prog_bind.
  destruct (run_command_extends host view_command
              "Read latest agent-browser version from npm" None w) as (evs & Hext & Hshape & _).
  unfold extends, view_command in *. exists evs. split; [|exact Hshape].
  destruct (run_command host ["npm"; "view"; "agent-browser"; "version"]
              "Read latest agent-browser version from npm" None w) as [[output|e] w1];
    simpl in *; [|exact Hext].
  unfold lift. exact Hext.
Qed.

End MaintenanceFacts.

Section MaintenanceClaims.
Import PySubprocess SyncRemoteSkills.

Lemma ran_other (args command : list string) (evs : list event) :
  args <> command ->
  (evs = [] \/ exists ran_as, evs = [mkEvent args ran_as]) ->
  ran command evs = false /\ ran_ok command evs = false.
Proof.
  intros Hne [->|[ran_as ->]]; [split; reflexivity|].
  unfold ran, ran_ok. simpl. rewrite (bool_decide_eq_false_2 _ Hne). split; reflexivity.
Qed.

Lemma ran_same (command : list string) (ran_as : outcome) :
  ran command [mkEvent command ran_as] = true /\
  ran_ok command [mkEvent command ran_as] = ended_zero ran_as.
Proof.
  unfold ran, ran_ok. simpl. rewrite (bool_decide_eq_true_2 _ eq_refl). simpl.
  rewrite orb_false_r. split; reflexivity.
Qed.

Lemma print_trace (line : string) (w : World) :
  print line w = (Ok tt, mkWorld (trace w) (console w ++ [line])).
Proof. reflexivity. Qed.






(** A run that upgrades and completes launches both commands. *)
Lemma upgrade_then_asset_install :
  let run := maintain_agent_browser host_that_upgrades fresh_world in
  run.1 = Ok tt /\
  asked <$> trace run.2
    = [view_command; npm_install_command; version_command; asset_install_command].
Proof. split; reflexivity. Qed.


End MaintenanceClaims.

(** ** Directories and copies *)

Section FsFacts.
Import PyPath Fs.

Lemma proper_prefixes_snoc {A : Type} (l : list A) (x : A) :
  proper_prefixes (l ++ [x]) = proper_prefixes l ++ [l].
Proof.
  induction l as [|y l IH]; [reflexivity|]. simpl. rewrite IH, fmap_app. reflexivity.
Qed.

Lemma proper_prefixes_shorter {A : Type} (l p : list A) :
  p ∈ proper_prefixes l -> (length p < length l)%nat.
Proof.
  revert p. induction l as [|x l IH]; intros p H; simpl in H; [inversion H|].
  apply elem_of_cons in H as [->|H]; [simpl; lia|].
  apply list_elem_of_fmap in H as (q & -> & Hq). apply IH in Hq. simpl. lia.
Qed.

Lemma ancestors_snoc (r : string) (l : list string) (x : string) :
  ancestors (mkPath r (l ++ [x])) = ancestors (mkPath r l) ++ [mkPath r l].
Proof. unfold ancestors. simpl. rewrite proper_prefixes_snoc, fmap_app. reflexivity. Qed.

Lemma not_own_ancestor (p : Path) : p ∉ ancestors p.
Proof.
  unfold ancestors. intros H. apply list_elem_of_fmap in H as (l & Hp & Hl).
  apply proper_prefixes_shorter in Hl. destruct p as [r t]. simpl in *.
  inversion Hp; subst. lia.
Qed.

Lemma stat_lookup (fs : gmap Path node) (p : Path) :
  tail p <> [] -> stat fs p = fs !! p.
Proof. unfold stat. destruct (tail p); [congruence|reflexivity]. Qed.

Lemma stat_none_tail (fs : gmap Path node) (p : Path) :
  stat fs p = None -> tail p <> [] /\ fs !! p = None.
Proof. unfold stat. destruct (tail p); [discriminate|]. intros ->. split; congruence. Qed.

Lemma parent_snoc (r : string) (l : list string) (x : string) :
  parent (mkPath r (l ++ [x])) = mkPath r l.
Proof. unfold parent. simpl. rewrite removelast_last. reflexivity. Qed.

Lemma mkdir_parents_ok (fs : gmap Path node) (r : string) (rev_tail : list string) :
  let self := mkPath r (rev rev_tail) in
  is_file fs self = false ->
  (forall a, a ∈ ancestors self -> is_file fs a = false) ->
  exists fs',
    mkdir_parents fs r rev_tail = inl fs' /\
    is_dir fs' self = true /\
    only_adds_directories fs fs' self.
Proof.
  induction rev_tail as [|x rev_parent IH]; intros self Hself Hanc.
  - exists fs. split; [reflexivity|]. split; [reflexivity|]. intros q. left. reflexivity.
  - subst self. simpl rev in *.
    set (self := mkPath r (rev rev_parent ++ [x])) in *.
    assert (Hparent : parent self = mkPath r (rev rev_parent)) by apply parent_snoc.
    assert (Hanc_eq : ancestors self
                      = ancestors (mkPath r (rev rev_parent)) ++ [mkPath r (rev rev_parent)])
      by apply ancestors_snoc.
    assert (Htail : tail self <> []) by (simpl; destruct (rev rev_parent); discriminate).
    simpl mkdir_parents. fold self. unfold os_mkdir. rewrite Hparent.
    destruct (stat fs self) as [[content|]|] eqn:Hstat.
    + exfalso. unfold is_file in Hself. rewrite Hstat in Hself. discriminate.
    + unfold is_dir. rewrite Hstat. exists fs. split; [reflexivity|].
      split; [rewrite Hstat; reflexivity|]. intros q. left. reflexivity.
    + assert (Hnone : fs !! self = None) by (apply stat_none_tail in Hstat; tauto).
      assert (Hpf : is_file fs (mkPath r (rev rev_parent)) = false).
      { apply Hanc. rewrite Hanc_eq. apply elem_of_app. right. left. }
      destruct (stat fs (mkPath r (rev rev_parent))) as [[content|]|] eqn:Hp.
      * exfalso. unfold is_file in Hpf. rewrite Hp in Hpf. discriminate.
      * exists (<[self := Directory]> fs). split; [reflexivity|]. split.
        -- unfold is_dir. rewrite stat_lookup by exact Htail.
           rewrite lookup_insert_eq. reflexivity.
        -- intros q. destruct (decide (q = self)) as [->|Hne].
           ++ right. rewrite lookup_insert_eq. auto.
           ++ left. rewrite lookup_insert_ne by congruence. reflexivity.
      * destruct (IH Hpf) as (fs1 & Hrec & Hdir & Hadds).
        { intros a Ha. apply Hanc. rewrite Hanc_eq. apply elem_of_app. left. exact Ha. }
        rewrite Hrec. unfold mkdir_exist_ok, os_mkdir. rewrite Hparent.
        assert (Hself1 : fs1 !! self = None).
        { destruct (Hadds self) as [->|(_ & _ & [Heq|Hin])]; [exact Hnone| |].
          - exfalso. assert (Hlen : length (tail self) = length (rev rev_parent))
              by (rewrite Heq; reflexivity).
            simpl in Hlen. rewrite length_app in Hlen. simpl in Hlen. lia.
          - exfalso. apply (not_own_ancestor self). rewrite Hanc_eq.
            apply elem_of_app. left. exact Hin. }
        rewrite stat_lookup by exact Htail. rewrite Hself1.
        unfold is_dir in Hdir.
        destruct (stat fs1 (mkPath r (rev rev_parent))) as [[content|]|]; try discriminate.
        exists (<[self := Directory]> fs1). split; [reflexivity|]. split.
        -- unfold is_dir. rewrite stat_lookup by exact Htail.
           rewrite lookup_insert_eq. reflexivity.
        -- intros q. destruct (decide (q = self)) as [->|Hne].
           ++ right. rewrite lookup_insert_eq. auto.
           ++ rewrite lookup_insert_ne by congruence.
              destruct (Hadds q) as [->|(Hq & -> & Hwhere)]; [left; reflexivity|].
              right. split; [exact Hq|]. split; [reflexivity|]. right.
              rewrite Hanc_eq. apply elem_of_app.
              destruct Hwhere as [->|Hin]; [right; left|left; exact Hin].
Qed.

End FsFacts.

Section CopyFacts.
Import PyPath Fs SyncToCodex.

Lemma mkdir_ok (fs : gmap Path node) (p : Path) :
  is_file fs p = false ->
  (forall a, a ∈ ancestors p -> is_file fs a = false) ->
  exists fs',
    mkdir fs p = inl fs' /\ is_dir fs' p = true /\ only_adds_directories fs fs' p.
Proof.
  intros Hp Hanc. unfold mkdir.
  pose proof (mkdir_parents_ok fs (root p) (rev (tail p))) as H. simpl in H.
  rewrite rev_involutive in H. destruct p as [r t]. simpl in *. apply H; assumption.
Qed.

Lemma copy2_ok (fs : gmap Path node) (src dst : Path) (content : string) :
  src <> dst ->
  stat fs src = Some (File content) ->
  is_dir fs dst = false ->
  is_dir fs (parent dst) = true ->
  copy2 fs src dst = inl (<[dst := File content]> fs).
Proof.
  intros Hne Hsrc Hdst Hparent. unfold copy2. rewrite Hdst. unfold copyfile.
  rewrite (bool_decide_eq_false_2 _ Hne). simpl. rewrite Hsrc.
  unfold is_dir in Hdst, Hparent.
  destruct (stat fs dst) as [[old|]|]; [reflexivity|discriminate|].
  destruct (stat fs (parent dst)) as [[x|]|]; try discriminate. reflexivity.
Qed.

Lemma relative_root (p : Path) : is_absolute p = false -> root p = "".
Proof.
  unfold is_absolute. intros H. apply negb_false_iff in H. apply is_empty_true. exact H.
Qed.

Lemma join_relative (a p : Path) :
  is_absolute p = false -> join a p = mkPath (root a) (tail a ++ tail p).
Proof. intros H. unfold join. rewrite H. reflexivity. Qed.

Lemma join_inj (a p q : Path) :
  is_absolute p = false -> is_absolute q = false -> join a p = join a q -> p = q.
Proof.
  intros Hp Hq H. rewrite !join_relative in H by assumption.
  inversion H as [Htail]. apply app_inv_head in Htail.
  destruct p as [rp tp], q as [rq tq]. simpl in *.
  apply relative_root in Hp, Hq. simpl in *. congruence.
Qed.

Lemma valid_source_parts (fs : gmap Path node) (repo_root p : Path) :
  valid_source fs repo_root p = true <->
  is_absolute p = false /\ (".." ∉ parts p) /\
  exists content, stat fs (join repo_root p) = Some (File content).
Proof.
  unfold valid_source, is_file. rewrite !andb_true_iff, !negb_true_iff. split.
  - intros [[Habs Hdots] Hfile]. split; [exact Habs|].
    split; [apply bool_decide_eq_false_1 in Hdots; exact Hdots|].
    destruct (stat fs (join repo_root p)) as [[content|]|]; try discriminate. eauto.
  - intros (Habs & Hdots & content & ->). repeat split; try assumption.
    apply bool_decide_eq_false_2. exact Hdots.
Qed.

Lemma ancestors_with_parent (p : Path) :
  tail p <> [] -> ancestors p = ancestors (parent p) ++ [parent p].
Proof.
  destruct p as [r t]. simpl. intros Ht.
  destruct (exists_last Ht) as (l & x & ->).
  rewrite parent_snoc. apply ancestors_snoc.
Qed.

Lemma is_file_stat_false (fs : gmap Path node) (p : Path) :
  is_file fs p = false <-> forall content, stat fs p <> Some (File content).
Proof.
  unfold is_file. destruct (stat fs p) as [[c|]|]; split; try congruence; intros H.
  - exfalso. exact (H c eq_refl).
Qed.

End CopyFacts.

(** ** The loop of [sync_files] *)

Section CopyLoop.
Import PyPath Fs SyncToCodex.

Variable fs0 : gmap Path node.
Variables repo_root destination_root : Path.
Variable files : list Path.

Hypothesis sources_valid : forall rp, rp ∈ files -> valid_source fs0 repo_root rp = true.
Hypothesis targets_free :
  forall rp, rp ∈ files -> target_free fs0 (join destination_root rp) = true.
Hypothesis no_target_is_source :
  forall rp rp', rp ∈ files -> rp' ∈ files ->
    join repo_root rp <> join destination_root rp'.
Hypothesis no_target_above_target :
  forall rp rp', rp ∈ files -> rp' ∈ files ->
    join destination_root rp ∉ ancestors (join destination_root rp').


Lemma source_is_file (rp : Path) :
  rp ∈ files ->
  is_absolute rp = false /\
  exists content,
    stat fs0 (join repo_root rp) = Some (File content) /\
    fs0 !! join repo_root rp = Some (File content).
Proof.
  intros Hin. apply sources_valid, valid_source_parts in Hin as (Habs & _ & content & Hstat).
  split; [exact Habs|]. exists content. split; [exact Hstat|].
  unfold stat in Hstat. destruct (tail (join repo_root rp)); [discriminate|exact Hstat].
Qed.

Lemma target_has_tail (rp : Path) :
  rp ∈ files -> tail (join destination_root rp) <> [].
Proof.
  intros Hin Hnil. apply targets_free in Hin. unfold target_free, is_dir, stat in Hin.
  rewrite Hnil in Hin. discriminate.
Qed.

Lemma target_not_dir (rp : Path) :
  rp ∈ files -> fs0 !! join destination_root rp <> Some Directory.
Proof.
  intros Hin Hdir. pose proof (target_has_tail rp Hin) as Htail.
  apply targets_free in Hin. unfold target_free in Hin.
  apply andb_true_iff in Hin as [Hin _]. apply negb_true_iff in Hin.
  unfold is_dir in Hin. rewrite stat_lookup, Hdir in Hin by exact Htail. discriminate.
Qed.

Lemma ancestor_not_file (rp a : Path) (content : string) :
  rp ∈ files -> a ∈ ancestors (join destination_root rp) -> tail a <> [] ->
  fs0 !! a <> Some (File content).
Proof.
  intros Hin Ha Htail Hfile. apply targets_free in Hin. unfold target_free in Hin.
  apply andb_true_iff in Hin as [_ Hin]. rewrite forallb_forall in Hin.
  apply list_elem_of_In, Hin, negb_true_iff in Ha. unfold is_file in Ha.
  rewrite stat_lookup, Hfile in Ha by exact Htail. discriminate.
Qed.

Lemma copied_step (cur : gmap Path node) (done : list Path) (rp : Path) :
  (forall x, x ∈ done -> x ∈ files) -> rp ∈ files ->
  copied_from fs0 repo_root destination_root cur done ->
  exists content cur1,
    validate_relative_file cur repo_root rp "Validate source file before copy" = Ok tt /\
    mkdir cur (parent (join destination_root rp)) = inl cur1 /\
    copy2 cur1 (join repo_root rp) (join destination_root rp)
      = inl (<[join destination_root rp := File content]> cur1) /\
    copied_from fs0 repo_root destination_root
      (<[join destination_root rp := File content]> cur1) (done ++ [rp]).
Proof.
  intros Hdone Hin [I1 I2].
  set (src := join repo_root rp). set (dst := join destination_root rp).
  destruct (source_is_file rp Hin) as (Habs & content & Hstat0 & Hsrc0).
  pose proof (target_has_tail rp Hin) as Htail. fold dst in Htail.
  assert (Hsrc_tail : tail src <> []).
  { intros Hnil. unfold stat in Hstat0. fold src in Hstat0. rewrite Hnil in Hstat0.
    discriminate. }
  assert (Hsrc_not_target : forall l, (forall x, x ∈ l -> x ∈ files) ->
                                      src ∉ targets destination_root l).
  { intros l Hl H. apply list_elem_of_fmap in H as (rp' & Heq & Hrp').
    exact (no_target_is_source rp rp' Hin (Hl _ Hrp') Heq). }
  assert (Hsrc_cur : cur !! src = Some (File content)).
  { destruct (I2 src (Hsrc_not_target done Hdone)) as [->|(Hnone & _)]; [exact Hsrc0|].
    fold src in Hsrc0. congruence. }
  assert (Hanc_cur : forall a, a ∈ ancestors dst -> is_file cur a = false).
  { intros a Ha. apply is_file_stat_false. intros c Hc.
    assert (Ha_tail : tail a <> []).
    { intros Hnil. unfold stat in Hc. rewrite Hnil in Hc. discriminate. }
    rewrite stat_lookup in Hc by exact Ha_tail.
    destruct (decide (a ∈ targets destination_root done)) as [Hin_t|Hnot].
    - apply list_elem_of_fmap in Hin_t as (rp' & -> & Hrp').
      exact (no_target_above_target rp' rp (Hdone _ Hrp') Hin Ha).
    - destruct (I2 a Hnot) as [Heq|(_ & Hdir & _)]; [|congruence].
      rewrite Heq in Hc. exact (ancestor_not_file rp a c Hin Ha Ha_tail Hc). }
  assert (Hanc_dst : ancestors dst = ancestors (parent dst) ++ [parent dst])
    by (apply ancestors_with_parent; exact Htail).
  destruct (mkdir_ok cur (parent dst)) as (cur1 & Hmk & Hdir1 & Hadds).
  { apply Hanc_cur. rewrite Hanc_dst. apply elem_of_app. right. left. }
  { intros a Ha. apply Hanc_cur. rewrite Hanc_dst. apply elem_of_app. left. exact Ha. }
  assert (Hadds_dst : forall q, cur1 !! q = cur !! q \/
            (cur !! q = None /\ cur1 !! q = Some Directory /\ q ∈ ancestors dst)).
  { intros q. destruct (Hadds q) as [H|(Hn & Hd & Hw)]; [left; exact H|right].
    split; [exact Hn|]. split; [exact Hd|]. rewrite Hanc_dst. apply elem_of_app.
    destruct Hw as [->|Hw]; [right; left|left; exact Hw]. }
  assert (Hsrc1 : cur1 !! src = Some (File content)).
  { destruct (Hadds_dst src) as [->|(Hn & _)]; [exact Hsrc_cur|congruence]. }
  assert (Hdst1 : cur1 !! dst = cur !! dst).
  { destruct (Hadds_dst dst) as [H|(_ & _ & Hw)]; [exact H|].
    exfalso. exact (not_own_ancestor dst Hw). }
  assert (Hdst_not_dir : cur !! dst <> Some Directory).
  { intros Hdir. destruct (decide (dst ∈ targets destination_root done)) as [Hin_t|Hnot].
    - apply list_elem_of_fmap in Hin_t as (rp' & Heq & Hrp').
      rewrite Heq, (I1 rp' Hrp') in Hdir.
      destruct (source_is_file rp' (Hdone _ Hrp')) as (_ & c & _ & Hc). congruence.
    - destruct (I2 dst Hnot) as [Heq|(_ & _ & rp' & Hrp' & Hw)].
      + rewrite Heq in Hdir. exact (target_not_dir rp Hin Hdir).
      + exact (no_target_above_target rp rp' Hin (Hdone _ Hrp') Hw). }
  exists content, cur1. split; [|split; [exact Hmk|split]].
  - apply validate_ok_iff, valid_source_parts.
    apply sources_valid, valid_source_parts in Hin as Hv. destruct Hv as (_ & Hdots & _).
    split; [exact Habs|]. split; [exact Hdots|]. exists content.
    fold src. rewrite stat_lookup by exact Hsrc_tail. exact Hsrc_cur.
  - apply copy2_ok.
    + exact (no_target_is_source rp rp Hin Hin).
    + fold src. rewrite stat_lookup by exact Hsrc_tail. exact Hsrc1.
    + unfold is_dir. fold dst. rewrite stat_lookup, Hdst1 by exact Htail.
      destruct (cur !! dst) as [[c|]|]; [reflexivity|congruence|reflexivity].
    + exact Hdir1.
  - fold dst. split.
    + intros rp0 Hrp0. destruct (decide (join destination_root rp0 = dst)) as [Heq|Hne].
      * rewrite Heq, lookup_insert_eq.
        assert (Hrp0_files : rp0 ∈ files).
        { apply elem_of_app in Hrp0 as [H|H]; [exact (Hdone _ H)|].
          apply list_elem_of_singleton in H. subst rp0. exact Hin. }
        destruct (source_is_file rp0 Hrp0_files) as (Habs0 & _).
        apply (join_inj destination_root rp0 rp Habs0 Habs) in Heq. subst rp0.
        symmetry. exact Hsrc0.
      * rewrite lookup_insert_ne by congruence.
        apply elem_of_app in Hrp0 as [Hrp0|Hrp0].
        -- destruct (Hadds_dst (join destination_root rp0)) as [->|(Hn & _)];
             [exact (I1 rp0 Hrp0)|].
           rewrite (I1 rp0 Hrp0) in Hn.
           destruct (source_is_file rp0 (Hdone _ Hrp0)) as (_ & c & _ & Hc). congruence.
        -- apply list_elem_of_singleton in Hrp0. subst rp0. exfalso. apply Hne. reflexivity.
    + intros q Hq. unfold targets in Hq. rewrite fmap_app in Hq.
      apply not_elem_of_app in Hq as [Hq_done Hq_rp].
      assert (Hq_ne : q <> dst).
      { intros ->. apply Hq_rp. simpl. left. }
      rewrite lookup_insert_ne by congruence.
      destruct (Hadds_dst q) as [->|(Hn & Hd & Hw)].
      * destruct (I2 q Hq_done) as [H|(Hn & Hd & rp' & Hrp' & Hw)]; [left; exact H|].
        right. split; [exact Hn|]. split; [exact Hd|]. exists rp'. split; [|exact Hw].
        apply elem_of_app. left. exact Hrp'.
      * right. split.
        -- destruct (I2 q Hq_done) as [H|(_ & Hd' & _)]; [congruence|congruence].
        -- split; [exact Hd|]. exists rp. split; [|exact Hw].
           apply elem_of_app. right. left.
Qed.


Lemma copied_initially : copied_from fs0 repo_root destination_root fs0 [].
Proof.
  split; [intros rp H; inversion H|]. intros q _. left. reflexivity.
Qed.

End CopyLoop.

Section CopyClaims.
Import PyPath Fs SyncToCodex.




End CopyClaims.

(** * Further properties *)

(** ** Version texts and their values *)

Section VersionValues.
Import PyRe SyncRemoteSkills.

Lemma decimal_char_cases (c : ascii) :
  PyStr.is_decimal c = true ->
  PyStr.isdigit_char c = true /\ c <> "."%char /\ 0 <= PyStr.digit_value c <= 9.
Proof.
  destruct c as [[] [] [] [] [] [] [] []]; vm_compute; intros H;
    try discriminate; repeat split; congruence.
Qed.

Lemma run_all_decimal (d : string) :
  is_run d = true -> d <> "" /\ PyStr.all_chars PyStr.is_decimal d = true.
Proof.
  unfold is_run. intros H. apply andb_true_iff in H as [Hne Hall].
  split; [|exact Hall]. intros ->. discriminate.
Qed.

Lemma run_no_dot (d : string) : is_run d = true -> PyStr.contains_char "." d = false.
Proof.
  intros H. apply run_all_decimal in H as [_ H].
  induction d as [|c d IH]; [reflexivity|]. simpl in *.
  apply andb_true_iff in H as [Hc Hd]. rewrite (IH Hd), orb_false_r.
  apply Ascii.eqb_neq. apply decimal_char_cases, Hc.
Qed.

Lemma run_isdigit (d : string) : is_run d = true -> PyStr.isdigit d = true.
Proof.
  intros H. pose proof (run_all_decimal d H) as [_ Hall].
  unfold is_run in H. apply andb_true_iff in H as [Hne _].
  unfold PyStr.isdigit. rewrite Hne. simpl.
  revert Hall. apply all_chars_impl. intros c Hc. apply decimal_char_cases, Hc.
Qed.

Lemma int_digits_value (s : string) :
  forall acc,
    PyStr.all_chars PyStr.is_decimal s = true ->
    PyStr.int_digits acc true s
      = Some (acc * 10 ^ Z.of_nat (String.length s) + decimal_value s).
Proof.
  induction s as [|c s IH]; intros acc H.
  - simpl. f_equal. lia.
  - simpl in H. apply andb_true_iff in H as [Hc Hs].
    cbn [PyStr.int_digits]. rewrite Hc, (IH _ Hs). f_equal.
    cbn [decimal_value String.length]. rewrite Nat2Z.inj_succ, Z.pow_succ_r by lia. ring.
Qed.


(** [int] reads a run of decimal digits as the number it writes. *)
Lemma int_of_run (d : string) : is_run d = true -> PyStr.int d = Ok (decimal_value d).
Proof.
  intros H. pose proof (run_isdigit d H) as Hdigit.
  destruct (run_all_decimal d H) as [Hne Hall].
  unfold PyStr.isdigit in Hdigit. apply andb_true_iff in Hdigit as [_ Hchars].
  unfold PyStr.int. rewrite (strip_digits d Hchars).
  destruct d as [|c d]; [congruence|].
  simpl in Hall. apply andb_true_iff in Hall as [Hc Hd].
  assert (Hbody : PyStr.int_digits 0 false (String c d) = Some (decimal_value (String c d))).
  { cbn [PyStr.int_digits]. rewrite Hc, (int_digits_value d _ Hd). reflexivity. }
  assert (Hsign : c <> "-"%char /\ c <> "+"%char).
  { destruct (decimal_char_cases c Hc) as (Hdc & _).
    destruct (isdigit_char_cases c Hdc) as (_ & _ & Hm & Hp). split; assumption. }
  destruct Hsign as [Hm Hp].
  destruct c as [[] [] [] [] [] [] [] []]; try congruence; rewrite Hbody; reflexivity.
Qed.

Lemma split_dotted (d1 d2 d3 : string) :
  is_run d1 = true -> is_run d2 = true -> is_run d3 = true ->
  PyStr.split "." (d1 +:+ "." +:+ d2 +:+ "." +:+ d3) = [d1; d2; d3].
Proof.
  intros H1 H2 H3. rewrite !str_app_cons, !str_app_nil_l.
  rewrite split_app_sep by (apply run_no_dot; exact H1).
  rewrite split_app_sep by (apply run_no_dot; exact H2).
  rewrite split_no_sep by (apply run_no_dot; exact H3). reflexivity.
Qed.

Lemma parse_semver_runs (d1 d2 d3 : string) :
  is_run d1 = true -> is_run d2 = true -> is_run d3 = true ->
  parse_semver (d1 +:+ "." +:+ d2 +:+ "." +:+ d3)
    = Ok (decimal_value d1, decimal_value d2, decimal_value d3).
Proof.
  intros H1 H2 H3. unfold parse_semver.
  rewrite (split_dotted d1 d2 d3 H1 H2 H3). simpl.
  rewrite (run_isdigit d1 H1), (run_isdigit d2 H2), (run_isdigit d3 H3). simpl.
  rewrite (int_of_run d1 H1), (int_of_run d2 H2), (int_of_run d3 H3). reflexivity.
Qed.





(** X3. Of two versions that parse, exactly one of three holds: the first
    wants an upgrade to the second, the second wants an upgrade to the
    first, or they parse to the same triple and neither wants one. *)
Theorem upgrade_need_is_one_sided
    (first second : string) (first_triple second_triple : Z * Z * Z) :
  parse_semver first = Ok first_triple ->
  parse_semver second = Ok second_triple ->
  (should_upgrade_agent_browser (Some first) second = Ok true /\
   should_upgrade_agent_browser (Some second) first = Ok false /\
   first_triple <> second_triple) \/
  (should_upgrade_agent_browser (Some first) second = Ok false /\
   should_upgrade_agent_browser (Some second) first = Ok true /\
   first_triple <> second_triple) \/
  (should_upgrade_agent_browser (Some first) second = Ok false /\
   should_upgrade_agent_browser (Some second) first = Ok false /\
   first_triple = second_triple).
Proof.
  intros Hfirst Hsecond. simpl. rewrite Hfirst, Hsecond. simpl.
  destruct first_triple as [[a0 a1] a2], second_triple as [[b0 b1] b2].
  unfold tuple_lt.
  destruct (Z.eqb_spec a0 b0), (Z.eqb_spec b0 a0), (Z.eqb_spec a1 b1), (Z.eqb_spec b1 a1);
    simpl; try lia;
    repeat match goal with
           | |- context [?x <? ?y] => destruct (Z.ltb_spec x y)
           end;
    try lia;
    first [ left; repeat split; try reflexivity; intros Heq; inversion Heq; lia
          | right; left; repeat split; try reflexivity; intros Heq; inversion Heq; lia
          | right; right; repeat split; try reflexivity; f_equal; try f_equal; lia ].
Qed.

Lemma upgrade_need_is_one_sided_witness :
  parse_semver "0.14.00" = Ok (0, 14, 0) /\
  parse_semver "0.14.0" = Ok (0, 14, 0) /\
  should_upgrade_agent_browser (Some "0.14.00") "0.14.0" = Ok false /\
  should_upgrade_agent_browser (Some "0.14.0") "0.14.00" = Ok false.
Proof.
  split; [reflexivity|]. split; [reflexivity|].
  destruct (upgrade_need_is_one_sided "0.14.00" "0.14.0" (0, 14, 0) (0, 14, 0)
              eq_refl eq_refl) as [(_ & _ & H)|[(_ & _ & H)|(H1 & H2 & _)]].
  - exfalso. apply H. reflexivity.
  - exfalso. apply H. reflexivity.
  - split; assumption.
Defined.

End VersionValues.

(** ** Looking commands up and launching them *)

Section LaunchFacts.
Import PyPath PySubprocess.



(** X5. The [run_command] of the remote script launches nothing that the
    lookup did not find: when the command is not found it raises the
    structured error naming the operation and the command, and the trace
    is as it was.  When it is found and the launch fails, the structured
    error is raised and the failed launch is on the trace.  With a command
    to run, nothing but the structured error is ever raised. *)
Theorem remote_run_command_needs_resolved_command
    (host : SyncRemoteSkills.Host) (w : SyncRemoteSkills.World)
    (args : list string) (operation : string) (cwd : option Path) :
  (SyncRemoteSkills.find_executable host (hd "<missing-command>" args) w = (Ok None, w) ->
   exists message,
     SyncRemoteSkills.run_command host args operation cwd w
       = (Raise (SyncExecutionError message), w) /\
     embeds operation message /\
     embeds ("Command not found: " +:+ hd "<missing-command>" args) message) /\
  (forall name arguments resolved exc,
      args = name :: arguments ->
      SyncRemoteSkills.find_executable host name w = (Ok (Some resolved), w) ->
      SyncRemoteSkills.spawn host (SyncRemoteSkills.trace w) (resolved :: arguments)
        (as_posix <$> cwd) = LaunchFailed exc ->
      exists message,
        SyncRemoteSkills.run_command host args operation cwd w
          = (Raise (SyncExecutionError message),
             SyncRemoteSkills.mkWorld
               (SyncRemoteSkills.trace w
                ++ [SyncRemoteSkills.mkEvent args (LaunchFailed exc)])
               (SyncRemoteSkills.console w)) /\
        embeds ("System error: " +:+ exc) message) /\
  (args <> [] ->
   (exists output, (SyncRemoteSkills.run_command host args operation cwd w).1 = Ok output) \/
   is_sync_error (SyncRemoteSkills.run_command host args operation cwd w).1).
Proof.
  split; [|split].
  - intros Hfind. unfold SyncRemoteSkills.run_command, mbind, SyncRemoteSkills.prog_bind.
    rewrite Hfind. eexists. split; [reflexivity|]. split.
    + exists "". eexists. rewrite str_app_nil_l. reflexivity.
    + exists (operation +:+ " failed. "). eexists. rewrite !str_app_assoc. reflexivity.
  - intros name arguments resolved exc -> Hfind Hrun.
    unfold SyncRemoteSkills.run_command, mbind, SyncRemoteSkills.prog_bind.
    simpl hd. rewrite Hfind. unfold SyncRemoteSkills.subprocess_run. rewrite Hrun.
    eexists. split; [reflexivity|].
    exists (operation +:+ " failed while launching command: " +:+ name +:+ ". "). eexists.
    rewrite !str_app_assoc. reflexivity.
  - intros Hargs. destruct args as [|name arguments]; [congruence|].
    unfold SyncRemoteSkills.run_command, mbind, SyncRemoteSkills.prog_bind. simpl hd.
    destruct (find_executable_pure host name w) as [r ->].
    destruct r as [resolved|]; [|right; eexists; reflexivity].
    unfold SyncRemoteSkills.subprocess_run.
    destruct (SyncRemoteSkills.spawn host (SyncRemoteSkills.trace w) (resolved :: arguments)
                (as_posix <$> cwd)) as [completed|exc].
    + destruct (returncode completed =? 0); [left; eexists; reflexivity|].
      right. eexists. reflexivity.
    + right. eexists. reflexivity.
Qed.

Lemma remote_run_command_needs_resolved_command_witness :
  SyncRemoteSkills.find_executable host_without_bin_on_path "agent-browser" fresh_world
    = (Ok None, fresh_world) /\
  (exists message,
      SyncRemoteSkills.run_command host_without_bin_on_path ["agent-browser"; "install"]
        "Install Chromium via agent-browser" None fresh_world
        = (Raise (SyncExecutionError message), fresh_world) /\
      embeds "Install Chromium via agent-browser" message /\
      embeds "Command not found: agent-browser" message) /\
  SyncRemoteSkills.find_executable windows_host "npm" fresh_world
    = (Ok (Some "C:/nodejs/npm.cmd"), fresh_world) /\
  (exists message,
      SyncRemoteSkills.run_command windows_host ["npm"; "view"] "Read" None fresh_world
        = (Raise (SyncExecutionError message),
           SyncRemoteSkills.mkWorld
             [SyncRemoteSkills.mkEvent ["npm"; "view"]
                (LaunchFailed "[WinError 193] %1 is not a valid Win32 application")] []) /\
      embeds "System error: [WinError 193] %1 is not a valid Win32 application" message) /\
  ["npm"; "view"] <> [] /\
  ((exists output,
       (SyncRemoteSkills.run_command windows_host ["npm"; "view"] "Read" None fresh_world).1
       = Ok output) \/
   is_sync_error
     (SyncRemoteSkills.run_command windows_host ["npm"; "view"] "Read" None fresh_world).1).
Proof.
  split; [reflexivity|]. split.
  - exact (proj1 (remote_run_command_needs_resolved_command host_without_bin_on_path
                    fresh_world ["agent-browser"; "install"]
                    "Install Chromium via agent-browser" None) eq_refl).
  - split; [reflexivity|]. split.
    + exact (proj1 (proj2 (remote_run_command_needs_resolved_command windows_host
                             fresh_world ["npm"; "view"] "Read" None))
               "npm" ["view"] "C:/nodejs/npm.cmd"
               "[WinError 193] %1 is not a valid Win32 application"
               eq_refl eq_refl eq_refl).
    + assert (Hargs : ["npm"; "view"] <> []) by discriminate.
      split; [exact Hargs|].
      exact (proj2 (proj2 (remote_run_command_needs_resolved_command windows_host
                             fresh_world ["npm"; "view"] "Read" None)) Hargs).
Defined.

(** X6. [find_executable] changes nothing and raises nothing.  A name with
    an extension is looked up as it is.  A name without one is looked up as
    it is on other platforms; on Windows the name with [.cmd] is tried
    first, then the name with [.exe], then the bare name, and the first
    answer that is not empty is taken. *)
Theorem find_executable_prefers_windows_shims
    (host : SyncRemoteSkills.Host) (w : SyncRemoteSkills.World) (command_name : string) :
  let which := SyncRemoteSkills.which host (SyncRemoteSkills.trace w) in
  (suffix (parse command_name) <> "" ->
   SyncRemoteSkills.find_executable host command_name w = (Ok (which command_name), w)) /\
  (suffix (parse command_name) = "" ->
   SyncRemoteSkills.platform_is_win host = false ->
   SyncRemoteSkills.find_executable host command_name w
     = (Ok (found (which command_name)), w)) /\
  (suffix (parse command_name) = "" ->
   SyncRemoteSkills.platform_is_win host = true ->
   SyncRemoteSkills.find_executable host command_name w
     = (Ok (or_else (found (which (command_name +:+ ".cmd")))
              (or_else (found (which (command_name +:+ ".exe")))
                 (found (which command_name)))), w)).
Proof.
  intros which. unfold SyncRemoteSkills.find_executable. split; [|split].
  - intros Hsuffix.
    destruct (PyStr.is_empty (suffix (parse command_name))) eqn:E; [|reflexivity].
    apply is_empty_true in E. contradiction.
  - intros -> ->. change (negb (PyStr.is_empty "")) with false. cbv beta iota.
    unfold SyncRemoteSkills.first_resolved, mbind, SyncRemoteSkills.prog_bind,
      SyncRemoteSkills.which_now, mret, SyncRemoteSkills.prog_ret, found.
    subst which.
    destruct (SyncRemoteSkills.which host (SyncRemoteSkills.trace w) command_name)
      as [r|] eqn:E; [destruct (PyStr.is_empty r) eqn:I|];
      repeat (cbv beta iota; rewrite ?E, ?I); reflexivity.
  - intros -> ->. change (negb (PyStr.is_empty "")) with false. cbv beta iota.
    unfold SyncRemoteSkills.first_resolved, mbind, SyncRemoteSkills.prog_bind,
      SyncRemoteSkills.which_now, mret, SyncRemoteSkills.prog_ret, found, or_else.
    subst which.
    destruct (SyncRemoteSkills.which host (SyncRemoteSkills.trace w)
                (command_name +:+ ".cmd")) as [r1|] eqn:E1;
      [destruct (PyStr.is_empty r1) eqn:I1|];
      (destruct (SyncRemoteSkills.which host (SyncRemoteSkills.trace w)
                   (command_name +:+ ".exe")) as [r2|] eqn:E2;
       [destruct (PyStr.is_empty r2) eqn:I2|]);
      (destruct (SyncRemoteSkills.which host (SyncRemoteSkills.trace w) command_name)
         as [r3|] eqn:E3; [destruct (PyStr.is_empty r3) eqn:I3|]);
      repeat (cbv beta iota; rewrite ?E1, ?E2, ?E3, ?I1, ?I2, ?I3); reflexivity.
Qed.

Lemma find_executable_prefers_windows_shims_witness :
  suffix (parse "npm") = "" /\
  SyncRemoteSkills.platform_is_win windows_host = true /\
  SyncRemoteSkills.find_executable windows_host "npm" fresh_world
    = (Ok (Some "C:/nodejs/npm.cmd"), fresh_world) /\
  suffix (parse "git.exe") <> "" /\
  SyncRemoteSkills.find_executable windows_host "git.exe" fresh_world
    = (Ok (Some "C:/git/git.exe"), fresh_world) /\
  SyncRemoteSkills.platform_is_win host_up_to_date = false /\
  SyncRemoteSkills.find_executable host_up_to_date "npm" fresh_world
    = (Ok (Some "/usr/bin/npm"), fresh_world).
Proof.
  split; [reflexivity|]. split; [reflexivity|]. split.
  - exact (proj2 (proj2 (find_executable_prefers_windows_shims windows_host fresh_world
                           "npm")) eq_refl eq_refl).
  - assert (Hsuffix : suffix (parse "git.exe") <> "") by discriminate.
    split; [exact Hsuffix|]. split.
    + exact (proj1 (find_executable_prefers_windows_shims windows_host fresh_world
                      "git.exe") Hsuffix).
    + split; [reflexivity|].
      exact (proj1 (proj2 (find_executable_prefers_windows_shims host_up_to_date
                             fresh_world "npm")) eq_refl eq_refl).
Defined.

End LaunchFacts.

(** ** More on validation and collection *)

Section CollectMore.
Import PyPath Fs PySubprocess SyncToCodex.

(** X7. [validate_relative_file] accepts a path exactly when it is
    relative, has no parent-traversal component and names a regular file
    under the repository root.  Otherwise it raises the structured error,
    and the message tells which check failed and names the path: the unsafe
    relative path, the missing source, or the source that is not a file. *)
Theorem validate_relative_file_decides
    (fs : gmap Path node) (repo_root relative_path : Path) (operation : string) :
  let source := join repo_root relative_path in
  let unsafe := is_absolute relative_path || bool_decide (".." ∈ parts relative_path) in
  let outcome := validate_relative_file fs repo_root relative_path operation in
  (outcome = Ok tt <-> unsafe = false /\ is_file fs source = true) /\
  (unsafe = true ->
   exists message,
     outcome = Raise (SyncExecutionError message) /\
     embeds ("Invalid relative path: " +:+ as_posix relative_path) message) /\
  (unsafe = false -> exists_ fs source = false ->
   exists message,
     outcome = Raise (SyncExecutionError message) /\
     embeds ("Source file is missing: " +:+ as_posix source) message) /\
  (unsafe = false -> exists_ fs source = true -> is_file fs source = false ->
   exists message,
     outcome = Raise (SyncExecutionError message) /\
     embeds ("Source path is not a file: " +:+ as_posix source) message).
Proof.
  intros source unsafe outcome. subst outcome. unfold validate_relative_file.
  fold unsafe. fold source. split; [|split; [|split]].
  - destruct unsafe; [split; [discriminate|intros [H _]; discriminate]|].
    unfold exists_, is_file. destruct (stat fs source) as [[content|]|]; simpl;
      split; try discriminate; try tauto; intros [_ H]; discriminate.
  - intros ->. eexists. split; [reflexivity|].
    exists (operation +:+ " failed. "). eexists. rewrite !str_app_assoc. reflexivity.
  - intros -> ->. eexists. split; [reflexivity|].
    exists (operation +:+ " failed. "). eexists. rewrite !str_app_assoc. reflexivity.
  - intros -> -> ->. eexists. split; [reflexivity|].
    exists (operation +:+ " failed. "). eexists. rewrite !str_app_assoc. reflexivity.
Qed.

Lemma validate_relative_file_decides_witness :
  let fs : gmap Path node :=
    <[parse "/repo/agents" := Directory]> (<[parse "/repo/config.toml" := File "x"]> ∅) in
  (exists message,
      validate_relative_file fs (parse "/repo") (parse "/etc/passwd") "Validate"
        = Raise (SyncExecutionError message) /\
      embeds "Invalid relative path: /etc/passwd" message) /\
  (exists message,
      validate_relative_file fs (parse "/repo") (parse "notify.ps1") "Validate"
        = Raise (SyncExecutionError message) /\
      embeds "Source file is missing: /repo/notify.ps1" message) /\
  (exists message,
      validate_relative_file fs (parse "/repo") (parse "agents") "Validate"
        = Raise (SyncExecutionError message) /\
      embeds "Source path is not a file: /repo/agents" message) /\
  validate_relative_file fs (parse "/repo") (parse "config.toml") "Validate" = Ok tt.
Proof.
  intros fs. split; [|split; [|split]].
  - exact (proj1 (proj2 (validate_relative_file_decides fs (parse "/repo")
                           (parse "/etc/passwd") "Validate")) eq_refl).
  - exact (proj1 (proj2 (proj2 (validate_relative_file_decides fs (parse "/repo")
                                  (parse "notify.ps1") "Validate"))) eq_refl eq_refl).
  - exact (proj2 (proj2 (proj2 (validate_relative_file_decides fs (parse "/repo")
                                  (parse "agents") "Validate"))) eq_refl eq_refl eq_refl).
  - exact (proj2 (proj1 (validate_relative_file_decides fs (parse "/repo")
                           (parse "config.toml") "Validate")) (conj eq_refl eq_refl)).
Defined.

Lemma tracked_loop_fails (fs : gmap Path node) (repo_root : Path) (lines : list string) :
  forall tracked,
    forallb (valid_source fs repo_root)
      (parse <$> filter (fun text => PyStr.is_empty text = false) (PyStr.strip <$> lines))
      = false ->
    is_sync_error (tracked_loop fs repo_root lines tracked).
Proof.
  induction lines as [|line lines IH]; intros tracked H; [discriminate|].
  rewrite fmap_cons in H. simpl.
  destruct (PyStr.is_empty (PyStr.strip line)) eqn:E.
  - rewrite filter_cons_False in H by congruence. apply IH. exact H.
  - rewrite filter_cons_True in H by assumption. rewrite fmap_cons in H. simpl in H.
    destruct (valid_source fs repo_root (parse (PyStr.strip line))) eqn:Hp.
    + apply (validate_ok_iff fs repo_root _ "Validate git-tracked file entry") in Hp.
      rewrite Hp. simpl. apply IH. exact H.
    + destruct (validate_fails fs repo_root _ "Validate git-tracked file entry" Hp)
        as [m ->].
      exists m. reflexivity.
Qed.

Lemma collect_after_allowlist
    (spawn : list string -> option string -> outcome)
    (fs : gmap Path node) (repo_root : Path) :
  forallb (valid_source fs repo_root) SYNC_FILE_TARGETS = true ->
  collect_sync_files spawn fs repo_root
    = (tracked ← collect_tracked_directory_files spawn fs repo_root SYNC_DIR_TARGETS;
       Ok (sorted_set (SYNC_FILE_TARGETS ++ tracked))).
Proof.
  intros H. unfold collect_sync_files.
  rewrite (allowlist_loop_ok fs repo_root SYNC_FILE_TARGETS [] H). reflexivity.
Qed.

Lemma collect_tracked_unfold
    (spawn : list string -> option string -> outcome)
    (fs : gmap Path node) (repo_root : Path) :
  collect_tracked_directory_files spawn fs repo_root SYNC_DIR_TARGETS
    = (output ← run_command spawn (ls_files_command repo_root)
                  "Collect git-tracked files for sync directories" None;
       tracked_paths ← tracked_loop fs repo_root (PyStr.splitlines output) [];
       Ok (sorted_set tracked_paths)).
Proof. reflexivity. Qed.

(** X8. With the allowlist in order, collection still fails with the
    structured error when git fails, and the message reports the git
    command, its exit code and its streams; it also fails when git names a
    file that is not a valid source, such as a tracked file that was
    deleted from the working tree. *)
Theorem collect_surfaces_git_errors
    (spawn : list string -> option string -> outcome)
    (fs : gmap Path node) (repo_root : Path) (completed : CompletedProcess) :
  forallb (valid_source fs repo_root) SYNC_FILE_TARGETS = true ->
  spawn (ls_files_command repo_root) None = Completed completed ->
  (returncode completed <> 0 ->
   exists message,
     collect_sync_files spawn fs repo_root = Raise (SyncExecutionError message) /\
     reports_failure message "Collect git-tracked files for sync directories"
       (list2cmdline (ls_files_command repo_root)) completed) /\
  (returncode completed = 0 ->
   forallb (valid_source fs repo_root) (tracked_entries (stdout completed)) = false ->
   is_sync_error (collect_sync_files spawn fs repo_root)).
Proof.
  intros Hallow Hrun. rewrite (collect_after_allowlist spawn fs repo_root Hallow).
  rewrite collect_tracked_unfold. unfold run_command. simpl fmap. rewrite Hrun. split.
  - intros Hcode. apply Z.eqb_neq in Hcode. rewrite Hcode.
    eexists. split; [reflexivity|].
    apply (failure_text_reports "Collect git-tracked files for sync directories"
             (list2cmdline (ls_files_command repo_root))
             "verify repository state, command availability, and file permissions."
             completed).
  - intros Hcode Hbad. rewrite Hcode. simpl.
    destruct (tracked_loop_fails fs repo_root _ [] Hbad) as [m Hm].
    unfold tracked_entries in Hbad. rewrite Hm. exists m. reflexivity.
Qed.

Lemma collect_surfaces_git_errors_witness :
  let fs : gmap Path node :=
    <[parse "/repo/config.toml" := File "model"]>
      (<[parse "/repo/AGENTS.md" := File "agents"]>
         (<[parse "/repo/notify.ps1" := File "notify"]> ∅)) in
  let failed := mkCompleted 128 "" "fatal: not a git repository" in
  let stale := mkCompleted 0 "agents/deleted.toml" "" in
  (exists message,
      collect_sync_files (fun _ _ => Completed failed) fs (parse "/repo")
        = Raise (SyncExecutionError message) /\
      reports_failure message "Collect git-tracked files for sync directories"
        "git -C /repo ls-files -- agents skills" failed) /\
  is_sync_error (collect_sync_files (fun _ _ => Completed stale) fs (parse "/repo")).
Proof.
  intros fs failed stale. split.
  - assert (Hcode : returncode failed <> 0) by discriminate.
    exact (proj1 (collect_surfaces_git_errors (fun _ _ => Completed failed) fs
                    (parse "/repo") failed eq_refl eq_refl) Hcode).
  - exact (proj2 (collect_surfaces_git_errors (fun _ _ => Completed stale) fs
                    (parse "/repo") stale eq_refl eq_refl) eq_refl eq_refl).
Defined.

Lemma collect_ok_inv
    (spawn : list string -> option string -> outcome)
    (fs : gmap Path node) (repo_root : Path) (files : list Path) :
  collect_sync_files spawn fs repo_root = Ok files ->
  (forall p, p ∈ files ->
     validate_relative_file fs repo_root p "Validate source file before copy" = Ok tt) /\
  (forall p, p ∈ SYNC_FILE_TARGETS -> p ∈ files) /\
  exists completed,
    spawn (ls_files_command repo_root) None = Completed completed /\
    returncode completed = 0.
Proof.
  intros H.
  destruct (forallb (valid_source fs repo_root) SYNC_FILE_TARGETS) eqn:Hallow.
  2:{ destruct (collect_fails_on_allowlist spawn fs repo_root Hallow) as [m Hm].
      congruence. }
  rewrite (collect_after_allowlist spawn fs repo_root Hallow) in H.
  rewrite collect_tracked_unfold in H. unfold run_command in H. simpl fmap in H.
  destruct (spawn (ls_files_command repo_root) None) as [completed|exc] eqn:Hrun;
    [|discriminate].
  destruct (returncode completed =? 0) eqn:Hcode; [|discriminate].
  apply Z.eqb_eq in Hcode. unfold mbind at 1 2 in H. unfold result_bind at 1 2 in H.
  destruct (forallb (valid_source fs repo_root) (tracked_entries (stdout completed)))
    eqn:Htracked.
  2:{ destruct (tracked_loop_fails fs repo_root _ [] Htracked) as [m Hm].
      rewrite Hm in H. discriminate. }
  rewrite (tracked_loop_ok fs repo_root _ [] Htracked) in H.
  unfold mbind, result_bind in H. rewrite app_nil_l in H. injection H as <-.
  fold (tracked_entries (stdout completed)).
  rewrite forallb_forall in Hallow, Htracked.
  split; [|split].
  - intros p Hp. apply validate_ok_iff.
    apply (proj1 (sorted_set_elem _ _)) in Hp.
    change (p ∈ SYNC_FILE_TARGETS ++ sorted_set (tracked_entries (stdout completed))) in Hp.
    apply elem_of_app in Hp as [Hp|Hp].
    + apply Hallow, list_elem_of_In, Hp.
    + apply (proj1 (sorted_set_elem _ _)) in Hp. apply Htracked, list_elem_of_In, Hp.
  - intros p Hp. apply sorted_set_elem.
    change (p ∈ SYNC_FILE_TARGETS ++ sorted_set (tracked_entries (stdout completed))).
    apply elem_of_app. left. exact Hp.
  - exists completed. split; [reflexivity|exact Hcode].
Qed.

(** X9. Every path that [collect_sync_files] returns is a valid source on
    the file system it was collected from, every allowlisted file is among
    them, and git ended with exit code zero: a returned list is ready for
    the validation that [sync_files] runs before each copy. *)
Theorem collected_files_are_valid_sources
    (spawn : list string -> option string -> outcome)
    (fs : gmap Path node) (repo_root : Path) (files : list Path) :
  collect_sync_files spawn fs repo_root = Ok files ->
  (forall p, p ∈ files ->
     validate_relative_file fs repo_root p "Validate source file before copy" = Ok tt) /\
  (forall p, p ∈ SYNC_FILE_TARGETS -> p ∈ files) /\
  exists completed,
    spawn (ls_files_command repo_root) None = Completed completed /\
    returncode completed = 0.
Proof. exact (collect_ok_inv spawn fs repo_root files). Qed.

Lemma collected_files_are_valid_sources_witness :
  let spawn : list string -> option string -> outcome :=
    fun _ _ => Completed (mkCompleted 0 "agents/explorer.toml" "") in
  let fs : gmap Path node :=
    <[parse "/repo/config.toml" := File "model"]>
      (<[parse "/repo/AGENTS.md" := File "agents"]>
         (<[parse "/repo/notify.ps1" := File "notify"]>
            (<[parse "/repo/agents/explorer.toml" := File "explorer"]> ∅))) in
  let files :=
    [parse "AGENTS.md"; parse "agents/explorer.toml"; parse "config.toml";
     parse "notify.ps1"] in
  collect_sync_files spawn fs (parse "/repo") = Ok files /\
  (forall p, p ∈ files ->
     validate_relative_file fs (parse "/repo") p "Validate source file before copy" = Ok tt).
Proof.
  intros spawn fs files.
  assert (H : collect_sync_files spawn fs (parse "/repo") = Ok files)
    by (vm_compute; reflexivity).
  split; [exact H|].
  exact (proj1 (collected_files_are_valid_sources spawn fs (parse "/repo") files H)).
Defined.

(** X10. When git names no file (its output is empty or blank), the
    collected list is the allowlist alone, in the order of the texts by
    code point, capitals first: [AGENTS.md], [config.toml], [notify.ps1]. *)
Theorem collect_without_tracked_files
    (spawn : list string -> option string -> outcome)
    (fs : gmap Path node) (repo_root : Path) (completed : CompletedProcess) :
  forallb (valid_source fs repo_root) SYNC_FILE_TARGETS = true ->
  spawn (ls_files_command repo_root) None = Completed completed ->
  returncode completed = 0 ->
  tracked_entries (stdout completed) = [] ->
  collect_sync_files spawn fs repo_root
    = Ok [parse "AGENTS.md"; parse "config.toml"; parse "notify.ps1"].
Proof.
  intros Hallow Hrun Hcode Hnone.
  rewrite (collect_after_allowlist spawn fs repo_root Hallow), collect_tracked_unfold.
  rewrite (local_run_command_ok spawn _ _ completed Hrun Hcode). simpl.
  assert (Hvalid : forallb (valid_source fs repo_root) (tracked_entries (stdout completed))
                   = true) by (rewrite Hnone; reflexivity).
  rewrite (tracked_loop_ok fs repo_root _ [] Hvalid). simpl.
  change (parse <$> filter (fun text => PyStr.is_empty text = false)
            (PyStr.strip <$> PyStr.splitlines (PyStr.strip (stdout completed))))
    with (tracked_entries (stdout completed)).
  rewrite Hnone. vm_compute. reflexivity.
Qed.

Lemma collect_without_tracked_files_witness :
  let completed := mkCompleted 0 (String "010" (String " " (String "010" ""))) "" in
  let spawn : list string -> option string -> outcome := fun _ _ => Completed completed in
  let fs : gmap Path node :=
    <[parse "/repo/config.toml" := File "model"]>
      (<[parse "/repo/AGENTS.md" := File "agents"]>
         (<[parse "/repo/notify.ps1" := File "notify"]> ∅)) in
  tracked_entries (stdout completed) = [] /\
  collect_sync_files spawn fs (parse "/repo")
    = Ok [parse "AGENTS.md"; parse "config.toml"; parse "notify.ps1"].
Proof.
  intros completed spawn fs. split; [reflexivity|].
  exact (collect_without_tracked_files spawn fs (parse "/repo") completed
           eq_refl eq_refl eq_refl eq_refl).
Defined.

End CollectMore.

(** ** More on copying *)

Section CopyMore.
Import PyPath Fs PySubprocess SyncToCodex.

Lemma sync_files_loop_app (repo_root destination_root : Path) (first second : list Path) :
  forall fs copied_files,
    sync_files_loop fs repo_root destination_root (first ++ second) copied_files
    = match sync_files_loop fs repo_root destination_root first copied_files with
      | (Ok copied, fs1) => sync_files_loop fs1 repo_root destination_root second copied
      | (Raise e, fs1) => (Raise e, fs1)
      end.
Proof.
  induction first as [|rp first IH]; intros fs n; [reflexivity|].
  cbn [app sync_files_loop].
  destruct (validate_relative_file fs repo_root rp "Validate source file before copy");
    [|reflexivity].
  destruct (mkdir fs (parent (join destination_root rp))) as [fs1|e]; [|reflexivity].
  destruct (copy2 fs1 (join repo_root rp) (join destination_root rp)) as [fs2|e];
    [|reflexivity].
  apply IH.
Qed.

(** X11. [sync_files] stops at the first file that fails validation: it
    raises the structured error there, the files before it stay copied and
    the files after it are not touched.  The destination is then the one
    that copying the files before it alone would leave. *)
Theorem sync_files_stops_at_first_invalid
    (fs fs1 : gmap Path node) (repo_root destination_root : Path)
    (before after : list Path) (bad : Path) (copied : Z) :
  sync_files fs repo_root destination_root before = (Ok copied, fs1) ->
  valid_source fs1 repo_root bad = false ->
  exists message,
    sync_files fs repo_root destination_root (before ++ bad :: after)
      = (Raise (SyncExecutionError message), fs1).
Proof.
  unfold sync_files. intros Hbefore Hbad.
  rewrite sync_files_loop_app, Hbefore. cbn [sync_files_loop].
  destruct (validate_fails fs1 repo_root bad "Validate source file before copy" Hbad)
    as [message ->].
  exists message. reflexivity.
Qed.

Lemma sync_files_stops_at_first_invalid_witness :
  let run_before :=
    sync_files fs_of_the_test (parse "/repo") (parse "/home/.codex") [parse "config.toml"] in
  let run :=
    sync_files fs_of_the_test (parse "/repo") (parse "/home/.codex")
      [parse "config.toml"; parse "missing.toml"; parse "agents/explorer.toml"] in
  run_before.1 = Ok 1 /\
  valid_source run_before.2 (parse "/repo") (parse "missing.toml") = false /\
  (exists message, run = (Raise (SyncExecutionError message), run_before.2)) /\
  run_before.2 !! parse "/home/.codex/config.toml" = Some (File "new config") /\
  run_before.2 !! parse "/home/.codex/agents/explorer.toml" = None.
Proof.
  intros run_before run.
  split; [vm_compute; reflexivity|]. split; [vm_compute; reflexivity|]. split.
  - exact (sync_files_stops_at_first_invalid fs_of_the_test run_before.2 (parse "/repo")
             (parse "/home/.codex") [parse "config.toml"] [parse "agents/explorer.toml"]
             (parse "missing.toml") 1 eq_refl eq_refl).
  - split; vm_compute; reflexivity.
Defined.

Lemma mkdir_file_in_the_way (fs : gmap Path node) (p : Path) :
  is_file fs p = true -> mkdir fs p = inr FileExistsError.
Proof.
  intros H. unfold mkdir.
  assert (Hself : mkPath (root p) (rev (rev (tail p))) = p)
    by (rewrite rev_involutive; destruct p; reflexivity).
  unfold is_file in H. destruct (stat fs p) as [[content|]|] eqn:Hstat; try discriminate.
  assert (Hdir : is_dir fs p = false) by (unfold is_dir; rewrite Hstat; reflexivity).
  destruct (rev (tail p)) as [|x rev_parent]; cbn [mkdir_parents]; rewrite Hself;
    unfold os_mkdir; rewrite Hstat, Hdir; reflexivity.
Qed.

(** X12. A regular file at the place of the directory that a copy needs is
    not reported with the structured error: [sync_files] raises the
    [FileExistsError] of [mkdir], and nothing is written. *)
Theorem sync_files_file_in_the_way
    (fs : gmap Path node) (repo_root destination_root relative_path : Path)
    (rest : list Path) :
  valid_source fs repo_root relative_path = true ->
  is_file fs (parent (join destination_root relative_path)) = true ->
  sync_files fs repo_root destination_root (relative_path :: rest)
    = (Raise (OSError FileExistsError), fs).
Proof.
  intros Hvalid Hfile. unfold sync_files. cbn [sync_files_loop].
  apply (validate_ok_iff fs repo_root _ "Validate source file before copy") in Hvalid.
  rewrite Hvalid, (mkdir_file_in_the_way fs _ Hfile). reflexivity.
Qed.

Lemma sync_files_file_in_the_way_witness :
  let fs : gmap Path node :=
    <[parse "/repo/agents/explorer.toml" := File "explorer"]>
      (<[parse "/home/.codex/agents" := File "a file named agents"]> ∅) in
  valid_source fs (parse "/repo") (parse "agents/explorer.toml") = true /\
  is_file fs (parent (join (parse "/home/.codex") (parse "agents/explorer.toml"))) = true /\
  sync_files fs (parse "/repo") (parse "/home/.codex") [parse "agents/explorer.toml"]
    = (Raise (OSError FileExistsError), fs).
Proof.
  intros fs. split; [reflexivity|]. split; [reflexivity|].
  exact (sync_files_file_in_the_way fs (parse "/repo") (parse "/home/.codex")
           (parse "agents/explorer.toml") [] eq_refl eq_refl).
Defined.

End CopyMore.

(** ** Copying twice *)

Section MkdirSuccess.
Import PyPath Fs.

Lemma only_adds_refl (fs : gmap Path node) (p : Path) : only_adds_directories fs fs p.
Proof. intros q. left. reflexivity. Qed.

Lemma os_mkdir_inl (fs fs' : gmap Path node) (p : Path) :
  os_mkdir fs p = inl fs' ->
  fs !! p = None /\ tail p <> [] /\ fs' = <[p := Directory]> fs.
Proof.
  unfold os_mkdir. destruct (stat fs p) as [x|] eqn:Hstat; [discriminate|].
  apply stat_none_tail in Hstat as [Htail Hnone].
  destruct (stat fs (parent p)) as [[c|]|]; try discriminate.
  intros H. inversion H. auto.
Qed.

Lemma os_mkdir_not_found (fs : gmap Path node) (p : Path) :
  os_mkdir fs p = inr FileNotFoundError -> fs !! p = None /\ tail p <> [].
Proof.
  unfold os_mkdir. destruct (stat fs p) as [x|] eqn:Hstat; [discriminate|].
  apply stat_none_tail in Hstat as [Htail Hnone]. auto.
Qed.

Lemma insert_directory_adds (fs : gmap Path node) (p : Path) :
  fs !! p = None -> tail p <> [] ->
  is_dir (<[p := Directory]> fs) p = true /\
  only_adds_directories fs (<[p := Directory]> fs) p.
Proof.
  intros Hnone Htail. split.
  - unfold is_dir. rewrite stat_lookup, lookup_insert_eq by exact Htail. reflexivity.
  - intros q. destruct (decide (q = p)) as [->|Hne].
    + right. rewrite lookup_insert_eq. auto.
    + left. rewrite lookup_insert_ne by congruence. reflexivity.
Qed.

(** Whenever [mkdir] succeeds, the directory is there, nothing that
    existed has changed, and what is new is a directory on the way. *)
Lemma mkdir_parents_inl (r : string) (rev_tail : list string) :
  forall fs fs',
    mkdir_parents fs r rev_tail = inl fs' ->
    is_dir fs' (mkPath r (rev rev_tail)) = true /\
    only_adds_directories fs fs' (mkPath r (rev rev_tail)).
Proof.
  induction rev_tail as [|x rev_parent IH]; intros fs fs' H.
  - cbn [mkdir_parents] in H. split; [reflexivity|].
    unfold os_mkdir in H. simpl in H. inversion H. apply only_adds_refl.
  - cbn [mkdir_parents] in H. simpl rev in *.
    set (self := mkPath r (rev rev_parent ++ [x])) in *.
    assert (Hanc_eq : ancestors self
                      = ancestors (mkPath r (rev rev_parent)) ++ [mkPath r (rev rev_parent)])
      by apply ancestors_snoc.
    destruct (os_mkdir fs self) as [fs1|e] eqn:Hos.
    + inversion H; subst fs1. apply os_mkdir_inl in Hos as (Hnone & Htail & ->).
      apply insert_directory_adds; assumption.
    + assert (Hkeep : is_dir fs self = true ->
                      (inl fs : gmap Path node + os_error) = inl fs' ->
                      is_dir fs' self = true /\ only_adds_directories fs fs' self).
      { intros Hd Heq. inversion Heq; subst fs'. split; [exact Hd|apply only_adds_refl]. }
      destruct e;
        lazymatch type of H with
        | (if _ then _ else _) = _ =>
            destruct (is_dir fs self) eqn:Hd;
            [apply Hkeep; [reflexivity|exact H]|discriminate]
        | _ => idtac
        end.
      apply os_mkdir_not_found in Hos as [Hnone Htail].
      destruct (mkdir_parents fs r rev_parent) as [fs1|e] eqn:Hrec; [|discriminate].
      destruct (IH fs fs1 Hrec) as [Hdir1 Hadds1].
      assert (Hadds1' : only_adds_directories fs fs1 self).
      { intros q. destruct (Hadds1 q) as [Hq|(Hn & Hd & Hw)]; [left; exact Hq|right].
        split; [exact Hn|]. split; [exact Hd|]. right. rewrite Hanc_eq.
        apply elem_of_app. destruct Hw as [->|Hw]; [right; left|left; exact Hw]. }
      unfold mkdir_exist_ok in H.
      destruct (os_mkdir fs1 self) as [fs2|e] eqn:Hos1.
      * inversion H; subst fs2. apply os_mkdir_inl in Hos1 as (Hnone1 & _ & ->).
        destruct (insert_directory_adds fs1 self Hnone1 Htail) as [Hd2 Hadds2].
        split; [exact Hd2|]. intros q.
        destruct (Hadds2 q) as [Hq|(Hn & Hd & Hw)].
        -- rewrite Hq. apply Hadds1'.
        -- destruct Hw as [->|Hw].
           ++ right. split; [exact Hnone|]. split; [exact Hd|]. left. reflexivity.
           ++ right. split; [|split; [exact Hd|right; exact Hw]].
              destruct (Hadds1' q) as [Hq|(Hn' & Hd' & _)]; congruence.
      * destruct e; try discriminate;
          (destruct (is_dir fs1 self) eqn:Hd; [|discriminate]);
          inversion H; subst fs'; split; assumption.
Qed.

Lemma mkdir_inl (fs fs' : gmap Path node) (p : Path) :
  mkdir fs p = inl fs' -> is_dir fs' p = true /\ only_adds_directories fs fs' p.
Proof.
  unfold mkdir. intros H. apply mkdir_parents_inl in H.
  rewrite rev_involutive in H. destruct p as [r t]. exact H.
Qed.

Lemma mkdir_existing (fs : gmap Path node) (p : Path) :
  is_dir fs p = true -> mkdir fs p = inl fs.
Proof.
  intros H. unfold mkdir.
  assert (Hself : mkPath (root p) (rev (rev (tail p))) = p)
    by (rewrite rev_involutive; destruct p; reflexivity).
  assert (Hstat : stat fs p = Some Directory).
  { unfold is_dir in H. destruct (stat fs p) as [[c|]|]; try discriminate. reflexivity. }
  destruct (rev (tail p)) as [|x rev_parent]; cbn [mkdir_parents]; rewrite Hself;
    unfold os_mkdir; rewrite Hstat; try rewrite H; reflexivity.
Qed.

End MkdirSuccess.

Section CopyTwice.
Import PyPath Fs SyncToCodex.

Variable fs0 : gmap Path node.
Variables repo_root destination_root : Path.
Variable files : list Path.

Hypothesis sources_valid : forall rp, rp ∈ files -> valid_source fs0 repo_root rp = true.
Hypothesis targets_free :
  forall rp, rp ∈ files -> target_free fs0 (join destination_root rp) = true.
Hypothesis no_target_is_source :
  forall rp rp', rp ∈ files -> rp' ∈ files ->
    join repo_root rp <> join destination_root rp'.
Hypothesis no_target_above_target :
  forall rp rp', rp ∈ files -> rp' ∈ files ->
    join destination_root rp ∉ ancestors (join destination_root rp').

Lemma parent_is_ancestor (rp : Path) :
  rp ∈ files ->
  parent (join destination_root rp) ∈ ancestors (join destination_root rp).
Proof.
  intros Hin. rewrite ancestors_with_parent.
  - apply elem_of_app. right. left.
  - exact (target_has_tail fs0 destination_root files targets_free rp Hin).
Qed.

Lemma parent_dir_kept (cur cur1 : gmap Path node) (rp rp0 : Path) (content : string) :
  rp ∈ files -> rp0 ∈ files ->
  only_adds_directories cur cur1 (parent (join destination_root rp)) ->
  is_dir cur (parent (join destination_root rp0)) = true \/
  is_dir cur1 (parent (join destination_root rp0)) = true ->
  is_dir (<[join destination_root rp := File content]> cur1)
    (parent (join destination_root rp0)) = true.
Proof.
  intros Hrp Hrp0 Hadds Hdir.
  set (P0 := parent (join destination_root rp0)) in *.
  assert (Hne : join destination_root rp <> P0).
  { intros Heq. apply (no_target_above_target rp rp0 Hrp Hrp0).
    rewrite Heq. apply parent_is_ancestor. exact Hrp0. }
  unfold is_dir, stat in *. destruct (tail P0) eqn:Htail; [reflexivity|].
  rewrite lookup_insert_ne by exact Hne.
  destruct Hdir as [Hdir|Hdir]; [|exact Hdir].
  destruct (Hadds P0) as [->|(Hnone & _)]; [exact Hdir|].
  rewrite Hnone in Hdir. discriminate.
Qed.

Lemma sync_files_loop_settles (rest : list Path) :
  forall cur done copied_files,
    (forall x, x ∈ done -> x ∈ files) ->
    (forall x, x ∈ rest -> x ∈ files) ->
    copied_from fs0 repo_root destination_root cur done ->
    (forall rp, rp ∈ done -> is_dir cur (parent (join destination_root rp)) = true) ->
    exists fs',
      sync_files_loop cur repo_root destination_root rest copied_files
        = (Ok (copied_files + Z.of_nat (length rest)), fs') /\
      copied_from fs0 repo_root destination_root fs' (done ++ rest) /\
      (forall rp, rp ∈ done ++ rest ->
         is_dir fs' (parent (join destination_root rp)) = true).
Proof.
  induction rest as [|rp rest IH]; intros cur done n Hdone Hrest Hinv Hdirs.
  - exists cur. simpl. rewrite Z.add_0_r, app_nil_r. auto.
  - assert (Hrp : rp ∈ files) by (apply Hrest; left).
    destruct (copied_step fs0 repo_root destination_root files sources_valid targets_free
                no_target_is_source no_target_above_target cur done rp Hdone Hrp Hinv)
      as (content & cur1 & Hval & Hmk & Hcp & Hinv').
    destruct (mkdir_inl cur cur1 _ Hmk) as [Hdir1 Hadds].
    destruct (IH (<[join destination_root rp := File content]> cur1) (done ++ [rp]) (n + 1))
      as (fs' & Hloop & Hfinal & Hdirs').
    + intros x Hx. apply elem_of_app in Hx as [Hx|Hx]; [exact (Hdone _ Hx)|].
      apply list_elem_of_singleton in Hx. subst x. exact Hrp.
    + intros x Hx. apply Hrest. right. exact Hx.
    + exact Hinv'.
    + intros rp0 Hrp0. apply elem_of_app in Hrp0 as [Hrp0|Hrp0].
      * apply (parent_dir_kept cur cur1); [exact Hrp|exact (Hdone _ Hrp0)|exact Hadds|].
        left. exact (Hdirs _ Hrp0).
      * apply list_elem_of_singleton in Hrp0. subst rp0.
        apply (parent_dir_kept cur cur1); [exact Hrp|exact Hrp|exact Hadds|].
        right. exact Hdir1.
    + exists fs'. rewrite <- app_assoc in Hfinal, Hdirs'. split; [|split; assumption].
      cbn [sync_files_loop]. rewrite Hval, Hmk, Hcp, Hloop. f_equal. f_equal.
      simpl length. lia.
Qed.

End CopyTwice.

Section CopyTwiceFacts.
Import PyPath Fs PySubprocess SyncToCodex.

Lemma apart_spec (repo_root destination_root : Path) (files : list Path) :
  targets_apart repo_root destination_root files = true ->
  forall rp rp', rp ∈ files -> rp' ∈ files ->
    join repo_root rp <> join destination_root rp' /\
    join destination_root rp ∉ ancestors (join destination_root rp').
Proof.
  intros Hapart rp rp' Hrp Hrp'. unfold targets_apart in Hapart.
  rewrite forallb_forall in Hapart.
  apply list_elem_of_In, Hapart in Hrp. rewrite forallb_forall in Hrp.
  apply list_elem_of_In, Hrp, andb_true_iff in Hrp' as [H1 H2].
  apply negb_true_iff in H1, H2.
  split; [apply bool_decide_eq_false_1 in H1|apply bool_decide_eq_false_1 in H2];
    assumption.
Qed.

(** A run on a destination with room leaves every file copied and every
    parent directory in place. *)
Lemma sync_files_settles
    (fs : gmap Path node) (repo_root destination_root : Path) (files : list Path) :
  (forall rp, rp ∈ files -> valid_source fs repo_root rp = true) ->
  (forall rp, rp ∈ files -> target_free fs (join destination_root rp) = true) ->
  targets_apart repo_root destination_root files = true ->
  exists fs',
    sync_files fs repo_root destination_root files = (Ok (Z.of_nat (length files)), fs') /\
    copied_from fs repo_root destination_root fs' files /\
    (forall rp, rp ∈ files -> is_dir fs' (parent (join destination_root rp)) = true).
Proof.
  intros Hv Hf Hapart. pose proof (apart_spec _ _ _ Hapart) as Ha.
  destruct (sync_files_loop_settles fs repo_root destination_root files Hv Hf
              (fun a b Ha' Hb' => proj1 (Ha a b Ha' Hb'))
              (fun a b Ha' Hb' => proj2 (Ha a b Ha' Hb'))
              files fs [] 0) as (fs' & Hrun & Hcopied & Hdirs).
  - intros x Hx. inversion Hx.
  - auto.
  - apply copied_initially.
  - intros rp Hrp. inversion Hrp.
  - exists fs'. simpl in Hrun, Hcopied, Hdirs. auto.
Qed.

Lemma stat_file_lookup (fs : gmap Path node) (p : Path) (content : string) :
  stat fs p = Some (File content) <-> tail p <> [] /\ fs !! p = Some (File content).
Proof.
  unfold stat. destruct (tail p); split.
  - discriminate.
  - intros [H _]. congruence.
  - intros H. split; [discriminate|exact H].
  - intros [_ H]. exact H.
Qed.

(** Copying onto a destination that already holds the copies changes
    nothing. *)
Lemma resync_noop (cur : gmap Path node) (repo_root destination_root : Path)
    (l : list Path) :
  (forall rp, rp ∈ l ->
     valid_source cur repo_root rp = true /\
     join repo_root rp <> join destination_root rp /\
     stat cur (join destination_root rp) = stat cur (join repo_root rp) /\
     is_dir cur (parent (join destination_root rp)) = true) ->
  forall copied_files,
    sync_files_loop cur repo_root destination_root l copied_files
      = (Ok (copied_files + Z.of_nat (length l)), cur).
Proof.
  induction l as [|rp l IH]; intros H n.
  - simpl. rewrite Z.add_0_r. reflexivity.
  - destruct (H rp) as (Hvalid & Hne & Hsame & Hparent); [left|].
    cbn [sync_files_loop].
    pose proof Hvalid as Hfile. apply valid_source_parts in Hfile as (_ & _ & content & Hsrc).
    apply (validate_ok_iff cur repo_root rp "Validate source file before copy") in Hvalid.
    rewrite Hvalid, (mkdir_existing cur _ Hparent).
    rewrite Hsrc in Hsame.
    rewrite (copy2_ok cur _ _ content Hne Hsrc); [| |exact Hparent].
    + apply stat_file_lookup in Hsame as [_ Hlookup].
      rewrite (insert_id cur _ _ Hlookup), IH.
      * f_equal. f_equal. simpl length. lia.
      * intros rp' Hrp'. apply H. right. exact Hrp'.
    + unfold is_dir. rewrite Hsame. reflexivity.
Qed.

End CopyTwiceFacts.

Section WorkflowClaims.
Import PyPath Fs PySubprocess SyncToCodex.

Lemma forallb_elem {A : Type} (f : A -> bool) (l : list A) :
  forallb f l = true -> forall x, x ∈ l -> f x = true.
Proof. intros H x Hx. rewrite forallb_forall in H. apply H, list_elem_of_In, Hx. Qed.

(** X13. Running [sync_files] a second time changes nothing: on a
    destination with room for the copies, the first run returns the number
    of files, and a second run on the file system that the first one left
    returns the same number and leaves that file system as it is. *)
Theorem sync_files_twice_is_once
    (fs : gmap Path node) (repo_root destination_root : Path) (files : list Path) :
  forallb (valid_source fs repo_root) files = true ->
  forallb (fun rp => target_free fs (join destination_root rp)) files = true ->
  targets_apart repo_root destination_root files = true ->
  exists fs',
    sync_files fs repo_root destination_root files = (Ok (Z.of_nat (length files)), fs') /\
    sync_files fs' repo_root destination_root files = (Ok (Z.of_nat (length files)), fs').
Proof.
  intros Hvalid Hfree Hapart.
  pose proof (forallb_elem _ _ Hvalid) as Hv.
  pose proof (forallb_elem _ _ Hfree) as Hf.
  pose proof (apart_spec _ _ _ Hapart) as Ha.
  destruct (sync_files_settles fs repo_root destination_root files Hv Hf Hapart)
    as (fs' & Hrun & [Hdone Hframe] & Hdirs).
  exists fs'. split; [exact Hrun|].
  unfold sync_files. rewrite resync_noop; [reflexivity|].
  intros rp Hrp.
  destruct (source_is_file fs repo_root files Hv rp Hrp) as (Habs & content & Hstat & Hsrc).
  pose proof (target_has_tail fs destination_root files Hf rp Hrp) as Htail.
  assert (Hsrc' : fs' !! join repo_root rp = Some (File content)).
  { destruct (Hframe (join repo_root rp)) as [->|(Hnone & _)]; [|exact Hsrc|congruence].
    intros Hin. apply list_elem_of_fmap in Hin as (rp' & Heq & Hrp').
    exact (proj1 (Ha rp rp' Hrp Hrp') Heq). }
  assert (Hstat' : stat fs' (join repo_root rp) = Some (File content)).
  { apply stat_file_lookup. apply stat_file_lookup in Hstat as [Ht _]. auto. }
  split; [|split; [exact (proj1 (Ha rp rp Hrp Hrp))|split; [|exact (Hdirs rp Hrp)]]].
  - apply valid_source_parts. apply Hv, valid_source_parts in Hrp as (_ & Hdots & _).
    split; [exact Habs|]. split; [exact Hdots|]. eauto.
  - rewrite Hstat'. apply stat_file_lookup. split; [exact Htail|].
    rewrite (Hdone rp Hrp). exact Hsrc.
Qed.

Lemma sync_files_twice_is_once_witness :
  let files := [parse "config.toml"; parse "agents/explorer.toml"] in
  exists fs',
    sync_files fs_of_the_test (parse "/repo") (parse "/home/.codex") files
      = (Ok (Z.of_nat (length files)), fs') /\
    sync_files fs' (parse "/repo") (parse "/home/.codex") files
      = (Ok (Z.of_nat (length files)), fs').
Proof.
  intros files.
  exact (sync_files_twice_is_once fs_of_the_test (parse "/repo") (parse "/home/.codex")
           files eq_refl eq_refl eq_refl).
Defined.

(** X14. The local workflow from end to end: when collection returns a
    list and the destination has room for it, [execute_workflow] returns
    0; afterwards every collected file, the allowlisted ones among them, is
    in the destination with the content of its source, and every entry of
    the file system at another path is as it was. *)
Theorem execute_workflow_copies_collected
    (spawn : list string -> option string -> outcome)
    (fs : gmap Path node) (repo_root destination_root : Path) (files : list Path) :
  collect_sync_files spawn fs repo_root = Ok files ->
  forallb (fun rp => target_free fs (join destination_root rp)) files = true ->
  targets_apart repo_root destination_root files = true ->
  exists fs',
    execute_workflow spawn fs repo_root destination_root = (Ok 0, fs') /\
    (forall p, p ∈ SYNC_FILE_TARGETS -> p ∈ files) /\
    (forall p, p ∈ files ->
       exists content,
         fs !! join repo_root p = Some (File content) /\
         fs' !! join destination_root p = Some (File content)) /\
    (forall q x, q ∉ targets destination_root files ->
       fs !! q = Some x -> fs' !! q = Some x).
Proof.
  intros Hcollect Hfree Hapart.
  destruct (collect_ok_inv spawn fs repo_root files Hcollect) as (Hvalid & Hallow & _).
  assert (Hv : forall rp, rp ∈ files -> valid_source fs repo_root rp = true).
  { intros rp Hrp. eapply validate_ok_iff. exact (Hvalid rp Hrp). }
  pose proof (forallb_elem _ _ Hfree) as Hf.
  destruct (sync_files_settles fs repo_root destination_root files Hv Hf Hapart)
    as (fs' & Hrun & [Hdone Hframe] & _).
  exists fs'. split; [|split; [exact Hallow|split]].
  - unfold execute_workflow. rewrite Hcollect, Hrun. reflexivity.
  - intros p Hp.
    destruct (source_is_file fs repo_root files Hv p Hp) as (_ & content & _ & Hc).
    exists content. split; [exact Hc|]. rewrite (Hdone p Hp). exact Hc.
  - intros q x Hq Hx. destruct (Hframe q Hq) as [->|(Hn & _)]; [exact Hx|congruence].
Qed.

Lemma execute_workflow_copies_collected_witness :
  let spawn : list string -> option string -> outcome :=
    fun _ _ => Completed (mkCompleted 0 "agents/explorer.toml" "") in
  let fs : gmap Path node :=
    <[parse "/repo/config.toml" := File "model"]>
      (<[parse "/repo/AGENTS.md" := File "agents"]>
         (<[parse "/repo/notify.ps1" := File "notify"]>
            (<[parse "/repo/agents/explorer.toml" := File "explorer"]>
               (<[parse "/home/.codex/unrelated.txt" := File "keep me"]> ∅)))) in
  let files :=
    [parse "AGENTS.md"; parse "agents/explorer.toml"; parse "config.toml";
     parse "notify.ps1"] in
  collect_sync_files spawn fs (parse "/repo") = Ok files /\
  exists fs',
    execute_workflow spawn fs (parse "/repo") (parse "/home/.codex") = (Ok 0, fs') /\
    (forall p, p ∈ SYNC_FILE_TARGETS -> p ∈ files) /\
    (forall p, p ∈ files ->
       exists content,
         fs !! join (parse "/repo") p = Some (File content) /\
         fs' !! join (parse "/home/.codex") p = Some (File content)) /\
    (forall q x, q ∉ targets (parse "/home/.codex") files ->
       fs !! q = Some x -> fs' !! q = Some x).
Proof.
  intros spawn fs files.
  assert (H : collect_sync_files spawn fs (parse "/repo") = Ok files)
    by (vm_compute; reflexivity).
  split; [exact H|].
  exact (execute_workflow_copies_collected spawn fs (parse "/repo") (parse "/home/.codex")
           files H eq_refl eq_refl).
Defined.

(** X15. The exit code of [main]: the structured error of a missing
    allowlisted file becomes exit code 1 with the file system as it was,
    and a workflow that returns gives exit code 0; but a regular file at
    the place of a directory that the first copy needs is not turned into
    an exit code: the [FileExistsError] leaves [main] as an exception. *)
Theorem main_exit_codes
    (spawn : list string -> option string -> outcome)
    (fs : gmap Path node) (script_file home repo_root : Path) :
  second_parent script_file = Ok repo_root ->
  (forallb (valid_source fs repo_root) SYNC_FILE_TARGETS = false ->
   main spawn fs script_file home = (Ok 1, fs)) /\
  (forall fs',
      execute_workflow spawn fs repo_root (DEFAULT_DESTINATION home) = (Ok 0, fs') ->
      main spawn fs script_file home = (Ok 0, fs')) /\
  (forall first rest,
      collect_sync_files spawn fs repo_root = Ok (first :: rest) ->
      is_file fs (parent (join (DEFAULT_DESTINATION home) first)) = true ->
      main spawn fs script_file home = (Raise (OSError FileExistsError), fs)).
Proof.
  intros Hroot. unfold main. rewrite Hroot. split; [|split].
  - intros Hallow.
    destruct (collect_fails_on_allowlist spawn fs repo_root Hallow) as [m Hm].
    unfold execute_workflow. rewrite Hm. reflexivity.
  - intros fs' ->. reflexivity.
  - intros first rest Hcollect Hfile.
    destruct (collect_ok_inv spawn fs repo_root _ Hcollect) as (Hvalid & _ & _).
    unfold execute_workflow, sync_files. rewrite Hcollect. cbn [sync_files_loop].
    rewrite (Hvalid first ltac:(left)), (mkdir_file_in_the_way fs _ Hfile). reflexivity.
Qed.

Lemma main_exit_codes_witness :
  let spawn : list string -> option string -> outcome :=
    fun _ _ => Completed (mkCompleted 0 "" "") in
  let script_file := parse "/repo/scripts/sync_to_codex.py" in
  let complete : gmap Path node :=
    <[parse "/repo/config.toml" := File "model"]>
      (<[parse "/repo/AGENTS.md" := File "agents"]>
         (<[parse "/repo/notify.ps1" := File "notify"]> ∅)) in
  let blocked : gmap Path node := <[parse "/home/u/.codex" := File "not a directory"]> complete in
  second_parent script_file = Ok (parse "/repo") /\
  main spawn (∅ : gmap Path node) script_file (parse "/home/u") = (Ok 1, ∅) /\
  (exists fs', main spawn complete script_file (parse "/home/u") = (Ok 0, fs')) /\
  main spawn blocked script_file (parse "/home/u")
    = (Raise (OSError FileExistsError), blocked).
Proof.
  intros spawn script_file complete blocked.
  split; [reflexivity|]. split; [|split].
  - exact (proj1 (main_exit_codes spawn ∅ script_file (parse "/home/u") (parse "/repo")
                    eq_refl) eq_refl).
  - destruct (execute_workflow spawn complete (parse "/repo")
                (DEFAULT_DESTINATION (parse "/home/u"))) as [r fs'] eqn:E.
    assert (Hr : r = Ok 0).
    { change r with (r, fs').1. rewrite <- E. vm_compute. reflexivity. }
    subst r. exists fs'.
    exact (proj1 (proj2 (main_exit_codes spawn complete script_file (parse "/home/u")
                           (parse "/repo") eq_refl)) fs' E).
  - exact (proj2 (proj2 (main_exit_codes spawn blocked script_file (parse "/home/u")
                           (parse "/repo") eq_refl))
             (parse "AGENTS.md") [parse "config.toml"; parse "notify.ps1"]
             ltac:(vm_compute; reflexivity) eq_refl).
Defined.

End WorkflowClaims.

(** ** More on the companion tool *)

Section MaintenanceMore.
Import PySubprocess SyncRemoteSkills.



Lemma at_most_once_asked (command : list string) (evs : list event) :
  at_most_once command evs -> asked <$> evs `sublist_of` [command].
Proof.
  intros [->|[ran_as ->]]; [apply sublist_nil_l|reflexivity].
Qed.

Lemma at_most_once_nil (command : list string) : at_most_once command [].
Proof. left. reflexivity. Qed.

Lemma maintenance_order_sublist (e1 e2 e3 e4 e5 : list event) :
  at_most_once version_command e1 -> at_most_once view_command e2 ->
  at_most_once npm_install_command e3 -> at_most_once version_command e4 ->
  at_most_once asset_install_command e5 ->
  asked <$> (e1 ++ e2 ++ e3 ++ e4 ++ e5) `sublist_of` maintenance_order.
Proof.
  intros H1 H2 H3 H4 H5. rewrite !fmap_app.
  change maintenance_order
    with ([version_command] ++ [view_command] ++ [npm_install_command]
          ++ [version_command] ++ [asset_install_command]).
  repeat apply sublist_app; apply at_most_once_asked; assumption.
Qed.

Lemma maintain_trace_shape (host : Host) (w : World) :
  exists e1 e2 e3 e4 e5,
    extends (maintain_agent_browser host) w (e1 ++ e2 ++ e3 ++ e4 ++ e5) /\
    at_most_once version_command e1 /\ at_most_once view_command e2 /\
    at_most_once npm_install_command e3 /\ at_most_once version_command e4 /\
    at_most_once asset_install_command e5.
Proof.
  unfold extends.
  destruct (maintain_agent_browser host w) as [r w'] eqn:E. simpl snd.
  unfold maintain_agent_browser, mbind, prog_bind in E.
  destruct (read_installed_extends host w) as (evs1 & H1 & S1). unfold extends in H1.
  destruct (read_installed_agent_browser_version host w) as [[iv|e] w1] eqn:E1;
    simpl in H1.
  2:{ injection E as <- <-. exists evs1, [], [], [], []. rewrite !app_nil_r.
      repeat split; try apply at_most_once_nil; assumption. }
  destruct (read_latest_extends host w1) as (evs2 & H2 & S2). unfold extends in H2.
  destruct (read_latest_agent_browser_version host w1) as [[latest|e] w2] eqn:E2;
    simpl in H2.
  2:{ injection E as <- <-. exists evs1, evs2, [], [], []. rewrite !app_nil_r.
      rewrite H2, H1, <- app_assoc.
      repeat split; try apply at_most_once_nil; assumption. }
  rewrite print_trace in E. unfold lift in E.
  destruct (should_upgrade_agent_browser iv latest) as [needed|e] eqn:Eup.
  2:{ injection E as <- <-. exists evs1, evs2, [], [], []. rewrite !app_nil_r.
      simpl trace. rewrite H2, H1, <- app_assoc.
      repeat split; try apply at_most_once_nil; assumption. }
  destruct needed.
  - rewrite print_trace in E.
    match type of E with
    | context [run_command host ?a ?o None ?w0] =>
        destruct (run_command_extends host a o None w0) as (evs3 & H3 & S3 & O3);
        unfold extends in H3;
        destruct (run_command host a o None w0) as [[out|e] w3] eqn:E3
    end; simpl in H3.
    2:{ injection E as <- <-. exists evs1, evs2, evs3, [], []. rewrite !app_nil_r.
        rewrite H3, H2, H1, <- !app_assoc.
        repeat split; try apply at_most_once_nil; assumption. }
    destruct (read_installed_extends host w3) as (evs4 & H4 & S4). unfold extends in H4.
    destruct (read_installed_agent_browser_version host w3) as [[[again|]|e] w4] eqn:E4;
      simpl in H4.
    + unfold mret, prog_ret in E. change (negb true) with false in E. cbv beta iota in E.
      rewrite print_trace in E.
      match type of E with
      | context [run_command host ?a ?o None ?w0] =>
          destruct (run_command_extends host a o None w0) as (evs5 & H5 & S5 & O5);
          unfold extends in H5;
          destruct (run_command host a o None w0) as [[out5|e] w5] eqn:E5
      end; simpl in H5.
      * rewrite print_trace in E. injection E as <- <-.
        exists evs1, evs2, evs3, evs4, evs5.
        simpl trace. rewrite H5, H4, H3. simpl trace. rewrite H2, H1, <- !app_assoc.
        repeat split; assumption.
      * injection E as <- <-. exists evs1, evs2, evs3, evs4, evs5.
        rewrite H5. simpl trace. rewrite H4, H3. simpl trace. rewrite H2, H1, <- !app_assoc.
        repeat split; assumption.
    + unfold raise in E. injection E as <- <-.
      exists evs1, evs2, evs3, evs4, []. rewrite !app_nil_r.
      rewrite H4, H3. simpl trace. rewrite H2, H1, <- !app_assoc.
      repeat split; try apply at_most_once_nil; assumption.
    + injection E as <- <-.
      exists evs1, evs2, evs3, evs4, []. rewrite !app_nil_r.
      rewrite H4, H3. simpl trace. rewrite H2, H1, <- !app_assoc.
      repeat split; try apply at_most_once_nil; assumption.
  - rewrite print_trace in E. unfold mret, prog_ret in E.
    change (negb false) with true in E. cbv beta iota in E.
    rewrite print_trace in E. injection E as <- <-.
    exists evs1, evs2, [], [], []. rewrite !app_nil_r.
    simpl trace. rewrite H2, H1, <- app_assoc.
    repeat split; try apply at_most_once_nil; assumption.
Qed.

(** X17. The maintenance of the companion tool launches its commands in
    one order and no others: what a run launches, raising or not, is taken
    in order from: read the installed version, ask the registry for the
    latest, install with npm, read the installed version again, install
    the assets; each at most once. *)
Theorem maintenance_commands_in_order (host : Host) (w : World) :
  exists evs,
    extends (maintain_agent_browser host) w evs /\
    asked <$> evs `sublist_of` maintenance_order.
Proof.
  destruct (maintain_trace_shape host w)
    as (e1 & e2 & e3 & e4 & e5 & Hext & H1 & H2 & H3 & H4 & H5).
  exists (e1 ++ e2 ++ e3 ++ e4 ++ e5). split; [exact Hext|].
  apply maintenance_order_sublist; assumption.
Qed.

End MaintenanceMore.

(** ** The runs of the maintenance, path by path *)

Section MaintenanceRuns.
Import PyPath PySubprocess SyncRemoteSkills.

Lemma world_eta (w : World) : w = mkWorld (trace w ++ []) (console w).
Proof. destruct w. simpl. rewrite app_nil_r. reflexivity. Qed.

Lemma run_command_step (host : Host) (args : list string) (operation : string)
    (cwd : option Path) (w : World) :
  args <> [] ->
  exists evs r,
    run_command host args operation cwd w = (r, mkWorld (trace w ++ evs) (console w)) /\
    at_most_once args evs /\
    (is_sync_error r \/
     exists output ran_as,
       r = Ok output /\ evs = [mkEvent args ran_as] /\ ended_zero ran_as = true).
Proof.
  intros Hargs. destruct args as [|name arguments]; [congruence|].
  unfold run_command, mbind, prog_bind. simpl hd.
  destruct (find_executable_pure host name w) as [found ->].
  destruct found as [resolved|].
  2:{ exists [], (Raise (SyncExecutionError
        (operation +:+ " failed. Command not found: " +:+ name +:+ ". "
         +:+ "Suggested fix: install the command and ensure it is on PATH."))).
      split; [unfold raise; f_equal; apply world_eta|].
      split; [left; reflexivity|]. left. eexists. reflexivity. }
  unfold subprocess_run.
  destruct (spawn host (trace w) (resolved :: arguments) (as_posix <$> cwd))
    as [completed|exc] eqn:Hrun.
  - destruct (returncode completed =? 0) eqn:Hcode.
    + eexists _, _. split; [reflexivity|]. split; [right; eexists; reflexivity|].
      right. eexists _, _. split; [reflexivity|]. split; [reflexivity|]. exact Hcode.
    + eexists _, _. split; [reflexivity|]. split; [right; eexists; reflexivity|].
      left. eexists. reflexivity.
  - eexists _, _. split; [reflexivity|]. split; [right; eexists; reflexivity|].
    left. eexists. reflexivity.
Qed.

Lemma extract_semver_step (raw_text source : string) :
  is_sync_error (extract_semver raw_text source) \/
  exists version triple,
    extract_semver raw_text source = Ok version /\ parse_semver version = Ok triple.
Proof.
  unfold extract_semver.
  destruct (PyRe.search SEMVER_PATTERN raw_text) as [v|] eqn:Hv.
  - right. apply search_sound in Hv as [Hm _].
    apply matches_semver in Hm as (d1 & d2 & d3 & H1 & H2 & H3 & ->).
    eexists _, _. split; [reflexivity|]. apply parse_semver_runs; assumption.
  - left. eexists. reflexivity.
Qed.

Lemma read_installed_step (host : Host) (w : World) :
  exists evs r,
    read_installed_agent_browser_version host w
      = (r, mkWorld (trace w ++ evs) (console w)) /\
    at_most_once version_command evs /\
    (is_sync_error r \/ r = Ok None \/
     exists version triple, r = Ok (Some version) /\ parse_semver version = Ok triple).
Proof.
  unfold read_installed_agent_browser_version, mbind, prog_bind.
  destruct (find_executable_pure host "agent-browser" w) as [found ->].
  destruct found as [resolved|].
  2:{ exists [], (Ok None). split; [unfold mret, prog_ret; f_equal; apply world_eta|].
      split; [left; reflexivity|]. right. left. reflexivity. }
  destruct (run_command_step host version_command "Read installed agent-browser version"
              None w ltac:(discriminate)) as (evs & r & Hrun & Hshape & Hr).
  unfold version_command in Hrun. rewrite Hrun. exists evs.
  destruct Hr as [[message ->]|(output & ran_as & -> & _ & _)].
  - eexists. split; [reflexivity|]. split; [exact Hshape|]. left. eexists. reflexivity.
  - unfold lift.
    destruct (extract_semver_step output "agent-browser --version")
      as [[message ->]|(version & triple & -> & Hparse)].
    + eexists. split; [reflexivity|]. split; [exact Hshape|]. left. eexists. reflexivity.
    + eexists. split; [reflexivity|]. split; [exact Hshape|]. right. right. eauto.
Qed.

Lemma read_latest_step (host : Host) (w : World) :
  exists evs r,
    read_latest_agent_browser_version host w
      = (r, mkWorld (trace w ++ evs) (console w)) /\
    at_most_once view_command evs /\
    (is_sync_error r \/
     exists version triple, r = Ok version /\ parse_semver version = Ok triple).
Proof.
  unfold read_latest_agent_browser_version, mbind, prog_bind.
  destruct (run_command_step host view_command "Read latest agent-browser version from npm"
              None w ltac:(discriminate)) as (evs & r & Hrun & Hshape & Hr).
  unfold view_command in Hrun. rewrite Hrun. exists evs.
  destruct Hr as [[message ->]|(output & ran_as & -> & _ & _)].
  - eexists. split; [reflexivity|]. split; [exact Hshape|]. left. eexists. reflexivity.
  - unfold lift.
    destruct (extract_semver_step output "npm view agent-browser version")
      as [[message ->]|(version & triple & -> & Hparse)].
    + eexists. split; [reflexivity|]. split; [exact Hshape|]. left. eexists. reflexivity.
    + eexists. split; [reflexivity|]. split; [exact Hshape|]. right. eauto.
Qed.

Lemma should_upgrade_parsed (installed : option string) (latest : string) :
  (installed = None \/
   exists version triple, installed = Some version /\ parse_semver version = Ok triple) ->
  (exists triple, parse_semver latest = Ok triple) ->
  exists needed, should_upgrade_agent_browser installed latest = Ok needed.
Proof.
  intros [->|(version & triple & -> & Hi)] [triple' Hl]; [eexists; reflexivity|].
  unfold should_upgrade_agent_browser. rewrite Hi, Hl. eexists. reflexivity.
Qed.

Lemma status_line_other (current latest : string) :
  let line := "[agent-browser] installed=" +:+ current +:+ " latest=" +:+ latest in
  line <> install_completed_line /\ line <> install_skipped_line.
Proof.
  unfold install_completed_line, install_skipped_line. simpl.
  rewrite !str_app_cons, !str_app_nil_l. split; discriminate.
Qed.

Lemma not_in_lines (line : string) (lines : list string) :
  Forall (fun l => l <> line) lines -> line ∉ lines.
Proof.
  intros H Hin. rewrite Forall_forall in H. exact (H line Hin eq_refl).
Qed.

Ltac in_lines :=
  repeat first [apply list_elem_of_here | apply list_elem_of_further].

Ltac other_lines :=
  apply not_in_lines; unfold install_completed_line, install_skipped_line in *;
  repeat constructor; solve [assumption | discriminate].

Lemma maintain_run (host : Host) (w : World) :
  exists evs lines r,
    maintain_agent_browser host w = (r, mkWorld (trace w ++ evs) (console w ++ lines)) /\
    ((is_sync_error r /\
      (install_completed_line ∉ lines) /\ (install_skipped_line ∉ lines)) \/
     (r = Ok tt /\ decides host w true /\
      install_completed_line ∈ lines /\ (install_skipped_line ∉ lines) /\
      ran_ok npm_install_command evs = true /\
      ran_ok asset_install_command evs = true) \/
     (r = Ok tt /\ decides host w false /\
      install_skipped_line ∈ lines /\ (install_completed_line ∉ lines) /\
      ran npm_install_command evs = false /\
      ran asset_install_command evs = false)).
Proof.
  unfold maintain_agent_browser, mbind, prog_bind.
  destruct (read_installed_step host w) as (evs1 & r1 & E1 & S1 & C1). rewrite E1.
  assert (Hinstalled :
    is_sync_error r1 \/
    exists iv, r1 = Ok iv /\
      (iv = None \/
       exists version triple, iv = Some version /\ parse_semver version = Ok triple)).
  { destruct C1 as [H|[->|(v & t & -> & H)]]; [left; exact H|right..]; eauto 8. }
  clear C1. destruct Hinstalled as [[message ->]|(iv & -> & Hiv)].
  { exists evs1, [], (Raise (SyncExecutionError message)). rewrite app_nil_r.
    split; [reflexivity|]. left. split; [eexists; reflexivity|].
    split; apply not_elem_of_nil. }
  match goal with
  | |- context [read_latest_agent_browser_version host ?w0] =>
      destruct (read_latest_step host w0) as (evs2 & r2 & E2 & S2 & C2); rewrite E2
  end.
  cbn [trace console].
  destruct C2 as [[message ->]|(latest & triple & -> & Hlatest)].
  { exists (evs1 ++ evs2), [], (Raise (SyncExecutionError message)).
    rewrite app_nil_r, app_assoc.
    split; [reflexivity|]. left. split; [eexists; reflexivity|].
    split; apply not_elem_of_nil. }
  rewrite print_trace. cbn [trace console]. unfold lift.
  destruct (should_upgrade_parsed iv latest Hiv (ex_intro _ triple Hlatest))
    as [needed Hneeded].
  rewrite Hneeded.
  assert (Hdecides : decides host w needed) by (eexists _, _, _, _; eauto).
  set (status := "[agent-browser] installed="
                 +:+ (if truthy iv then default "" iv else "missing")
                 +:+ " latest=" +:+ latest).
  destruct (status_line_other (if truthy iv then default "" iv else "missing") latest)
    as [Hs1 Hs2]. fold status in Hs1, Hs2.
  destruct (ran_other version_command npm_install_command evs1 ltac:(discriminate) S1)
    as [N1 _].
  destruct (ran_other version_command asset_install_command evs1 ltac:(discriminate) S1)
    as [A1 _].
  destruct (ran_other view_command npm_install_command evs2 ltac:(discriminate) S2)
    as [N2 _].
  destruct (ran_other view_command asset_install_command evs2 ltac:(discriminate) S2)
    as [A2 _].
  destruct needed.
  2:{ rewrite print_trace. unfold mret, prog_ret. cbn [trace console negb].
      rewrite print_trace. cbn [trace console].
      rewrite <- ?app_assoc. eexists _, _, _. split; [reflexivity|]. right. right.
      split; [reflexivity|]. split; [exact Hdecides|]. simpl.
      split; [in_lines|].
      split; [other_lines|].
      rewrite !ran_app, N1, N2, A1, A2. split; reflexivity. }
  rewrite print_trace. cbn [trace console].
  match goal with
  | |- context [run_command host ?a ?o None ?w0] =>
      destruct (run_command_step host a o None w0 ltac:(discriminate))
        as (evs3 & r3 & -> & S3 & C3)
  end.
  cbn [trace console].
  destruct C3 as [[message ->]|(out3 & ran3 & -> & -> & Hzero3)].
  { rewrite <- ?app_assoc. eexists _, _, _. split; [reflexivity|]. left.
    split; [eexists; reflexivity|]. simpl.
    split; other_lines. }
  match goal with
  | |- context [read_installed_agent_browser_version host ?w0] =>
      destruct (read_installed_step host w0) as (evs4 & r4 & -> & S4 & C4)
  end.
  cbn [trace console].
  destruct (ran_same npm_install_command ran3) as [_ NO3]. rewrite Hzero3 in NO3.
  destruct C4 as [[message ->]|[->|(again & triple4 & -> & _)]].
  { rewrite <- ?app_assoc. eexists _, _, _. split; [reflexivity|]. left.
    split; [eexists; reflexivity|]. simpl.
    split; other_lines. }
  { unfold raise.
    rewrite <- ?app_assoc. eexists _, _, _. split; [reflexivity|]. left.
    split; [eexists; reflexivity|]. simpl.
    split; other_lines. }
  unfold mret, prog_ret. cbn [negb]. rewrite print_trace. cbn [trace console].
  match goal with
  | |- context [run_command host ?a ?o None ?w0] =>
      destruct (run_command_step host a o None w0 ltac:(discriminate))
        as (evs5 & r5 & -> & S5 & C5)
  end.
  cbn [trace console].
  destruct C5 as [[message ->]|(out5 & ran5 & -> & -> & Hzero5)].
  { rewrite <- ?app_assoc. eexists _, _, _. split; [reflexivity|]. left.
    split; [eexists; reflexivity|]. simpl.
    split; other_lines. }
  rewrite print_trace. cbn [trace console].
  destruct (ran_same asset_install_command ran5) as [_ AO5]. rewrite Hzero5 in AO5.
  rewrite <- ?app_assoc. eexists _, _, _. split; [reflexivity|]. right. left.
  split; [reflexivity|]. split; [exact Hdecides|].
  split; [simpl; in_lines|].
  split; [simpl; other_lines|].
  unfold npm_install_command, asset_install_command in *.
  rewrite !ran_ok_app, NO3, AO5, !orb_true_r. split; reflexivity.
Qed.


(** X19. The console tells what the maintenance did.  The line "install
    completed" is printed only by a run that returns and in which both the
    npm install and the asset installation ended with exit code zero; the
    line "skipping agent-browser install" only by a run that returns and
    launched neither; and a run that returns prints one of the two. *)
Theorem maintenance_reports_what_it_did (host : Host) (w : World) :
  exists evs lines,
    extends (maintain_agent_browser host) w evs /\
    prints (maintain_agent_browser host) w lines /\
    (install_completed_line ∈ lines ->
     (maintain_agent_browser host w).1 = Ok tt /\
     ran_ok npm_install_command evs = true /\
     ran_ok asset_install_command evs = true) /\
    (install_skipped_line ∈ lines ->
     (maintain_agent_browser host w).1 = Ok tt /\
     ran npm_install_command evs = false /\
     ran asset_install_command evs = false) /\
    ((maintain_agent_browser host w).1 = Ok tt ->
     install_completed_line ∈ lines \/ install_skipped_line ∈ lines).
Proof.
  destruct (maintain_run host w) as (evs & lines & r & Hrun & Hcases).
  exists evs, lines. unfold extends, prints. rewrite Hrun. simpl.
  split; [reflexivity|]. split; [reflexivity|].
  destruct Hcases
    as [([message ->] & Hc & Hs)|[(-> & _ & Hc & Hs & Hn & Ha)|(-> & _ & Hs & Hc & Hn & Ha)]].
  - split; [intros H; contradiction|]. split; [intros H; contradiction|]. discriminate.
  - split; [auto|]. split; [intros H; contradiction|]. auto.
  - split; [intros H; contradiction|]. split; [auto|]. auto.
Qed.

Lemma maintenance_reports_what_it_did_witness :
  exists evs lines,
    extends (maintain_agent_browser host_that_upgrades) fresh_world evs /\
    prints (maintain_agent_browser host_that_upgrades) fresh_world lines /\
    install_completed_line ∈ lines /\
    (maintain_agent_browser host_that_upgrades fresh_world).1 = Ok tt /\
    ran_ok npm_install_command evs = true /\
    ran_ok asset_install_command evs = true.
Proof.
  destruct (maintenance_reports_what_it_did host_that_upgrades fresh_world)
    as (evs & lines & Hext & Hprints & Hcompleted & Hskipped & Hreturned).
  exists evs, lines. split; [exact Hext|]. split; [exact Hprints|].
  assert (Hline : install_completed_line ∈ lines).
  { destruct (Hreturned eq_refl) as [H|H]; [exact H|].
    destruct (Hskipped H) as (_ & Hn & _).
    unfold extends in Hext. simpl in Hext. rewrite <- Hext in Hn. discriminate Hn. }
  split; [exact Hline|]. exact (Hcompleted Hline).
Defined.

Lemma decides_once (host : Host) (w : World) (a b : bool) :
  decides host w a -> decides host w b -> a = b.
Proof.
  intros (i1 & l1 & u1 & v1 & Hi1 & Hl1 & Hd1) (i2 & l2 & u2 & v2 & Hi2 & Hl2 & Hd2).
  rewrite Hi1 in Hi2. injection Hi2 as <- <-.
  rewrite Hl1 in Hl2. injection Hl2 as <- <-.
  rewrite Hd1 in Hd2. injection Hd2 as <-. reflexivity.
Qed.

(** X20. An upgrade that is needed is performed, or the run fails: when
    [should_upgrade_agent_browser] answers true for the versions read at
    the start (the tool is missing, or older than the latest), a run that
    returns has launched the npm install and the asset installation, and
    both ended with exit code zero. *)
Theorem needed_upgrade_is_performed
    (host : Host) (w : World) (installed : option string) (latest : string)
    (w1 w2 : World) :
  read_installed_agent_browser_version host w = (Ok installed, w1) ->
  read_latest_agent_browser_version host w1 = (Ok latest, w2) ->
  should_upgrade_agent_browser installed latest = Ok true ->
  (maintain_agent_browser host w).1 = Ok tt ->
  exists evs,
    extends (maintain_agent_browser host) w evs /\
    ran_ok npm_install_command evs = true /\
    ran_ok asset_install_command evs = true.
Proof.
  intros Hinstalled Hlatest Hup Hok.
  assert (Hneeded : decides host w true) by (eexists _, _, _, _; eauto).
  destruct (maintain_run host w) as (evs & lines & r & Hrun & Hcases).
  exists evs. unfold extends. rewrite Hrun in Hok |- *. simpl in Hok |- *.
  split; [reflexivity|].
  destruct Hcases as [([message ->] & _)|[(_ & _ & _ & _ & Hn & Ha)|(_ & Hnot & _)]].
  - discriminate.
  - split; assumption.
  - discriminate (decides_once host w _ _ Hneeded Hnot).
Qed.

Lemma needed_upgrade_is_performed_witness :
  read_installed_agent_browser_version host_that_upgrades fresh_world
    = (Ok None, fresh_world) /\
  should_upgrade_agent_browser None "0.14.0" = Ok true /\
  exists evs,
    extends (maintain_agent_browser host_that_upgrades) fresh_world evs /\
    ran_ok npm_install_command evs = true /\
    ran_ok asset_install_command evs = true.
Proof.
  split; [reflexivity|]. split; [reflexivity|].
  exact (needed_upgrade_is_performed host_that_upgrades fresh_world None "0.14.0"
           fresh_world _ eq_refl eq_refl eq_refl eq_refl).
Defined.

End MaintenanceRuns.

(** ** The report on the skills directory *)

Section SkillsStatus.
Import PyPath PySubprocess SyncRemoteSkills.

Lemma lstrip_blank (s : string) : blank s = true -> PyStr.lstrip s = "".
Proof.
  unfold blank. induction s as [|c s IH]; [reflexivity|]. simpl. intros H.
  apply andb_true_iff in H as [-> Hs]. exact (IH Hs).
Qed.

Lemma strip_blank (s : string) : blank s = true -> PyStr.strip s = "".
Proof. intros H. unfold PyStr.strip. rewrite (lstrip_blank s H). reflexivity. Qed.

Lemma lstrip_not_blank (s : string) :
  blank s = false ->
  exists c rest, PyStr.lstrip s = String c rest /\ PyStr.isspace c = false.
Proof.
  unfold blank. induction s as [|c s IH]; [discriminate|]. simpl.
  destruct (PyStr.isspace c) eqn:Hc; simpl; [exact IH|].
  intros _. eauto.
Qed.

Lemma strip_not_blank (s : string) : blank s = false -> PyStr.strip s <> "".
Proof.
  intros H. destruct (lstrip_not_blank s H) as (c & rest & Heq & Hc).
  unfold PyStr.strip. rewrite Heq. simpl. rewrite Hc.
  destruct (PyStr.rstrip rest); discriminate.
Qed.

(** X21. [print_skills_git_status] runs [git status --short skills] in the
    repository root.  When git fails, the structured error is raised and
    nothing is printed.  When git succeeds, an output of white space alone
    counts as no change: the empty text is returned and the console says
    so; any other output is returned trimmed, is not empty, and is printed
    under the line that announces changes. *)
Theorem skills_status_reports_changes
    (host : Host) (repo_root : Path) (w : World)
    (resolved : string) (completed : CompletedProcess) :
  find_executable host "git" w = (Ok (Some resolved), w) ->
  spawn host (trace w) [resolved; "status"; "--short"; "skills"]
    (Some (as_posix repo_root)) = Completed completed ->
  let launched := trace w ++ [mkEvent git_status_command (Completed completed)] in
  (returncode completed <> 0 ->
   exists message,
     print_skills_git_status host repo_root w
       = (Raise (SyncExecutionError message), mkWorld launched (console w))) /\
  (returncode completed = 0 -> blank (stdout completed) = true ->
   print_skills_git_status host repo_root w
     = (Ok "", mkWorld launched
                 (console w ++ ["[git] skills directory has no pending changes"]))) /\
  (returncode completed = 0 -> blank (stdout completed) = false ->
   PyStr.strip (stdout completed) <> "" /\
   print_skills_git_status host repo_root w
     = (Ok (PyStr.strip (stdout completed)),
        mkWorld launched
          (console w ++ ["[git] skills changes detected:";
                         PyStr.strip (stdout completed)]))).
Proof.
  intros Hfind Hrun launched.
  unfold print_skills_git_status, run_command, mbind, prog_bind. simpl hd.
  rewrite Hfind. unfold subprocess_run.
  change (as_posix <$> Some repo_root) with (Some (as_posix repo_root)).
  rewrite Hrun. cbv beta iota zeta.
  split; [|split].
  - intros Hcode. apply Z.eqb_neq in Hcode. rewrite Hcode. eexists. reflexivity.
  - intros Hcode Hblank. rewrite Hcode. simpl Z.eqb. cbv beta iota.
    unfold mret, prog_ret. rewrite (strip_blank _ Hblank). reflexivity.
  - intros Hcode Hblank. rewrite Hcode. simpl Z.eqb. cbv beta iota.
    pose proof (strip_not_blank _ Hblank) as Hne. split; [exact Hne|].
    unfold mret, prog_ret.
    destruct (PyStr.strip (stdout completed)) as [|c rest]; [congruence|].
    simpl. rewrite <- app_assoc. reflexivity.
Qed.

Lemma skills_status_reports_changes_witness :
  let host (git_stdout : string) : Host :=
    mkHost (fun _ name => Some ("/usr/bin/" +:+ name))
      (fun _ _ _ => Completed (mkCompleted 0 git_stdout "")) false in
  print_skills_git_status (host "  ") (parse "/repo") fresh_world
    = (Ok "", mkWorld [mkEvent git_status_command (Completed (mkCompleted 0 "  " ""))]
                ["[git] skills directory has no pending changes"]) /\
  print_skills_git_status (host " M skills/demo/SKILL.md ") (parse "/repo") fresh_world
    = (Ok "M skills/demo/SKILL.md",
       mkWorld [mkEvent git_status_command
                  (Completed (mkCompleted 0 " M skills/demo/SKILL.md " ""))]
         ["[git] skills changes detected:"; "M skills/demo/SKILL.md"]).
Proof.
  intros host. split.
  - exact (proj1 (proj2 (skills_status_reports_changes (host "  ") (parse "/repo")
                           fresh_world "/usr/bin/git" (mkCompleted 0 "  " "")
                           eq_refl eq_refl)) eq_refl eq_refl).
  - exact (proj2 (proj2 (proj2 (skills_status_reports_changes
                                  (host " M skills/demo/SKILL.md ") (parse "/repo")
                                  fresh_world "/usr/bin/git"
                                  (mkCompleted 0 " M skills/demo/SKILL.md " "")
                                  eq_refl eq_refl)) eq_refl eq_refl)).
Defined.

End SkillsStatus.

(** ** Replacing a directory *)

Section TreeFacts.
Import PyPath Fs.

Lemma within_spec (p q : Path) :
  within p q = true <-> root q = root p /\ exists s, tail q = tail p ++ s.
Proof.
  unfold within. rewrite andb_true_iff, !bool_decide_eq_true. split.
  - intros [Hr Ht]. split; [exact Hr|]. exists (drop (length (tail p)) (tail q)).
    rewrite <- Ht at 1. symmetry. apply take_drop.
  - intros [Hr [s Hs]]. split; [exact Hr|]. rewrite Hs. apply take_app_length.
Qed.

Lemma within_extend (p : Path) (s : list string) : within p (extend p s) = true.
Proof. apply within_spec. split; [reflexivity|]. exists s. reflexivity. Qed.

Lemma within_refl (p : Path) : within p p = true.
Proof. apply within_spec. split; [reflexivity|]. exists []. symmetry. apply app_nil_r. Qed.

Lemma within_is_extend (p q : Path) :
  within p q = true -> exists s, q = extend p s /\ (q <> p -> s <> []).
Proof.
  intros H. apply within_spec in H as [Hr [s Hs]]. exists s. split.
  - destruct q as [rq tq]. simpl in *. subst. reflexivity.
  - intros Hne ->. apply Hne. destruct p, q. simpl in *. rewrite app_nil_r in Hs.
    subst. reflexivity.
Qed.

Lemma extend_inj (p : Path) (s t : list string) : extend p s = extend p t -> s = t.
Proof. unfold extend. intros H. injection H as H. exact (app_inv_head _ _ _ H). Qed.

Lemma extend_self (p : Path) (s : list string) : extend p s = p -> s = [].
Proof.
  destruct p as [r t]. unfold extend. simpl. intros H. injection H as H.
  apply (app_inv_head t). rewrite app_nil_r. exact H.
Qed.

Lemma rebase_extend (src dst : Path) (s : list string) :
  rebase src dst (extend src s) = extend dst s.
Proof. unfold rebase, extend. simpl. rewrite drop_app_length. reflexivity. Qed.

Lemma proper_prefixes_spec {A : Type} (l p : list A) :
  p ∈ proper_prefixes l <-> exists s, s <> [] /\ l = p ++ s.
Proof.
  revert p. induction l as [|x l IH]; intros p; simpl.
  - split; [intros H; inversion H|]. intros (s & Hs & Heq).
    destruct p; destruct s; simpl in *; congruence.
  - rewrite elem_of_cons, list_elem_of_fmap. split.
    + intros [->|(p' & -> & Hp')]; [exists (x :: l); split; [discriminate|reflexivity]|].
      apply IH in Hp' as (s & Hs & ->). exists s. split; [exact Hs|reflexivity].
    + intros (s & Hs & Heq). destruct p as [|y p]; [left; reflexivity|].
      right. simpl in Heq. injection Heq as -> ->. exists p. split; [reflexivity|].
      apply IH. exists s. split; [exact Hs|reflexivity].
Qed.

Lemma ancestors_spec (a p : Path) :
  a ∈ ancestors p <-> exists s, s <> [] /\ p = extend a s.
Proof.
  unfold ancestors. rewrite list_elem_of_fmap. split.
  - intros (l & -> & Hl). apply proper_prefixes_spec in Hl as (s & Hs & Heq).
    exists s. split; [exact Hs|]. destruct p as [r t]. unfold extend. simpl in *.
    rewrite Heq. reflexivity.
  - intros (s & Hs & ->). exists (tail a). split; [destruct a; reflexivity|].
    apply proper_prefixes_spec. exists s. split; [exact Hs|reflexivity].
Qed.

Lemma ancestor_within (a p : Path) : a ∈ ancestors p -> within a p = true.
Proof. intros H. apply ancestors_spec in H as (s & _ & ->). apply within_extend. Qed.

Lemma within_trans (p q r : Path) :
  within p q = true -> within q r = true -> within p r = true.
Proof.
  rewrite !within_spec. intros [H1 [s Hs]] [H2 [t Ht]]. split; [congruence|].
  exists (s ++ t). rewrite Ht, Hs, app_assoc. reflexivity.
Qed.

Lemma parent_ancestor (p : Path) : tail p <> [] -> parent p ∈ ancestors p.
Proof.
  intros H. rewrite (ancestors_with_parent p H). apply elem_of_app. right. left.
Qed.

Lemma parent_ancestors (p a : Path) :
  tail p <> [] -> a = parent p \/ a ∈ ancestors (parent p) -> a ∈ ancestors p.
Proof.
  intros H Ha. rewrite (ancestors_with_parent p H). apply elem_of_app.
  destruct Ha as [->|Ha]; [right; left|left; exact Ha].
Qed.

End TreeFacts.

Section CopyTreeFacts.
Import PyPath Fs.

Lemma moved_keys (fs : gmap Path node) (src dst : Path) (q : Path) (v : node) :
  (q, v) ∈ moved fs src dst <->
  exists s, s <> [] /\ q = extend dst s /\ fs !! extend src s = Some v.
Proof.
  unfold moved. rewrite list_elem_of_fmap. split.
  - intros ([k x] & Heq & Hin). apply list_elem_of_filter in Hin as [[Hw Hne] Hin].
    simpl in Hw, Hne. apply elem_of_map_to_list in Hin.
    destruct (within_is_extend src k Hw) as (s & -> & Hs).
    unfold prod_map in Heq. simpl in Heq. injection Heq as -> ->.
    exists s. split; [exact (Hs Hne)|]. split; [apply rebase_extend|exact Hin].
  - intros (s & Hs & -> & Hin). exists (extend src s, v). split.
    + unfold prod_map. simpl. rewrite rebase_extend. reflexivity.
    + apply list_elem_of_filter. split.
      * simpl. split; [apply within_extend|]. intros H. apply extend_self in H. auto.
      * apply elem_of_map_to_list. exact Hin.
Qed.

Lemma moved_NoDup (fs : gmap Path node) (src dst : Path) : NoDup (moved fs src dst).*1.
Proof.
  unfold moved. rewrite <- list_fmap_compose.
  apply NoDup_fmap_2_strong.
  - intros [k1 v1] [k2 v2] H1 H2 Heq.
    apply list_elem_of_filter in H1 as [[Hw1 _] H1], H2 as [[Hw2 _] H2].
    simpl in *. apply elem_of_map_to_list in H1, H2.
    destruct (within_is_extend src k1 Hw1) as (s1 & -> & _).
    destruct (within_is_extend src k2 Hw2) as (s2 & -> & _).
    rewrite !rebase_extend in Heq. apply extend_inj in Heq. subst s2.
    rewrite H1 in H2. injection H2 as ->. reflexivity.
  - apply NoDup_filter, NoDup_map_to_list.
Qed.

Lemma moved_lookup (fs : gmap Path node) (src dst : Path) (s : list string) :
  s <> [] ->
  (list_to_map (moved fs src dst) : gmap Path node) !! extend dst s = fs !! extend src s.
Proof.
  intros Hs. destruct (fs !! extend src s) as [v|] eqn:Hv.
  - apply elem_of_list_to_map_1; [apply moved_NoDup|].
    apply moved_keys. exists s. auto.
  - apply not_elem_of_list_to_map_1. intros Hin.
    apply list_elem_of_fmap in Hin as ([q v] & Hq & Hin). simpl in Hq. subst q.
    apply moved_keys in Hin as (t & _ & Heq & Hin). apply extend_inj in Heq. subst t.
    congruence.
Qed.

Lemma moved_lookup_other (fs : gmap Path node) (src dst q : Path) :
  within dst q = false \/ q = dst ->
  (list_to_map (moved fs src dst) : gmap Path node) !! q = None.
Proof.
  intros Hq. apply not_elem_of_list_to_map_1. intros Hin.
  apply list_elem_of_fmap in Hin as ([k v] & Hk & Hin). simpl in Hk. subst k.
  apply moved_keys in Hin as (s & Hs & -> & _).
  destruct Hq as [Hq|Hq].
  - rewrite within_extend in Hq. discriminate.
  - apply extend_self in Hq. auto.
Qed.

Lemma makedirs_in_directory (fs : gmap Path node) (p : Path) :
  tail p <> [] -> fs !! p = None -> is_dir fs (parent p) = true ->
  makedirs fs (root p) (rev (tail p)) = inl (<[p := Directory]> fs).
Proof.
  intros Htail Hnone Hdir. destruct p as [r t]. simpl in *.
  destruct (rev t) as [|x rev_parent] eqn:Hrev.
  { apply (f_equal (@rev string)) in Hrev. rewrite rev_involutive in Hrev. simpl in Hrev.
    congruence. }
  assert (Ht : t = rev rev_parent ++ [x]).
  { apply (f_equal (@rev string)) in Hrev. rewrite rev_involutive in Hrev. exact Hrev. }
  subst t. rewrite parent_snoc in Hdir. cbn [makedirs].
  unfold exists_. unfold is_dir in Hdir.
  destruct (stat fs (mkPath r (rev rev_parent))) as [[c|]|] eqn:Hp; try discriminate.
  unfold os_mkdir. change (rev (x :: rev_parent)) with (rev rev_parent ++ [x]).
  rewrite (stat_lookup fs (mkPath r (rev rev_parent ++ [x])) Htail), Hnone.
  rewrite parent_snoc, Hp. reflexivity.
Qed.

End CopyTreeFacts.

Section ReplaceFacts.
Import PyPath Fs SyncRemoteSkills.

Lemma stat_same (fs fs' : gmap Path node) (p : Path) :
  fs' !! p = fs !! p -> stat fs' p = stat fs p.
Proof. unfold stat. intros ->. reflexivity. Qed.

Lemma parent_extend (p : Path) (s : list string) (x : string) :
  parent (extend p (s ++ [x])) = extend p s.
Proof. unfold extend. rewrite app_assoc. apply parent_snoc. Qed.

Lemma extend_nil (p : Path) : extend p [] = p.
Proof. destruct p. unfold extend. simpl. rewrite app_nil_r. reflexivity. Qed.

Lemma extend_tail (p : Path) (s : list string) : s <> [] -> tail (extend p s) <> [].
Proof. intros Hs H. simpl in H. apply app_eq_nil in H as [_ H]. auto. Qed.

Lemma nothing_under_a_missing_directory (fs : gmap Path node) (p : Path) (s : list string) :
  consistent fs = true -> tail p <> [] -> is_dir fs p = false -> s <> [] ->
  fs !! extend p s = None.
Proof.
  intros Hall Htail Hdir.
  assert (Hwf : forall q v, fs !! q = Some v -> is_dir fs (parent q) = true).
  { intros q v Hq. apply elem_of_map_to_list in Hq.
    exact (forallb_elem _ _ Hall (q, v) Hq). }
  induction s as [|x s IH] using rev_ind; [congruence|].
  intros _. destruct (fs !! extend p (s ++ [x])) as [v|] eqn:Hv; [|reflexivity].
  exfalso. pose proof (Hwf _ _ Hv) as Hparent. simpl in Hparent.
  rewrite parent_extend in Hparent.
  destruct s as [|y s].
  - rewrite extend_nil in Hparent. rewrite Hparent in Hdir. discriminate.
  - unfold is_dir in Hparent.
    rewrite (stat_lookup fs _ (extend_tail p (y :: s) ltac:(discriminate))) in Hparent.
    rewrite (IH ltac:(discriminate)) in Hparent. discriminate.
Qed.

Lemma within_extend_cases (p q : Path) (s : list string) :
  within p (extend q s) = true -> within p q = true \/ within q p = true.
Proof.
  rewrite !within_spec. simpl. intros [Hr [t Ht]].
  apply app_eq_inv in Ht as [(k & Hq & _)|(k & Hp & _)].
  - left. split; [congruence|]. exists k. exact Hq.
  - right. split; [congruence|]. exists k. exact Hp.
Qed.

Lemma ancestor_not_within (a p : Path) : a ∈ ancestors p -> within p a = false.
Proof.
  intros H. apply ancestors_spec in H as (s & Hs & ->).
  destruct (within (extend a s) a) eqn:Hw; [|reflexivity]. exfalso.
  apply within_spec in Hw as [_ [t Ht]]. simpl in Ht.
  rewrite <- app_assoc in Ht. rewrite <- (app_nil_r (tail a)) in Ht at 1.
  apply app_inv_head in Ht. symmetry in Ht. apply app_eq_nil in Ht as [? _]. auto.
Qed.

Lemma ancestor_of_within (a p q : Path) :
  a ∈ ancestors p -> within q a = true -> within q p = true.
Proof.
  intros Ha Hq. apply (within_trans q a p Hq). apply ancestor_within. exact Ha.
Qed.

Lemma removed_inl (fs : gmap Path node) (target : Path) :
  tail target <> [] ->
  exists fs1,
    removed fs target = inl fs1 /\
    fs1 !! target = None /\
    (forall q, within target q = false -> fs1 !! q = fs !! q) /\
    (forall q, within target q = true -> fs1 !! q = None \/ fs1 !! q = fs !! q) /\
    (is_dir fs target = true -> forall q, within target q = true -> fs1 !! q = None).
Proof.
  intros Htail. unfold removed, exists_, is_dir, rmtree, unlink.
  rewrite (stat_lookup fs target Htail).
  destruct (fs !! target) as [[content|]|] eqn:Ht.
  - exists (delete target fs). split; [reflexivity|]. split; [apply lookup_delete_eq|].
    split; [|split; [|discriminate]].
    + intros q Hq. apply lookup_delete_ne. intros <-. rewrite within_refl in Hq. discriminate.
    + intros q _. destruct (decide (q = target)) as [->|Hne].
      * left. apply lookup_delete_eq.
      * right. apply lookup_delete_ne. congruence.
  - eexists. split; [reflexivity|].
    assert (Hin : forall q, within target q = true ->
              filter (fun entry : Path * node => within target entry.1 = false) fs !! q = None).
    { intros q Hq. apply map_lookup_filter_None. right. intros x _. simpl. congruence. }
    split; [apply Hin, within_refl|]. split; [|split].
    + intros q Hq. destruct (fs !! q) as [x|] eqn:Hx.
      * apply map_lookup_filter_Some. split; [exact Hx|exact Hq].
      * apply map_lookup_filter_None. left. exact Hx.
    + intros q Hq. left. exact (Hin q Hq).
    + intros _. exact Hin.
  - exists fs. split; [reflexivity|]. split; [exact Ht|]. split; [reflexivity|].
    split; [intros; right; reflexivity|discriminate].
Qed.

Lemma replace_unfold (fs : gmap Path node) (source target : Path) :
  replace_with_directory fs source target =
  match removed fs target with
  | inr e => (Raise (OSError e), fs)
  | inl fs1 =>
      match mkdir fs1 (parent target) with
      | inr e => (Raise (OSError e), fs1)
      | inl fs2 =>
          match copytree fs2 source target with
          | inr e => (Raise (OSError e), fs2)
          | inl fs3 => (Ok tt, fs3)
          end
      end
  end.
Proof. reflexivity. Qed.

Lemma mkdir_parent_keeps (fs1 fs2 : gmap Path node) (target q : Path) :
  tail target <> [] ->
  only_adds_directories fs1 fs2 (parent target) ->
  fs2 !! q = fs1 !! q \/
  (fs1 !! q = None /\ fs2 !! q = Some Directory /\ q ∈ ancestors target).
Proof.
  intros Htail Hadds. destruct (Hadds q) as [H|(Hn & Hd & Hq)]; [left; exact H|].
  right. split; [exact Hn|]. split; [exact Hd|].
  apply parent_ancestors; [exact Htail|]. exact Hq.
Qed.

End ReplaceFacts.

Section ReplaceClaims.
Import PyPath Fs SyncRemoteSkills.

Lemma is_dir_stat (fs : gmap Path node) (p : Path) :
  is_dir fs p = true <-> stat fs p = Some Directory.
Proof.
  unfold is_dir. destruct (stat fs p) as [[c|]|]; split; congruence.
Qed.

(** X22. [replace_with_directory] replaces, it does not merge.  On a
    consistent file system, with a source directory and a target that lie
    apart and no regular file above the target, it returns; afterwards the
    target is a directory, the entries under it are exactly the entries
    under the source (what the old target held and the source does not is
    gone), and outside the target nothing changes but missing directories
    above it, which are made. *)
Theorem replace_with_directory_copies
    (fs : gmap Path node) (source target : Path) :
  consistent fs = true ->
  is_dir fs source = true ->
  tail target <> [] ->
  within source target = false ->
  within target source = false ->
  forallb (fun a => negb (is_file fs a)) (ancestors target) = true ->
  exists fs',
    replace_with_directory fs source target = (Ok tt, fs') /\
    fs' !! target = Some Directory /\
    (forall s, s <> [] -> fs' !! extend target s = fs !! extend source s) /\
    (forall q, within target q = false ->
       fs' !! q = fs !! q \/
       (fs !! q = None /\ fs' !! q = Some Directory /\ q ∈ ancestors target)).
Proof.
  intros Hwf Hsource Htail Hinside Houtside Hfreeb.
  assert (Hfree : forall a, a ∈ ancestors target -> is_file fs a = false).
  { intros a Ha. apply negb_true_iff. revert a Ha. apply forallb_elem. exact Hfreeb. }
  rewrite replace_unfold.
  destruct (removed_inl fs target Htail) as (fs1 & -> & Hgone & Hkept & Hunder & Hdir).
  assert (Hempty : forall s, s <> [] -> fs1 !! extend target s = None).
  { intros s Hs. destruct (is_dir fs target) eqn:Ht.
    - apply (Hdir eq_refl). apply within_extend.
    - destruct (Hunder (extend target s) (within_extend target s)) as [H|H]; [exact H|].
      rewrite H. apply nothing_under_a_missing_directory; assumption. }
  assert (Hfree1 : forall a, a ∈ ancestors target -> is_file fs1 a = false).
  { intros a Ha. unfold is_file.
    rewrite (stat_same fs fs1 a (Hkept a (ancestor_not_within a target Ha))).
    exact (Hfree a Ha). }
  destruct (mkdir_ok fs1 (parent target)) as (fs2 & Hmk & Hparent & Hadds).
  { apply Hfree1, parent_ancestor, Htail. }
  { intros a Ha. apply Hfree1, parent_ancestors; auto. }
  rewrite Hmk.
  pose proof (fun q => mkdir_parent_keeps fs1 fs2 target q Htail Hadds) as Hkeeps.
  assert (Hnew : forall q, within target q = true -> fs2 !! q = fs1 !! q).
  { intros q Hq. destruct (Hkeeps q) as [H|(_ & _ & Ha)]; [exact H|].
    rewrite (ancestor_not_within q target Ha) in Hq. discriminate. }
  assert (Hsrc : forall q, within source q = true -> fs2 !! q = fs !! q).
  { intros q Hq.
    assert (Hout : within target q = false).
    { destruct (within target q) eqn:Hw; [|reflexivity].
      destruct (within_is_extend source q Hq) as (s & -> & _).
      destruct (within_extend_cases target source s Hw) as [H|H]; congruence. }
    destruct (Hkeeps q) as [H|(_ & _ & Ha)]; [rewrite H; exact (Hkept q Hout)|].
    rewrite (ancestor_of_within q target source Ha Hq) in Hinside. discriminate. }
  assert (Hsource2 : stat fs2 source = Some Directory).
  { apply is_dir_stat in Hsource. rewrite <- Hsource. apply stat_same, Hsrc, within_refl. }
  assert (Htarget2 : fs2 !! target = None).
  { rewrite (Hnew target (within_refl target)). exact Hgone. }
  unfold copytree. rewrite Hsource2.
  rewrite (makedirs_in_directory fs2 target Htail Htarget2 Hparent).
  eexists. split; [reflexivity|]. split; [|split].
  - rewrite lookup_union_r by (apply moved_lookup_other; right; reflexivity).
    apply lookup_insert_eq.
  - intros s Hs. rewrite lookup_union, (moved_lookup fs2 source target s Hs).
    rewrite lookup_insert_ne by (intros H; symmetry in H; apply extend_self in H; auto).
    rewrite (Hnew _ (within_extend target s)), (Hempty s Hs).
    rewrite (Hsrc _ (within_extend source s)).
    destruct (fs !! extend source s); reflexivity.
  - intros q Hq.
    rewrite lookup_union_r by (apply moved_lookup_other; left; exact Hq).
    rewrite lookup_insert_ne by (intros <-; rewrite within_refl in Hq; discriminate).
    destruct (Hkeeps q) as [H|(Hn & Hd & Ha)].
    + left. rewrite H. exact (Hkept q Hq).
    + right. rewrite (Hkept q Hq) in Hn. auto.
Qed.


Lemma replace_with_directory_copies_witness :
  let source := parse "/tmp/clone/demo" in
  let target := parse "/repo/skills/demo" in
  exists fs',
    replace_with_directory fs_with_stale_skill source target = (Ok tt, fs') /\
    fs' !! parse "/repo/skills/demo/SKILL.md" = Some (File "new") /\
    fs' !! parse "/repo/skills/demo/refs/a.md" = Some (File "a") /\
    fs' !! parse "/repo/skills/demo/stale.md" = None /\
    fs' !! parse "/tmp/clone/demo/SKILL.md" = Some (File "new").
Proof.
  intros source target.
  assert (Hwf : consistent fs_with_stale_skill = true) by (vm_compute; reflexivity).
  assert (Htail : tail target <> []) by discriminate.
  destruct (replace_with_directory_copies fs_with_stale_skill source target
              Hwf eq_refl Htail eq_refl eq_refl eq_refl)
    as (fs' & Hrun & _ & Hcopy & Hout).
  exists fs'. split; [exact Hrun|]. split; [|split; [|split]].
  - change (fs' !! extend target ["SKILL.md"] = Some (File "new")).
    rewrite Hcopy by discriminate. reflexivity.
  - change (fs' !! extend target ["refs"; "a.md"] = Some (File "a")).
    rewrite Hcopy by discriminate. reflexivity.
  - change (fs' !! extend target ["stale.md"] = None).
    rewrite Hcopy by discriminate. reflexivity.
  - destruct (Hout (parse "/tmp/clone/demo/SKILL.md") eq_refl) as [->|[Hnone _]];
      [reflexivity|discriminate Hnone].
Defined.


End ReplaceClaims.
